(** * Blind spectrum scan for DVB-S/S2 frontends: functional model

    A shallow embedding of the blindscan pipeline of [linuxdvb_blindscan.c]
    and [linuxdvb_blindscan.h]: the software peak detector, the
    de-duplication of driver candidates, the worker that plans and runs the
    (polarisation, band) acquisitions, the peaks report and the parameter
    decoding of the prescan; further the conversion of the driver's reply
    by the two acquirers, the LNB configuration, the session list with the
    spectrum operation, the run of a prescan on the peak list, the
    creation of muxes with its string and enumeration conversions, and
    the start handler of [api_blindscan.c].

    C integers are integers of [Z]; the 32-bit wrap-around of the C
    arithmetic is written out with [wrap_u32] and [wrap_s32].  Array
    indices ([size_t], and [int] loop counters) are naturals.  The driver
    (ioctl traffic, epoll waits, DiSEqC sequencing) is an environment of
    oracles; the enumerators of the host headers are a record of
    constants. *)

From Stdlib Require Import ZArith List Bool Lia Arith PeanoNat Sorted Permutation.
From Stdlib Require String Ascii.
Import ListNotations.
Local Open Scope Z_scope.

Set Implicit Arguments.

(** ** 32-bit machine integers *)

Definition wrap_u32 (z : Z) : Z := z mod 4294967296.

Definition wrap_s32 (z : Z) : Z := (z + 2147483648) mod 4294967296 - 2147483648.

Definition in_u32 (z : Z) : Prop := 0 <= z < 4294967296.

Definition in_s32 (z : Z) : Prop := -2147483648 <= z < 2147483648.

(** Integer division of C truncates toward zero. *)
Definition c_div (a b : Z) : Z := Z.quot a b.

(** ** LNB constants (Universal LNB), kHz *)

Definition BLINDSCAN_LNB_SLOF : Z := 11700000.
Definition BLINDSCAN_LNB_LOF_LOW : Z := 9750000.
Definition BLINDSCAN_LNB_LOF_HIGH : Z := 10600000.

(** ** Helper functions of the header *)

(** [blindscan_freq_tolerance_for_sr]. *)
Definition blindscan_freq_tolerance_for_sr (symbol_rate : Z) : Z :=
  if symbol_rate <? 5000000 then 1000000
  else if symbol_rate <? 30000000 then 5000000
  else 10000000.

(** [blindscan_band_for_freq]: 0 is the low band, 1 the high band. *)
Definition blindscan_band_for_freq (frequency : Z) : Z :=
  if frequency >=? BLINDSCAN_LNB_SLOF then 1 else 0.

(** [blindscan_driver_freq]: a [uint32_t] difference returned as
    [int32_t]. *)
Definition blindscan_driver_freq (frequency b : Z) : Z :=
  if b =? 0
  then wrap_s32 (wrap_u32 (frequency - BLINDSCAN_LNB_LOF_LOW))
  else wrap_s32 (wrap_u32 (frequency - BLINDSCAN_LNB_LOF_HIGH)).

(** [blindscan_transponder_freq]. *)
Definition blindscan_transponder_freq (driver_freq b : Z) : Z :=
  if b =? 0
  then wrap_u32 (driver_freq + BLINDSCAN_LNB_LOF_LOW)
  else wrap_u32 (driver_freq + BLINDSCAN_LNB_LOF_HIGH).

(** ** Data structures *)

(** [blindscan_spectrum_point_t]: [frequency] is a [uint32_t] in kHz,
    [level] an [int32_t] in 0.01 dB. *)
Record blindscan_spectrum_point : Type := mk_point {
  pt_frequency : Z;
  pt_level : Z
}.

(** [blindscan_spectral_peak_t]. *)
Record blindscan_spectral_peak : Type := mk_spectral_peak {
  pk_frequency : Z;
  pk_symbol_rate : Z;
  pk_snr : Z;
  pk_level : Z
}.

(** [blindscan_spectrum_data_t]; [num_points] is the length of [points],
    the polarisation character is kept as the flag [pol_is_v]. *)
Record blindscan_spectrum_data : Type := mk_spectrum {
  points : list blindscan_spectrum_point;
  band : Z;
  polarisation_is_v : bool
}.

(** [candidate_t] of the peak detector. *)
Record candidate : Type := mk_candidate {
  idx : nat;
  level : Z
}.

(** ** The software peak detector, [blindscan_detect_peaks] *)

Module Detect.

Definition point0 : blindscan_spectrum_point := mk_point 0 0.

(** [sd->points[i].level] and [sd->points[i].frequency]. *)
Definition level_at (pts : list blindscan_spectrum_point) (i : nat) : Z :=
  pt_level (nth i pts point0).

Definition freq_at (pts : list blindscan_spectrum_point) (i : nat) : Z :=
  pt_frequency (nth i pts point0).

(** Step 1: minimum and maximum level, scanning from sample 1. *)
Definition min_max_step (acc : Z * Z) (p : blindscan_spectrum_point) : Z * Z :=
  let (min_level, max_level) := acc in
  (if pt_level p <? min_level then pt_level p else min_level,
   if pt_level p >? max_level then pt_level p else max_level).

Definition min_max_level (pts : list blindscan_spectrum_point) : Z * Z :=
  fold_left min_max_step (tl pts) (level_at pts 0, level_at pts 0).

(** Step 2: local maxima above the threshold. *)
Definition window : nat := 20.
Definition half_win : nat := Nat.div window 2.
Definition max_candidates : nat := 512.

(** The inner loop over [j = i - half_win .. i + half_win]: the sample is
    a maximum unless another sample of the window is strictly greater. *)
Definition is_local_max (pts : list blindscan_spectrum_point) (i : nat) (lvl : Z) : bool :=
  forallb (fun j => (j =? i)%nat || negb (level_at pts j >? lvl))
          (seq (i - half_win) (2 * half_win + 1)).

(** The outer loop [for (i = half_win; i < n - half_win && num_cand < 512; i++)].
    The fuel bounds the number of iterations; [length pts] is always
    enough because [i] grows at each iteration (see [sweep_fuel_enough]). *)
Fixpoint sweep_loop (pts : list blindscan_spectrum_point) (peak_threshold : Z)
         (fuel i : nat) (cands : list candidate) : list candidate :=
  match fuel with
  | O => cands
  | S fuel' =>
      if ((i <? length pts - half_win)%nat && (length cands <? max_candidates)%nat)%bool
      then
        let lvl := level_at pts i in
        if lvl <? peak_threshold
        then sweep_loop pts peak_threshold fuel' (S i) cands
        else if is_local_max pts i lvl
             then sweep_loop pts peak_threshold fuel' (S (i + half_win))
                             (cands ++ [mk_candidate i lvl])
             else sweep_loop pts peak_threshold fuel' (S i) cands
      else cands
  end.

Definition find_candidates (pts : list blindscan_spectrum_point) (peak_threshold : Z)
  : list candidate :=
  sweep_loop pts peak_threshold (length pts) half_win [].

(** Step 3: valley-based merging. *)
Definition min_valley_depth : Z := 400.

Definition weaker (prev curr : candidate) : Z :=
  if level prev <? level curr then level prev else level curr.

(** [for (j = prev->idx + 1; j < curr->idx; j++)]: the minimum of the
    samples strictly between the two candidates, starting from the level
    of the weaker one. *)
Definition valley_level (pts : list blindscan_spectrum_point) (prev curr : candidate) : Z :=
  fold_left (fun v j => if level_at pts j <? v then level_at pts j else v)
            (seq (S (idx prev)) (idx curr - S (idx prev)))
            (weaker prev curr).

Definition valley_depth (pts : list blindscan_spectrum_point) (prev curr : candidate) : Z :=
  wrap_s32 (weaker prev curr - valley_level pts prev curr).

(** The merge loop.  [kept] is [merged[0 .. num_merged-2]] and [prev] is
    [merged[num_merged-1]], the only entry the loop can still replace. *)
Fixpoint merge_loop (pts : list blindscan_spectrum_point) (kept : list candidate)
         (prev : candidate) (rest : list candidate) : list candidate :=
  match rest with
  | [] => kept ++ [prev]
  | curr :: rest' =>
      if valley_depth pts prev curr >=? min_valley_depth
      then merge_loop pts (kept ++ [prev]) curr rest'
      else if level curr >? level prev
           then merge_loop pts kept curr rest'
           else merge_loop pts kept prev rest'
  end.

(** The merge step on a candidate list; the detector returns before it
    when there is no candidate. *)
Definition valley_merge (pts : list blindscan_spectrum_point) (cands : list candidate)
  : list candidate :=
  match cands with
  | [] => []
  | c0 :: rest => merge_loop pts [] c0 rest
  end.

(** Step 4: the -6 dB edges.  [for (j = peak_idx; j > 0; j--)]. *)
Fixpoint find_left (pts : list blindscan_spectrum_point) (edge_level : Z)
         (j left_idx : nat) : nat :=
  match j with
  | O => left_idx
  | S j' => if level_at pts j <? edge_level then j
            else find_left pts edge_level j' j
  end.

(** [for (j = peak_idx; j < n; j++)], [count] is [n - j]. *)
Fixpoint find_right (pts : list blindscan_spectrum_point) (edge_level : Z)
         (count j right_idx : nat) : nat :=
  match count with
  | O => right_idx
  | S count' => if level_at pts j <? edge_level then j
                else find_right pts edge_level count' (S j) j
  end.

Definition symbol_rate_of_bandwidth (bandwidth_khz : Z) : Z :=
  let symbol_rate := wrap_u32 (bandwidth_khz * 800) in
  let symbol_rate := if symbol_rate <? 1000000 then 2000000 else symbol_rate in
  if symbol_rate >? 45000000 then 45000000 else symbol_rate.

Definition output_peak (pts : list blindscan_spectrum_point) (min_level : Z)
           (c : candidate) : blindscan_spectral_peak :=
  let peak_idx := idx c in
  let peak_level := level c in
  let edge_level := wrap_s32 (peak_level - 600) in
  let left_idx := find_left pts edge_level peak_idx peak_idx in
  let right_idx := find_right pts edge_level (length pts - peak_idx) peak_idx peak_idx in
  let bandwidth_khz := wrap_u32 (freq_at pts right_idx - freq_at pts left_idx) in
  let center_freq := c_div (wrap_u32 (freq_at pts left_idx + freq_at pts right_idx)) 2 in
  mk_spectral_peak center_freq
                   (symbol_rate_of_bandwidth bandwidth_khz)
                   (wrap_s32 (peak_level - min_level))
                   peak_level.

Definition peak_threshold_of (pts : list blindscan_spectrum_point) (threshold_db : Z) : Z :=
  wrap_s32 (fst (min_max_level pts) + threshold_db).

(** The candidates of step 2 and the kept peaks of step 3, under the
    guard [sd->num_points < 100] of the detector. *)
Definition detect_candidates (sd : blindscan_spectrum_data) (threshold_db : Z)
  : list candidate :=
  if (length (points sd) <? 100)%nat then []
  else find_candidates (points sd) (peak_threshold_of (points sd) threshold_db).

Definition detect_kept (sd : blindscan_spectrum_data) (threshold_db : Z)
  : list candidate :=
  valley_merge (points sd) (detect_candidates sd threshold_db).

(** [blindscan_detect_peaks(sd, out_peaks, max_peaks, threshold_db)]; the
    result is the filled prefix of [out_peaks]. *)
Definition blindscan_detect_peaks (sd : blindscan_spectrum_data)
           (max_peaks threshold_db : Z) : list blindscan_spectral_peak :=
  let pts := points sd in
  if (length pts <? 100)%nat then []
  else
    let min_level := fst (min_max_level pts) in
    let peak_threshold := wrap_s32 (min_level + threshold_db) in
    match find_candidates pts peak_threshold with
    | [] => []
    | c0 :: rest =>
        let merged := merge_loop pts [] c0 rest in
        map (output_peak pts min_level) (firstn (Z.to_nat max_peaks) merged)
    end.

End Detect.

(** ** De-duplication of driver candidates (worker, after acquisition) *)

Module Dedup.

Definition dedupe_thresh : Z := 2000.

(** [diff]: the larger frequency minus the smaller one. *)
Definition freq_diff (a b : blindscan_spectral_peak) : Z :=
  if pk_frequency a >? pk_frequency b
  then pk_frequency a - pk_frequency b
  else pk_frequency b - pk_frequency a.

(** The inner loop over [deduped_peaks]: at the first entry closer than
    the threshold the stronger of the two is stored in that slot and the
    loop breaks.  [None] when no entry is that close. *)
Fixpoint dedup_scan (p : blindscan_spectral_peak) (deduped : list blindscan_spectral_peak)
  : option (list blindscan_spectral_peak) :=
  match deduped with
  | [] => None
  | d :: ds =>
      if freq_diff p d <? dedupe_thresh
      then Some ((if pk_level p >? pk_level d then p else d) :: ds)
      else option_map (cons d) (dedup_scan p ds)
  end.

Definition dedup_step (deduped : list blindscan_spectral_peak) (p : blindscan_spectral_peak)
  : list blindscan_spectral_peak :=
  match dedup_scan p deduped with
  | Some deduped' => deduped'
  | None => if (length deduped <? 512)%nat then deduped ++ [p] else deduped
  end.

Definition dedup_loop (driver_peaks : list blindscan_spectral_peak)
  : list blindscan_spectral_peak :=
  fold_left dedup_step driver_peaks [].

(** The whole block: it runs for more than one candidate and copies the
    result back when it is shorter. *)
Definition dedupe_driver_peaks (driver_peaks : list blindscan_spectral_peak)
  : list blindscan_spectral_peak :=
  if (1 <? length driver_peaks)%nat
  then let deduped := dedup_loop driver_peaks in
       if (length deduped <? length driver_peaks)%nat then deduped else driver_peaks
  else driver_peaks.

End Dedup.

(** ** Session data *)

Inductive blindscan_peak_status_t : Type :=
| BLINDSCAN_PEAK_PENDING
| BLINDSCAN_PEAK_SCANNING
| BLINDSCAN_PEAK_LOCKED
| BLINDSCAN_PEAK_FAILED
| BLINDSCAN_PEAK_SKIPPED.

Inductive blindscan_state_t : Type :=
| BLINDSCAN_STATE_IDLE
| BLINDSCAN_STATE_ACQUIRING
| BLINDSCAN_STATE_SCANNING
| BLINDSCAN_STATE_COMPLETE
| BLINDSCAN_STATE_CANCELLED
| BLINDSCAN_STATE_ERROR.

(** Polarisation codes of the host's DVB support ([dvb_polarisation_t]);
    [-1] in [bs_polarisation] selects both. *)
Definition DVB_POLARISATION_HORIZONTAL : Z := 0.
Definition DVB_POLARISATION_VERTICAL : Z := 1.

(** [blindscan_peak_t], without the list link, the SI fields and the mux
    back-reference. *)
Record blindscan_peak : Type := mk_peak {
  bp_frequency : Z;
  bp_symbol_rate : Z;
  bp_polarisation : Z;
  bp_level : Z;
  bp_snr : Z;
  bp_status : blindscan_peak_status_t;
  bp_actual_freq : Z;
  bp_actual_sr : Z;
  bp_delsys : Z;
  bp_modulation : Z;
  bp_fec : Z;
  bp_stream_id : Z;
  bp_pls_mode : Z;
  bp_pls_code : Z;
  bp_rolloff : Z;
  bp_pilot : Z;
  bp_verified_freq : Z;
  bp_verified_sr : Z
}.

Definition set_bp_status (st : blindscan_peak_status_t) (p : blindscan_peak) : blindscan_peak :=
  mk_peak (bp_frequency p) (bp_symbol_rate p) (bp_polarisation p) (bp_level p) (bp_snr p)
          st (bp_actual_freq p) (bp_actual_sr p) (bp_delsys p) (bp_modulation p) (bp_fec p)
          (bp_stream_id p) (bp_pls_mode p) (bp_pls_code p) (bp_rolloff p) (bp_pilot p)
          (bp_verified_freq p) (bp_verified_sr p).

(** The tuning record of an existing mux, as far as the scan reads it. *)
Inductive dvb_rolloff : Type :=
| DVB_ROLLOFF_NONE | DVB_ROLLOFF_AUTO
| DVB_ROLLOFF_20 | DVB_ROLLOFF_25 | DVB_ROLLOFF_35
| DVB_ROLLOFF_15 | DVB_ROLLOFF_10 | DVB_ROLLOFF_5.

Inductive mm_scan_result_t : Type :=
| MM_SCAN_NONE | MM_SCAN_OK | MM_SCAN_FAIL | MM_SCAN_PARTIAL | MM_SCAN_IGNORE.

Record dvb_mux : Type := mk_mux {
  dmc_fe_freq : Z;
  dmc_symbol_rate : Z;
  dmc_polarisation : Z;
  dmc_fe_rolloff : dvb_rolloff;
  mm_scan_result : mm_scan_result_t
}.

(** ** Prescan: the blind-tune request and the decoding of the read-back *)

Module Prescan.

(** [abs((int)a - (int)b)] on two [uint32_t]. *)
Definition abs_int_diff (a b : Z) : Z :=
  Z.abs (wrap_s32 (wrap_s32 a - wrap_s32 b)).

Definition pol_is_h (pol : Z) : bool := (pol =? 72) || (pol =? 104).
Definition pol_is_v (pol : Z) : bool := (pol =? 86) || (pol =? 118).

(** The search for the matching peak and its symbol-rate estimate; [pol]
    is the character code. *)
Fixpoint find_matching_peak (peaks : list blindscan_peak) (frequency pol : Z)
  : option blindscan_peak :=
  match peaks with
  | [] => None
  | peak :: rest =>
      if (abs_int_diff (bp_frequency peak) frequency <? 2000)
         && (if pol_is_h pol
             then bp_polarisation peak =? DVB_POLARISATION_HORIZONTAL
             else bp_polarisation peak =? DVB_POLARISATION_VERTICAL)
      then Some peak
      else find_matching_peak rest frequency pol
  end.

Definition est_symbol_rate (peaks : list blindscan_peak) (frequency pol : Z) : Z :=
  match find_matching_peak peaks frequency pol with
  | Some peak => if bp_symbol_rate peak >? 0 then bp_symbol_rate peak else 22000000
  | None => 22000000
  end.

(** [uint32_t search_range = (est_symbol_rate > 8000000) ? est_symbol_rate / 2 : 8000000]. *)
Definition search_range (est_symbol_rate : Z) : Z :=
  if est_symbol_rate >? 8000000 then c_div est_symbol_rate 2 else 8000000.

Inductive dtv_cmd : Type :=
| DTV_CLEAR | DTV_ALGORITHM | DTV_DELIVERY_SYSTEM | DTV_SEARCH_RANGE
| DTV_SYMBOL_RATE | DTV_FREQUENCY | DTV_STREAM_ID | DTV_PLS_SEARCH_LIST | DTV_TUNE.

(** Property payloads; the driver constants [ALGORITHM_BLIND] and
    [SYS_AUTO] are kept symbolic. *)
Inductive dtv_value : Type :=
| Data (d : Z)
| ALGORITHM_BLIND
| SYS_AUTO
| PlsCodes (codes : list Z).

Definition pls_codes : list Z :=
  [ Z.lor (Z.shiftl 0 26) (Z.shiftl 0 8);
    Z.lor (Z.shiftl 0 26) (Z.shiftl 1 8);
    Z.lor (Z.shiftl 0 26) (Z.shiftl 8 8);
    Z.lor (Z.shiftl 0 26) (Z.shiftl 16416 8);
    Z.lor (Z.shiftl 1 26) (Z.shiftl 0 8);
    Z.lor (Z.shiftl 1 26) (Z.shiftl 8192 8) ].

(** The property sequence of the second [FE_SET_PROPERTY] (the first one
    carries [DTV_CLEAR] alone). *)
Definition tune_props (est_sr driver_freq : Z) : list (dtv_cmd * dtv_value) :=
  [ (DTV_ALGORITHM, ALGORITHM_BLIND);
    (DTV_DELIVERY_SYSTEM, SYS_AUTO);
    (DTV_SEARCH_RANGE, Data (search_range est_sr)) ]
  ++ (if est_sr >? 0 then [ (DTV_SYMBOL_RATE, Data est_sr) ] else [])
  ++ [ (DTV_FREQUENCY, Data (wrap_u32 driver_freq));
       (DTV_STREAM_ID, Data (wrap_u32 (-1)));
       (DTV_PLS_SEARCH_LIST, PlsCodes pls_codes);
       (DTV_TUNE, Data 0) ].

(** The frequency handed to the driver: the SCR frequency of the
    Unicable gateway ([le_frequency], MHz) when there is one, else the
    LNB intermediate frequency. *)
Definition prescan_driver_freq (lse_en50494 : option Z) (frequency : Z) : Z :=
  let b := blindscan_band_for_freq frequency in
  let lof := if b =? 0 then BLINDSCAN_LNB_LOF_LOW else BLINDSCAN_LNB_LOF_HIGH in
  match lse_en50494 with
  | Some le_frequency => wrap_s32 (wrap_u32 (le_frequency * 1000))
  | None => wrap_s32 (wrap_u32 (frequency - lof))
  end.

(** The request submitted by [linuxdvb_blindscan_prescan] on the
    session's peak list, when the LNB or the gateway accepted their
    commands. *)
Definition prescan_tune_props (peaks : list blindscan_peak) (lse_en50494 : option Z)
           (frequency pol : Z) : list (dtv_cmd * dtv_value) :=
  tune_props (est_symbol_rate peaks frequency pol)
             (prescan_driver_freq lse_en50494 frequency).

Fixpoint lookup_prop (c : dtv_cmd) (props : list (dtv_cmd * dtv_value)) : option dtv_value :=
  match props with
  | [] => None
  | (c', v) :: rest =>
      if match c, c' with
         | DTV_CLEAR, DTV_CLEAR | DTV_ALGORITHM, DTV_ALGORITHM
         | DTV_DELIVERY_SYSTEM, DTV_DELIVERY_SYSTEM | DTV_SEARCH_RANGE, DTV_SEARCH_RANGE
         | DTV_SYMBOL_RATE, DTV_SYMBOL_RATE | DTV_FREQUENCY, DTV_FREQUENCY
         | DTV_STREAM_ID, DTV_STREAM_ID | DTV_PLS_SEARCH_LIST, DTV_PLS_SEARCH_LIST
         | DTV_TUNE, DTV_TUNE => true
         | _, _ => false
         end
      then Some v else lookup_prop c rest
  end.

(** Driver ISI encoding: 511 is "no filter", 256..510 is ISI 0..254.
    [raw] is the [uint32_t] read back, stored into an [int32_t]. *)
Definition decode_stream_id (raw : Z) : Z :=
  let stream_id := wrap_s32 raw in
  if stream_id =? 511 then -1
  else if (stream_id >=? 256) && (stream_id <? 511) then stream_id - 256
  else stream_id.

Record matype_info : Type := mk_matype_info {
  mi_pls_mode : Z;
  mi_pls_code : Z;
  mi_is_gse : bool
}.

(** The MATYPE block.  [have_DTV_MATYPE] tells whether the driver headers
    define [DTV_MATYPE]; without it the three values are 0. *)
Definition decode_matype (have_DTV_MATYPE : bool) (stream_id matype : Z) : matype_info :=
  if have_DTV_MATYPE then
    let pls_mode := Z.land (Z.shiftr matype 26) 3 in
    let pls_code := Z.land (Z.shiftr matype 8) 262143 in
    let matype_byte := Z.land matype 255 in
    let ts_gs := Z.land (Z.shiftr matype_byte 6) 3 in
    mk_matype_info pls_mode pls_code
                   ((stream_id >=? 0) && negb (matype =? 0) && negb (ts_gs =? 3))
  else mk_matype_info 0 0 false.

(** What a locked prescan reports for the raw stream id and MATYPE. *)
Definition prescan_decode (have_DTV_MATYPE : bool) (raw_stream_id matype : Z)
  : Z * matype_info :=
  let stream_id := decode_stream_id raw_stream_id in
  (stream_id, decode_matype have_DTV_MATYPE stream_id matype).

End Prescan.

(** ** The session and its worker *)

(** The status message, the timing fields and the final notification of
    the worker are left out; allocations succeed. *)

Module Worker.

(** [blindscan_session_t] as far as the worker and the reports use it.
    [progress_log] and [insert_log] are history variables of the model:
    every value written to [bs_progress] with the state at that moment,
    and every peak inserted, both in the order of time. *)
Record blindscan_session : Type := mk_session {
  bs_start_freq : Z;
  bs_end_freq : Z;
  bs_polarisation : Z;
  bs_peak_detect : Z;
  bs_state : blindscan_state_t;
  bs_progress : Z;
  bs_spectrum_h_low : option blindscan_spectrum_data;
  bs_spectrum_h_high : option blindscan_spectrum_data;
  bs_spectrum_v_low : option blindscan_spectrum_data;
  bs_spectrum_v_high : option blindscan_spectrum_data;
  bs_peaks : list blindscan_peak;
  bs_peak_count : Z;
  progress_log : list (blindscan_state_t * Z);
  insert_log : list blindscan_peak
}.

Definition write_state (st : blindscan_state_t) (bs : blindscan_session) : blindscan_session :=
  mk_session (bs_start_freq bs) (bs_end_freq bs) (bs_polarisation bs) (bs_peak_detect bs)
             st (bs_progress bs)
             (bs_spectrum_h_low bs) (bs_spectrum_h_high bs)
             (bs_spectrum_v_low bs) (bs_spectrum_v_high bs)
             (bs_peaks bs) (bs_peak_count bs) (progress_log bs) (insert_log bs).

Definition write_progress (v : Z) (bs : blindscan_session) : blindscan_session :=
  mk_session (bs_start_freq bs) (bs_end_freq bs) (bs_polarisation bs) (bs_peak_detect bs)
             (bs_state bs) v
             (bs_spectrum_h_low bs) (bs_spectrum_h_high bs)
             (bs_spectrum_v_low bs) (bs_spectrum_v_high bs)
             (bs_peaks bs) (bs_peak_count bs)
             (progress_log bs ++ [(bs_state bs, v)]) (insert_log bs).

Definition store_spectrum (pol_is_v : bool) (b : Z) (sd : blindscan_spectrum_data)
           (bs : blindscan_session) : blindscan_session :=
  mk_session (bs_start_freq bs) (bs_end_freq bs) (bs_polarisation bs) (bs_peak_detect bs)
             (bs_state bs) (bs_progress bs)
             (if negb pol_is_v && (b =? 0) then Some sd else bs_spectrum_h_low bs)
             (if negb pol_is_v && negb (b =? 0) then Some sd else bs_spectrum_h_high bs)
             (if pol_is_v && (b =? 0) then Some sd else bs_spectrum_v_low bs)
             (if pol_is_v && negb (b =? 0) then Some sd else bs_spectrum_v_high bs)
             (bs_peaks bs) (bs_peak_count bs) (progress_log bs) (insert_log bs).

(** [LIST_INSERT_HEAD(&bs->bs_peaks, peak, bp_link); bs->bs_peak_count++]. *)
Definition insert_peak (peak : blindscan_peak) (bs : blindscan_session) : blindscan_session :=
  mk_session (bs_start_freq bs) (bs_end_freq bs) (bs_polarisation bs) (bs_peak_detect bs)
             (bs_state bs) (bs_progress bs)
             (bs_spectrum_h_low bs) (bs_spectrum_h_high bs)
             (bs_spectrum_v_low bs) (bs_spectrum_v_high bs)
             (peak :: bs_peaks bs) (bs_peak_count bs + 1)
             (progress_log bs) (insert_log bs ++ [peak]).

Definition set_peaks (peaks : list blindscan_peak) (bs : blindscan_session) : blindscan_session :=
  mk_session (bs_start_freq bs) (bs_end_freq bs) (bs_polarisation bs) (bs_peak_detect bs)
             (bs_state bs) (bs_progress bs)
             (bs_spectrum_h_low bs) (bs_spectrum_h_high bs)
             (bs_spectrum_v_low bs) (bs_spectrum_v_high bs)
             peaks (bs_peak_count bs) (progress_log bs) (insert_log bs).

(** [linuxdvb_blindscan_start]: the session as the worker thread finds
    it.  [pol] is the character code, [peak_detect] the option value. *)
Definition linuxdvb_blindscan_start (start_freq end_freq pol peak_detect : Z)
  : blindscan_session :=
  mk_session start_freq end_freq
             (if Prescan.pol_is_h pol then DVB_POLARISATION_HORIZONTAL
              else if Prescan.pol_is_v pol then DVB_POLARISATION_VERTICAL
              else -1)
             peak_detect
             BLINDSCAN_STATE_ACQUIRING 0
             None None None None [] 0 [] [].

(** The frontend, the satellite configuration, the network and the
    driver as the worker sees them.  Every oracle takes the worker's clock
    (the number of earlier interactions), so that repeated calls may
    answer differently; [should_stop] is [bs_should_stop] as read at that
    time.  The satellite configuration element is present; [lse_en50494]
    is the gateway's [le_frequency] (MHz) for a Unicable setup. *)
Record environment : Type := mk_env {
  lfe_fe_fd : Z;
  lfe_neumo_supported : bool;
  lse_en50494 : option Z;
  mn_muxes : list dvb_mux;
  should_stop : nat -> bool;
  configure_lnb : nat -> Z -> bool -> bool;
  acquire_spectrum_neumo :
    nat -> Z -> bool -> option (blindscan_spectrum_data * list blindscan_spectral_peak);
  send_unicable_command : nat -> Z -> bool -> Z -> bool;
  acquire_unicable_slice :
    nat -> Z -> bool -> option (list blindscan_spectrum_point * list blindscan_spectral_peak)
}.

(** The worker's locals next to the session. *)
Record worker_state : Type := mk_worker {
  w_bs : blindscan_session;
  w_clock : nat;
  w_current_scan : Z
}.

Definition on_session (f : blindscan_session -> blindscan_session) (w : worker_state)
  : worker_state :=
  mk_worker (f (w_bs w)) (w_clock w) (w_current_scan w).

Definition tick (w : worker_state) : worker_state :=
  mk_worker (w_bs w) (S (w_clock w)) (w_current_scan w).

Definition poll_stop (env : environment) (w : worker_state) : bool * worker_state :=
  (should_stop env (w_clock w), tick w).

(** [blindscan_mux_half_bandwidth]. *)
Definition blindscan_mux_half_bandwidth (dm : dvb_mux) : Z :=
  let sr := dmc_symbol_rate dm in
  let rolloff_percent :=
    match dmc_fe_rolloff dm with
    | DVB_ROLLOFF_20 => 20
    | DVB_ROLLOFF_25 => 25
    | DVB_ROLLOFF_35 => 35
    | DVB_ROLLOFF_15 => 15
    | DVB_ROLLOFF_10 => 10
    | DVB_ROLLOFF_5 => 5
    | _ => 35
    end in
  c_div (wrap_u32 (c_div sr 1000 * (100 + rolloff_percent))) 200.

(** [blindscan_peak_find_overlapping_mux]. *)
Fixpoint blindscan_peak_find_overlapping_mux (peak : blindscan_peak) (muxes : list dvb_mux)
  : option dvb_mux :=
  match muxes with
  | [] => None
  | dm :: rest =>
      if negb (dmc_polarisation dm =? bp_polarisation peak)
      then blindscan_peak_find_overlapping_mux peak rest
      else
        let mux_freq := dmc_fe_freq dm in
        let half_bw := blindscan_mux_half_bandwidth dm in
        let mux_low := wrap_u32 (mux_freq - half_bw) in
        let mux_high := wrap_u32 (mux_freq + half_bw) in
        if (bp_frequency peak >=? mux_low) && (bp_frequency peak <=? mux_high)
        then Some dm
        else blindscan_peak_find_overlapping_mux peak rest
  end.

(** The peak built from a driver or detector candidate. *)
Definition new_peak (env : environment) (pol_is_v : bool) (dp : blindscan_spectral_peak)
  : blindscan_peak :=
  let peak :=
    mk_peak (pk_frequency dp) (pk_symbol_rate dp)
            (if pol_is_v then DVB_POLARISATION_VERTICAL else DVB_POLARISATION_HORIZONTAL)
            (pk_level dp) (pk_snr dp) BLINDSCAN_PEAK_PENDING
            0 0 0 0 0 (-1) 0 0 0 0 0 0 in
  match blindscan_peak_find_overlapping_mux peak (mn_muxes env) with
  | Some overlap_mux =>
      mk_peak (bp_frequency peak) (bp_symbol_rate peak) (bp_polarisation peak)
              (bp_level peak) (bp_snr peak) BLINDSCAN_PEAK_SKIPPED
              0 0 0 0 0 (-1) 0 0 0 0
              (dmc_fe_freq overlap_mux) (dmc_symbol_rate overlap_mux)
  | None => peak
  end.

(** "Add peaks to session". *)
Definition add_peaks (env : environment) (pol_is_v : bool)
           (driver_peaks : list blindscan_spectral_peak) (bs : blindscan_session)
  : blindscan_session :=
  fold_left (fun bs dp => insert_peak (new_peak env pol_is_v dp) bs) driver_peaks bs.

(** The choice between driver candidates and the software detector. *)
Definition select_peaks (peak_detect : Z) (sd : blindscan_spectrum_data)
           (driver_peaks : list blindscan_spectral_peak) : list blindscan_spectral_peak :=
  if peak_detect =? 2
  then if (100 <? length (points sd))%nat
       then Detect.blindscan_detect_peaks sd 512 1000
       else driver_peaks
  else if (peak_detect =? 0) && (length driver_peaks =? 0)%nat
          && (100 <? length (points sd))%nat
       then Detect.blindscan_detect_peaks sd 512 1000
       else driver_peaks.

(** Progress values.  All operands are small non-negative [int]s. *)
Definition slot_progress (current_scan total_scans : Z) : Z :=
  c_div (current_scan * 50) total_scans.

Definition slice_progress (current_scan total_scans step total_steps : Z) : Z :=
  c_div ((current_scan - 1) * 50) total_scans
  + c_div (c_div ((step + 1) * 50) total_steps) total_scans.

Definition step_size : Z := 50000.

Definition slice_center (band_start band_end step : Z) : Z :=
  let center_freq :=
    wrap_u32 (band_start + wrap_u32 (step * step_size) + c_div step_size 2) in
  if center_freq >? band_end
  then wrap_u32 (band_end - c_div step_size 2)
  else center_freq.

(** The Unicable slice loop of one slot; [pts] is the combined spectrum
    and [driver_peaks] the candidates gathered so far. *)
Fixpoint slice_loop (env : environment) (pol_is_v : bool) (b : Z)
         (band_start band_end total_steps total_scans : Z) (steps : list nat)
         (w : worker_state) (pts : list blindscan_spectrum_point)
         (driver_peaks : list blindscan_spectral_peak)
  : worker_state * list blindscan_spectrum_point * list blindscan_spectral_peak :=
  match steps with
  | [] => (w, pts, driver_peaks)
  | step :: steps' =>
      let (stop, w) := poll_stop env w in
      if stop then (w, pts, driver_peaks)
      else
        let center_freq := slice_center band_start band_end (Z.of_nat step) in
        let w := on_session
                   (write_progress
                      (slice_progress (w_current_scan w) total_scans
                                      (Z.of_nat step) total_steps)) w in
        let ok := send_unicable_command env (w_clock w) center_freq pol_is_v b in
        let w := tick w in
        if negb ok
        then slice_loop env pol_is_v b band_start band_end total_steps total_scans
                        steps' w pts driver_peaks
        else
          let slice := acquire_unicable_slice env (w_clock w) center_freq pol_is_v in
          let w := tick w in
          match slice with
          | None =>
              slice_loop env pol_is_v b band_start band_end total_steps total_scans
                         steps' w pts driver_peaks
          | Some (slice_points, slice_peaks) =>
              slice_loop env pol_is_v b band_start band_end total_steps total_scans
                         steps' w (pts ++ slice_points)
                         (driver_peaks
                            ++ firstn (512 - length driver_peaks) slice_peaks)
          end
  end.

Definition unicable_total_steps (band_start band_end : Z) : Z :=
  let range := wrap_u32 (band_end - band_start) in
  wrap_s32 (c_div (wrap_u32 (range + step_size - 1)) step_size).

(** Acquisition of one slot: the spectrum (if any) and the driver
    candidates. *)
Definition acquire_slot (env : environment) (total_scans : Z) (pol_is_v : bool) (b : Z)
           (w : worker_state)
  : worker_state * option blindscan_spectrum_data * list blindscan_spectral_peak :=
  match lse_en50494 env with
  | Some _ =>
      let band_start :=
        if negb (b =? 0) && (bs_start_freq (w_bs w) <? BLINDSCAN_LNB_SLOF)
        then BLINDSCAN_LNB_SLOF else bs_start_freq (w_bs w) in
      let band_end :=
        if (b =? 0) && (bs_end_freq (w_bs w) >? BLINDSCAN_LNB_SLOF)
        then BLINDSCAN_LNB_SLOF else bs_end_freq (w_bs w) in
      let total_steps := unicable_total_steps band_start band_end in
      let '(w, pts, driver_peaks) :=
        slice_loop env pol_is_v b band_start band_end total_steps total_scans
                   (seq 0 (Z.to_nat total_steps)) w [] [] in
      (w, Some (mk_spectrum pts b pol_is_v), driver_peaks)
  | None =>
      let ok := configure_lnb env (w_clock w) b pol_is_v in
      let w := tick w in
      if negb ok then (w, None, [])
      else
        let r := acquire_spectrum_neumo env (w_clock w) b pol_is_v in
        let w := tick w in
        match r with
        | None => (w, None, [])
        | Some (sd, peaks) => (w, Some sd, firstn 512 peaks)
        end
  end.

(** The body of the (polarisation, band) loop. *)
Definition scan_slot (env : environment) (total_scans : Z) (pol_is_v : bool) (b : Z)
           (w : worker_state) : worker_state :=
  let w := mk_worker (w_bs w) (w_clock w) (w_current_scan w + 1) in
  let w := on_session (write_progress (slot_progress (w_current_scan w) total_scans)) w in
  let w := on_session (write_state BLINDSCAN_STATE_ACQUIRING) w in
  let '(w, sd, driver_peaks) := acquire_slot env total_scans pol_is_v b w in
  match sd with
  | None => w
  | Some sd =>
      let w := on_session (store_spectrum pol_is_v b sd) w in
      let driver_peaks := Dedup.dedupe_driver_peaks driver_peaks in
      let driver_peaks := select_peaks (bs_peak_detect (w_bs w)) sd driver_peaks in
      on_session (add_peaks env pol_is_v driver_peaks) w
  end.

Fixpoint band_loop (env : environment) (total_scans : Z) (pol_is_v : bool)
         (bands : list Z) (w : worker_state) : worker_state :=
  match bands with
  | [] => w
  | b :: bands' =>
      let (stop, w) := poll_stop env w in
      if stop then w
      else band_loop env total_scans pol_is_v bands' (scan_slot env total_scans pol_is_v b w)
  end.

Fixpoint pol_loop (env : environment) (total_scans : Z) (pols : list bool)
         (bands : list Z) (w : worker_state) : worker_state :=
  match pols with
  | [] => w
  | pol_is_v :: pols' =>
      let (stop, w) := poll_stop env w in
      if stop then w
      else pol_loop env total_scans pols' bands (band_loop env total_scans pol_is_v bands w)
  end.

(** The scan plan. *)
Definition pol_list (bs : blindscan_session) : list bool :=
  (if (bs_polarisation bs =? -1) || (bs_polarisation bs =? DVB_POLARISATION_HORIZONTAL)
   then [false] else [])
  ++ (if (bs_polarisation bs =? -1) || (bs_polarisation bs =? DVB_POLARISATION_VERTICAL)
      then [true] else []).

Definition band_list (bs : blindscan_session) : list Z :=
  (if bs_start_freq bs <? BLINDSCAN_LNB_SLOF then [0] else [])
  ++ (if bs_end_freq bs >? BLINDSCAN_LNB_SLOF then [1] else []).

(** The (polarisation, band) slots, in the order of the two loops. *)
Definition scan_slots (bs : blindscan_session) : list (bool * Z) :=
  flat_map (fun p => map (pair p) (band_list bs)) (pol_list bs).

(** [blindscan_worker], up to the label [done]. *)
Definition blindscan_worker (env : environment) (bs : blindscan_session)
  : blindscan_session :=
  if lfe_fe_fd env <=? 0 then write_state BLINDSCAN_STATE_ERROR bs
  else if negb (lfe_neumo_supported env) then write_state BLINDSCAN_STATE_ERROR bs
  else
    let total_scans := Z.of_nat (length (pol_list bs)) * Z.of_nat (length (band_list bs)) in
    let w := pol_loop env total_scans (pol_list bs) (band_list bs) (mk_worker bs 0 0) in
    let (stop, w) := poll_stop env w in
    if stop then write_state BLINDSCAN_STATE_CANCELLED (w_bs w)
    else write_progress 100 (write_state BLINDSCAN_STATE_COMPLETE (w_bs w)).

End Worker.

(** ** The peaks report, [linuxdvb_blindscan_peaks] *)

Module Report.

Import Worker.

Inductive status_str : Type :=
| Str_pending | Str_retry | Str_scanning | Str_locked | Str_failed | Str_existing.

(** One map of the [peaks] list.  The tuning fields of a locked peak are
    reported as the peak holds them. *)
Record peak_report : Type := mk_report {
  r_frequency : Z;
  r_symbol_rate : Z;
  r_level : Z;
  r_snr : Z;
  r_polarisation_is_v : bool;
  r_status : status_str;
  r_existing : bool;
  r_has_failed_mux : bool;
  r_verified : option (Z * Z);
  r_locked : option blindscan_peak
}.

(** The loop over the muxes of the network for a pending peak:
    [(found_ok, found_fail)]. *)
Definition mux_match_step (peak : blindscan_peak) (acc : bool * bool) (dm : dvb_mux)
  : bool * bool :=
  let (found_ok, found_fail) := acc in
  let mux_sr := dmc_symbol_rate dm in
  let max_offset := if mux_sr >? 0 then c_div mux_sr 2000 else 3000 in
  let max_offset := if max_offset <? 1000 then 1000 else max_offset in
  if (Prescan.abs_int_diff (dmc_fe_freq dm) (bp_frequency peak) <? wrap_s32 max_offset)
     && (dmc_polarisation dm =? bp_polarisation peak)
  then match mm_scan_result dm with
       | MM_SCAN_OK => (true, found_fail)
       | _ => (found_ok, true)
       end
  else (found_ok, found_fail).

Definition is_pending (p : blindscan_peak) : bool :=
  match bp_status p with BLINDSCAN_PEAK_PENDING => true | _ => false end.

(** The body of the report loop: the map for one peak and the peak as
    the loop leaves it. *)
Definition report_peak (muxes : list dvb_mux) (peak : blindscan_peak)
  : peak_report * blindscan_peak :=
  let (found_ok, found_fail) :=
    if is_pending peak
    then fold_left (mux_match_step peak) muxes (false, false)
    else (false, false) in
  let existing := found_ok in
  let existing_failed := negb found_ok && found_fail in
  let peak' := if found_ok then set_bp_status BLINDSCAN_PEAK_SKIPPED peak else peak in
  let status :=
    match bp_status peak' with
    | BLINDSCAN_PEAK_PENDING => if existing_failed then Str_retry else Str_pending
    | BLINDSCAN_PEAK_SCANNING => Str_scanning
    | BLINDSCAN_PEAK_LOCKED => Str_locked
    | BLINDSCAN_PEAK_FAILED => Str_failed
    | BLINDSCAN_PEAK_SKIPPED => Str_existing
    end in
  (mk_report (bp_frequency peak') (bp_symbol_rate peak') (bp_level peak') (bp_snr peak')
             (bp_polarisation peak' =? DVB_POLARISATION_VERTICAL)
             status existing existing_failed
             (if bp_verified_freq peak' >? 0
              then Some (bp_verified_freq peak', bp_verified_sr peak') else None)
             (match bp_status peak' with
              | BLINDSCAN_PEAK_LOCKED => Some peak'
              | _ => None
              end),
   peak').

(** [htsmsg_add_msg(list, NULL, msg)] appends the message to the list. *)
Definition htsmsg_add_msg {A : Type} (l : list A) (msg : A) : list A := l ++ [msg].

(** [LIST_FOREACH(peak, &bs->bs_peaks, bp_link)]: from the head of the
    list on. *)
Definition report_loop (muxes : list dvb_mux) (peaks : list blindscan_peak)
  : list peak_report * list blindscan_peak :=
  fold_left (fun acc peak =>
               let (r, peak') := report_peak muxes peak in
               (htsmsg_add_msg (fst acc) r, snd acc ++ [peak']))
            peaks ([], []).

(** The [peaks] list of the answer, its [count] and the session after
    the call. *)
Definition linuxdvb_blindscan_peaks (env : environment) (bs : blindscan_session)
  : list peak_report * Z * blindscan_session :=
  let (msgs, peaks') := report_loop (mn_muxes env) (bs_peaks bs) in
  (msgs, bs_peak_count bs, set_peaks peaks' bs).

End Report.

(** ** Test environments *)

Module Scenario.

Import Worker.

(** A direct (non-Unicable) frontend whose driver answers every
    acquisition with the given spectrum and candidates. *)
Definition direct_env (sd : blindscan_spectrum_data)
           (cands : list blindscan_spectral_peak) : environment :=
  mk_env 7 true None []
         (fun _ => false)
         (fun _ _ _ => true)
         (fun _ _ _ => Some (sd, cands))
         (fun _ _ _ _ => false)
         (fun _ _ _ => None).

(** A Unicable frontend (SCR at 1210 MHz) whose slices return nothing. *)
Definition unicable_env : environment :=
  mk_env 7 true (Some 1210) []
         (fun _ => false)
         (fun _ _ _ => true)
         (fun _ _ _ => None)
         (fun _ _ _ _ => true)
         (fun _ _ _ => None).

(** A synthetic buffer: [n] samples 100 kHz apart from 10 700 MHz, at the
    noise level -7000 except inside the listed index ranges, at -4000. *)
Definition bump_spectrum (n : nat) (bumps : list (nat * nat)) : blindscan_spectrum_data :=
  mk_spectrum
    (map (fun i =>
            mk_point (10700000 + 100 * Z.of_nat i)
                     (if existsb (fun b => (fst b <=? i)%nat && (i <=? snd b)%nat) bumps
                      then -4000 else -7000))
         (seq 0 n))
    0 false.

(** Fifty samples of noise: too short for the software detector. *)
Definition quiet_spectrum : blindscan_spectrum_data := bump_spectrum 50 [].

(** One carrier 1.5 MHz wide at the -6 dB points. *)
Definition narrow_carrier : blindscan_spectrum_data := bump_spectrum 200 [(43, 56)%nat].

(** Two carriers separated by noise. *)
Definition two_carriers : blindscan_spectrum_data :=
  bump_spectrum 200 [(40, 45)%nat; (120, 125)%nat].

(** A carrier inside the first ten samples of the buffer. *)
Definition edge_carrier : blindscan_spectrum_data := bump_spectrum 200 [(2, 6)%nat].

(** Driver candidates of three overlapping slices. *)
Definition drifting_candidates : list blindscan_spectral_peak :=
  [ mk_spectral_peak 11010000 27500000 1500 (-4000);
    mk_spectral_peak 11013000 27500000 1500 (-4000);
    mk_spectral_peak 11011900 27500000 1600 (-3000) ].

(** The candidates of scenario 3 of the design notes. *)
Definition slice_candidates : list blindscan_spectral_peak :=
  [ mk_spectral_peak 11012000 0 0 (-4000);
    mk_spectral_peak 11012500 0 0 (-3900);
    mk_spectral_peak 11013800 0 0 (-4100) ].

Definition one_candidate : list blindscan_spectral_peak :=
  [ mk_spectral_peak 10700000 27500000 1200 (-4000) ].

Definition two_candidates : list blindscan_spectral_peak :=
  [ mk_spectral_peak 11000000 27500000 1200 (-4000);
    mk_spectral_peak 11500000 22000000 1100 (-4100) ].

(** A pending peak with a 10 Msym/s estimate. *)
Definition peak_10M : blindscan_peak :=
  mk_peak 11012000 10000000 DVB_POLARISATION_HORIZONTAL (-4000) 1500
          BLINDSCAN_PEAK_PENDING 0 0 0 0 0 (-1) 0 0 0 0 0 0.

End Scenario.

(** ** Predicates of the statements *)

(** Candidates in strictly increasing sample order, as the sweep emits
    them. *)
Definition idx_lt (a b : candidate) : Prop := (idx a < idx b)%nat.

Definition ascending (cands : list candidate) : Prop := StronglySorted idx_lt cands.

(** Levels for which no [int32_t] difference of two levels overflows.
    The acquirers store a tenth of an [int32_t], which is in this range. *)
Definition level_bounded (z : Z) : Prop := -1073741824 <= z < 1073741824.

Definition levels_in_s32 (pts : list blindscan_spectrum_point) : Prop :=
  Forall (fun p => in_s32 (pt_level p)) pts.

Definition levels_bounded (pts : list blindscan_spectrum_point) : Prop :=
  Forall (fun p => level_bounded (pt_level p)) pts.

Definition cands_bounded (cands : list candidate) : Prop :=
  Forall (fun c => level_bounded (level c)) cands.

(** What the sweep guarantees of a candidate: its window lies inside the
    buffer and its level is the level of its sample. *)
Definition cand_ok (pts : list blindscan_spectrum_point) (c : candidate) : Prop :=
  (Detect.half_win <= idx c)%nat /\
  (idx c + Detect.half_win < length pts)%nat /\
  level c = Detect.level_at pts (idx c).

(** A sample strictly between [a] and [b] lies at least the valley depth
    below the weaker of the two. *)
Definition valley_between (pts : list blindscan_spectrum_point) (a b : candidate) : Prop :=
  exists j : nat,
    (idx a < j < idx b)%nat /\
    Detect.level_at pts j <= Z.min (level a) (level b) - Detect.min_valley_depth.

(** Every two neighbours of the list are separated by such a valley. *)
Fixpoint separated (pts : list blindscan_spectrum_point) (l : list candidate) : Prop :=
  match l with
  | a :: ((b :: _) as tl) => valley_between pts a b /\ separated pts tl
  | _ => True
  end.

(** The progress values written while the session was acquiring or
    scanning, in the order of time. *)
Definition active_progress (log : list (blindscan_state_t * Z)) : list Z :=
  map snd
      (filter (fun e => match fst e with
                        | BLINDSCAN_STATE_ACQUIRING | BLINDSCAN_STATE_SCANNING => true
                        | _ => false
                        end) log).

(** The peak list is the insertion log, latest first. *)
Definition peaks_latest_first (bs : Worker.blindscan_session) : Prop :=
  Worker.bs_peaks bs = rev (Worker.insert_log bs).

(** The progress value and every value ever written lie in 0..100. *)
Definition progress_ok (bs : Worker.blindscan_session) : Prop :=
  0 <= Worker.bs_progress bs <= 100 /\
  Forall (fun e => 0 <= snd e <= 100) (Worker.progress_log bs).

(** Successive values of a log never decrease. *)
Fixpoint non_decreasing (l : list Z) : Prop :=
  match l with
  | a :: ((b :: _) as tl) => a <= b /\ non_decreasing tl
  | _ => True
  end.

(** The written values never decrease and stay under [v]. *)
Definition progress_sorted_below (v : Z) (bs : Worker.blindscan_session) : Prop :=
  non_decreasing (map snd (Worker.progress_log bs)) /\
  Forall (fun e => snd e <= v) (Worker.progress_log bs).

(** ** The acquirers: scan range and conversion of the driver's reply *)

Module Acquire.

(** [struct neumo_spectral_peak], four [int32_t]. *)
Record neumo_spectral_peak : Type := mk_neumo_peak {
  np_freq : Z;
  np_symbol_rate : Z;
  np_snr : Z;
  np_level : Z
}.

(** [spectrum_req] as read back after [FE_GET_PROPERTY]: the three
    buffers with the driver's counts ([freq] holds [uint32_t], [rf_level]
    [int32_t]). *)
Record spectrum_req : Type := mk_req {
  freq : list Z;
  rf_level : list Z;
  candidates : list neumo_spectral_peak;
  num_freq : nat;
  num_candidates : nat
}.

Definition freq_buffer (req : spectrum_req) (j : nat) : Z := nth j (freq req) 0.
Definition level_buffer (req : spectrum_req) (j : nat) : Z := nth j (rf_level req) 0.
Definition candidates_buffer (req : spectrum_req) (j : nat) : neumo_spectral_peak :=
  nth j (candidates req) (mk_neumo_peak 0 0 0 0).

(** [blindscan_spectrum_alloc] and [blindscan_spectrum_add_point]; the
    allocation itself is the host's. *)
Definition blindscan_spectrum_alloc (b : Z) (pol_is_v : bool) : blindscan_spectrum_data :=
  mk_spectrum [] b pol_is_v.

Definition blindscan_spectrum_add_point (sd : blindscan_spectrum_data) (f l : Z)
  : blindscan_spectrum_data :=
  mk_spectrum (points sd ++ [mk_point f l]) (band sd) (polarisation_is_v sd).

(** The driver range of [blindscan_acquire_spectrum_neumo]: the session
    range clipped to the band, converted, and put in order. *)
Definition neumo_scan_range (bs_start_freq bs_end_freq b : Z) : Z * Z :=
  let end_freq :=
    if (b =? 0) && (bs_end_freq >? BLINDSCAN_LNB_SLOF)
    then BLINDSCAN_LNB_SLOF else bs_end_freq in
  let start_freq :=
    if negb (b =? 0) && (bs_start_freq <? BLINDSCAN_LNB_SLOF)
    then BLINDSCAN_LNB_SLOF else bs_start_freq in
  let start_driver := blindscan_driver_freq start_freq b in
  let end_driver := blindscan_driver_freq end_freq b in
  if start_driver >? end_driver
  then (end_driver, start_driver)
  else (start_driver, end_driver).

(** The conversion loop of the direct acquirer. *)
Definition neumo_points (req : spectrum_req) (b : Z) (pol_is_v : bool)
  : blindscan_spectrum_data :=
  fold_left
    (fun sd j =>
       let tp_freq := blindscan_transponder_freq (wrap_s32 (freq_buffer req j)) b in
       blindscan_spectrum_add_point sd tp_freq (c_div (level_buffer req j) 10))
    (seq 0 (num_freq req))
    (blindscan_spectrum_alloc b pol_is_v).

(** Its candidate copy: [j < num_candidates && j < (uint32_t)max_peaks]. *)
Definition neumo_peaks (req : spectrum_req) (b : Z) (max_peaks : Z)
  : list blindscan_spectral_peak :=
  map (fun j =>
         let c := candidates_buffer req j in
         mk_spectral_peak (blindscan_transponder_freq (np_freq c) b)
                          (wrap_u32 (np_symbol_rate c))
                          (c_div (np_snr c) 10)
                          (c_div (np_level c) 10))
      (seq 0 (Nat.min (num_candidates req) (Z.to_nat (wrap_u32 max_peaks)))).

(** [blindscan_send_unicable_command]: the IF frequency handed to the
    gateway's tune function. *)
Definition unicable_if_freq (center_freq b : Z) : Z :=
  let lnb_lo := if b =? 0 then 9750000 else 10600000 in
  if center_freq >? lnb_lo then center_freq - lnb_lo else lnb_lo - center_freq.

(** The IF range of one Unicable slice. *)
Definition unicable_scan_range (scr_freq step_size : Z) : Z * Z :=
  let half_step := wrap_s32 (c_div step_size 2) in
  (wrap_s32 (wrap_u32 (scr_freq - half_step)),
   wrap_s32 (wrap_u32 (scr_freq + half_step))).

(** The conversion loop of the slice acquirer: the IF offset from the SCR
    frequency becomes the offset from the slice centre. *)
Definition unicable_tp_freq (center_freq scr_freq f : Z) : Z :=
  let if_offset := wrap_s32 (wrap_s32 f - wrap_s32 scr_freq) in
  wrap_u32 (center_freq + if_offset).

Definition unicable_points (req : spectrum_req) (center_freq scr_freq : Z) (pol_is_v : bool)
  : blindscan_spectrum_data :=
  fold_left
    (fun sd j =>
       blindscan_spectrum_add_point sd
         (unicable_tp_freq center_freq scr_freq (freq_buffer req j))
         (c_div (level_buffer req j) 10))
    (seq 0 (num_freq req))
    (blindscan_spectrum_alloc (blindscan_band_for_freq center_freq) pol_is_v).

(** Its candidate copy: [j < num_cand && (int)j < max_peaks], with
    [num_cand] below 2^31. *)
Definition unicable_peaks (req : spectrum_req) (center_freq scr_freq max_peaks : Z)
  : list blindscan_spectral_peak :=
  map (fun j =>
         let c := candidates_buffer req j in
         let tp_freq :=
           wrap_s32 (wrap_u32 (center_freq
                               + wrap_s32 (np_freq c - wrap_s32 scr_freq))) in
         mk_spectral_peak (wrap_u32 tp_freq)
                          (wrap_u32 (np_symbol_rate c))
                          (c_div (np_snr c) 10)
                          (c_div (np_level c) 10))
      (seq 0 (Nat.min (num_candidates req) (Z.to_nat max_peaks))).

(** What the two acquirers return once the driver has answered. *)
Definition neumo_result (req : spectrum_req) (b : Z) (pol_is_v : bool) (max_peaks : Z)
  : blindscan_spectrum_data * list blindscan_spectral_peak :=
  (neumo_points req b pol_is_v, neumo_peaks req b max_peaks).

Definition unicable_result (req : spectrum_req) (center_freq scr_freq : Z)
           (pol_is_v : bool) (max_peaks : Z)
  : option (blindscan_spectrum_data * list blindscan_spectral_peak) :=
  if (num_freq req =? 0)%nat then None
  else Some (unicable_points req center_freq scr_freq pol_is_v,
             unicable_peaks req center_freq scr_freq max_peaks).

End Acquire.

(** The driver's reply fits its C types and its counts fit the buffers
    (the candidate buffer has 512 entries). *)
Definition reply_well_typed (req : Acquire.spectrum_req) : Prop :=
  Forall in_u32 (Acquire.freq req) /\
  Forall in_s32 (Acquire.rf_level req) /\
  Forall (fun c => in_s32 (Acquire.np_level c)) (Acquire.candidates req) /\
  (Acquire.num_freq req <= length (Acquire.freq req))%nat /\
  (Acquire.num_freq req <= length (Acquire.rf_level req))%nat /\
  (Acquire.num_candidates req <= length (Acquire.candidates req))%nat /\
  (Acquire.num_candidates req <= 512)%nat.

(** The driver's frequencies are IF frequencies in ascending order. *)
Definition reply_if_ascending (req : Acquire.spectrum_req) : Prop :=
  (forall i j : nat, (i <= j < Acquire.num_freq req)%nat ->
                     Acquire.freq_buffer req i <= Acquire.freq_buffer req j) /\
  (forall j : nat, (j < Acquire.num_freq req)%nat ->
                   0 <= Acquire.freq_buffer req j < 2147483648).

(** The slice stays inside the signed 32-bit range once moved from the
    SCR frequency to the slice centre. *)
Definition slice_in_range (req : Acquire.spectrum_req) (center_freq scr_freq : Z) : Prop :=
  0 <= scr_freq <= center_freq /\ scr_freq < 2147483648 /\
  forall j : nat, (j < Acquire.num_freq req)%nat ->
                  center_freq + (Acquire.freq_buffer req j - scr_freq) < 2147483648.

(** ** Prescan: the run on the session, the peak update and the ISI list *)

Module PrescanRun.

Import Prescan.








(** The [DTV_ISI_LIST] block: the bits of one byte, then the bytes of
    the bit set, at most 32 of them.  The state is the list built with
    [htsmsg_add_s64] and [isi_count]. *)
Definition isi_byte (byte_idx : nat) (byte_val : Z) (acc : list Z * Z) : list Z * Z :=
  fold_left
    (fun acc bit =>
       if negb (Z.land byte_val (Z.shiftl 1 (Z.of_nat bit)) =? 0)
       then (fst acc ++ [Z.of_nat byte_idx * 8 + Z.of_nat bit], snd acc + 1)
       else acc)
    (seq 0 8) acc.

Definition isi_scan (bitset : list Z) (len : nat) : list Z * Z :=
  let bitset_len := if (32 <? len)%nat then 32%nat else len in
  fold_left (fun acc byte_idx => isi_byte byte_idx (nth byte_idx bitset 0) acc)
            (seq 0 bitset_len) ([], 0).

(** What is added to the answer: the list and the multistream flag, when
    the count is positive. *)
Definition isi_report (bitset : list Z) (len : nat) : option (list Z * bool) :=
  let (isi_list, isi_count) := isi_scan bitset len in
  if isi_count >? 0 then Some (isi_list, isi_count >? 1) else None.

End PrescanRun.

(** ** Mux creation: the enumerations, their strings and the two
    creation operations *)

Module Muxes.

Import String.

(** The constants of the host headers that the code switches on or
    stores: the Linux DVB enumerations of [frontend.h] (those under
    [#ifdef] are optional) and the no-filter stream id of the TVH mux
    configuration. *)
Record host_constants : Type := mk_host_constants {
  QPSK : Z; PSK_8 : Z; APSK_16 : Z; APSK_32 : Z;
  APSK_64 : option Z; APSK_128 : option Z; APSK_256 : option Z;
  FEC_1_2 : Z; FEC_2_3 : Z; FEC_3_4 : Z; FEC_4_5 : Z; FEC_5_6 : Z;
  FEC_6_7 : Z; FEC_7_8 : Z; FEC_8_9 : Z; FEC_9_10 : Z; FEC_3_5 : Z;
  ROLLOFF_35 : Z; ROLLOFF_25 : Z; ROLLOFF_20 : Z;
  ROLLOFF_15 : option Z; ROLLOFF_10 : option Z; ROLLOFF_5 : option Z;
  PILOT_ON : Z; PILOT_OFF : Z;
  SYS_DVBS2 : Z;
  DVB_NO_STREAM_ID_FILTER : Z
}.

(** The TVH enumerations of [dvb_mux_conf_t]. *)
Inductive dvb_fe_delivery_system : Type := DVB_SYS_DVBS | DVB_SYS_DVBS2.

Inductive dvb_fe_modulation : Type :=
| DVB_MOD_AUTO | DVB_MOD_QPSK | DVB_MOD_PSK_8 | DVB_MOD_APSK_16 | DVB_MOD_APSK_32
| DVB_MOD_APSK_64 | DVB_MOD_APSK_128 | DVB_MOD_APSK_256.

Inductive dvb_fe_code_rate : Type :=
| DVB_FEC_AUTO | DVB_FEC_1_2 | DVB_FEC_2_3 | DVB_FEC_3_4 | DVB_FEC_4_5 | DVB_FEC_5_6
| DVB_FEC_6_7 | DVB_FEC_7_8 | DVB_FEC_8_9 | DVB_FEC_9_10 | DVB_FEC_3_5.

Inductive dvb_fe_pilot : Type := DVB_PILOT_AUTO | DVB_PILOT_ON | DVB_PILOT_OFF.

Inductive dvb_fe_pls_mode : Type := DVB_PLS_ROOT | DVB_PLS_GOLD | DVB_PLS_COMBO.

(** A C [switch] on [v]: the first present label equal to [v] selects
    the result. *)
Fixpoint switch_on (A : Type) (v : Z) (cases : list (option Z * A)) (default : A) : A :=
  match cases with
  | [] => default
  | (Some label, r) :: rest => if v =? label then r else switch_on v rest default
  | (None, _) :: rest => switch_on v rest default
  end.

(** [blindscan_convert_modulation] and its three companions. *)
Definition blindscan_convert_modulation (k : host_constants) (linux_mod : Z)
  : dvb_fe_modulation :=
  switch_on linux_mod
            [ (Some (QPSK k), DVB_MOD_QPSK); (Some (PSK_8 k), DVB_MOD_PSK_8);
              (Some (APSK_16 k), DVB_MOD_APSK_16); (Some (APSK_32 k), DVB_MOD_APSK_32);
              (APSK_64 k, DVB_MOD_APSK_64); (APSK_128 k, DVB_MOD_APSK_128);
              (APSK_256 k, DVB_MOD_APSK_256) ]
            DVB_MOD_AUTO.

Definition blindscan_convert_fec (k : host_constants) (linux_fec : Z) : dvb_fe_code_rate :=
  switch_on linux_fec
            [ (Some (FEC_1_2 k), DVB_FEC_1_2); (Some (FEC_2_3 k), DVB_FEC_2_3);
              (Some (FEC_3_4 k), DVB_FEC_3_4); (Some (FEC_4_5 k), DVB_FEC_4_5);
              (Some (FEC_5_6 k), DVB_FEC_5_6); (Some (FEC_6_7 k), DVB_FEC_6_7);
              (Some (FEC_7_8 k), DVB_FEC_7_8); (Some (FEC_8_9 k), DVB_FEC_8_9);
              (Some (FEC_3_5 k), DVB_FEC_3_5); (Some (FEC_9_10 k), DVB_FEC_9_10) ]
            DVB_FEC_AUTO.

Definition blindscan_convert_rolloff (k : host_constants) (linux_rolloff : Z) : dvb_rolloff :=
  switch_on linux_rolloff
            [ (Some (ROLLOFF_35 k), DVB_ROLLOFF_35); (Some (ROLLOFF_25 k), DVB_ROLLOFF_25);
              (Some (ROLLOFF_20 k), DVB_ROLLOFF_20); (ROLLOFF_15 k, DVB_ROLLOFF_15);
              (ROLLOFF_10 k, DVB_ROLLOFF_10); (ROLLOFF_5 k, DVB_ROLLOFF_5) ]
            DVB_ROLLOFF_AUTO.

Definition blindscan_convert_pilot (k : host_constants) (linux_pilot : Z) : dvb_fe_pilot :=
  switch_on linux_pilot
            [ (Some (PILOT_ON k), DVB_PILOT_ON); (Some (PILOT_OFF k), DVB_PILOT_OFF) ]
            DVB_PILOT_AUTO.







(** [blindscan_parse_modulation] and its companions; [None] is the
    [NULL] string. *)
Definition streq (a b : String.string) : bool := String.eqb a b.

Definition blindscan_parse_modulation (mod_str : option String.string) : dvb_fe_modulation :=
  match mod_str with
  | None => DVB_MOD_AUTO
  | Some m =>
      if streq m "QPSK" then DVB_MOD_QPSK
      else if streq m "8PSK" then DVB_MOD_PSK_8
      else if streq m "16APSK" then DVB_MOD_APSK_16
      else if streq m "32APSK" then DVB_MOD_APSK_32
      else if streq m "64APSK" then DVB_MOD_APSK_64
      else if streq m "128APSK" then DVB_MOD_APSK_128
      else if streq m "256APSK" then DVB_MOD_APSK_256
      else DVB_MOD_AUTO
  end.

Definition blindscan_parse_fec (fec : option String.string) : dvb_fe_code_rate :=
  match fec with
  | None => DVB_FEC_AUTO
  | Some f =>
      if streq f "1/2" then DVB_FEC_1_2
      else if streq f "2/3" then DVB_FEC_2_3
      else if streq f "3/4" then DVB_FEC_3_4
      else if streq f "4/5" then DVB_FEC_4_5
      else if streq f "5/6" then DVB_FEC_5_6
      else if streq f "6/7" then DVB_FEC_6_7
      else if streq f "7/8" then DVB_FEC_7_8
      else if streq f "8/9" then DVB_FEC_8_9
      else if streq f "9/10" then DVB_FEC_9_10
      else if streq f "3/5" then DVB_FEC_3_5
      else DVB_FEC_AUTO
  end.

Definition blindscan_parse_pls_mode (mode : option String.string) : dvb_fe_pls_mode :=
  match mode with
  | None => DVB_PLS_ROOT
  | Some m =>
      if streq m "GOLD" then DVB_PLS_GOLD
      else if streq m "COMBO" then DVB_PLS_COMBO
      else DVB_PLS_ROOT
  end.

Definition blindscan_parse_rolloff (rolloff : option String.string) : dvb_rolloff :=
  match rolloff with
  | None => DVB_ROLLOFF_AUTO
  | Some r =>
      if streq r "35" then DVB_ROLLOFF_35
      else if streq r "25" then DVB_ROLLOFF_25
      else if streq r "20" then DVB_ROLLOFF_20
      else if streq r "15" then DVB_ROLLOFF_15
      else if streq r "10" then DVB_ROLLOFF_10
      else if streq r "5" then DVB_ROLLOFF_5
      else DVB_ROLLOFF_AUTO
  end.

Definition blindscan_parse_pilot (pilot : option String.string) : dvb_fe_pilot :=
  match pilot with
  | None => DVB_PILOT_AUTO
  | Some p =>
      if streq p "ON" then DVB_PILOT_ON
      else if streq p "OFF" then DVB_PILOT_OFF
      else DVB_PILOT_AUTO
  end.

End Muxes.

Module MuxCreate.

Import Muxes.
Import String Ascii.

(** [dmc_fe_pls_mode] receives the peak's [int] in one operation and the
    parsed enumeration in the other. *)
Inductive pls_mode_value : Type :=
| Pls_enum (m : dvb_fe_pls_mode)
| Pls_int (z : Z).

(** [dvb_mux_conf_t] as far as the two operations fill it in (the type
    is always [DVB_TYPE_S]). *)
Record dvb_mux_conf : Type := mk_conf {
  dmc_freq : Z;
  dmc_pol : Z;
  dmc_sr : Z;
  dmc_fe_delsys : dvb_fe_delivery_system;
  dmc_fe_modulation : dvb_fe_modulation;
  dmc_fec_inner : dvb_fe_code_rate;
  dmc_rolloff : dvb_rolloff;
  dmc_fe_pilot : dvb_fe_pilot;
  dmc_fe_stream_id : Z;
  dmc_fe_pls_mode : pls_mode_value;
  dmc_fe_pls_code : Z
}.

(** The network of the host: whether a mux with that configuration is
    found, and the creation of one ([None] when it fails). *)
Record network_ops (N : Type) : Type := mk_network_ops {
  dvb_network_find_mux : N -> dvb_mux_conf -> bool;
  dvb_mux_create0 : N -> dvb_mux_conf -> option N
}.

(** The configuration built from a peak. *)
Definition peak_conf (k : host_constants) (peak : blindscan_peak) : dvb_mux_conf :=
  match bp_status peak with
  | BLINDSCAN_PEAK_LOCKED =>
      if negb (bp_delsys peak =? 0)
      then mk_conf (bp_frequency peak) (bp_polarisation peak) (bp_symbol_rate peak)
                   (if bp_delsys peak =? SYS_DVBS2 k then DVB_SYS_DVBS2 else DVB_SYS_DVBS)
                   (blindscan_convert_modulation k (bp_modulation peak))
                   (blindscan_convert_fec k (bp_fec peak))
                   (blindscan_convert_rolloff k (bp_rolloff peak))
                   (blindscan_convert_pilot k (bp_pilot peak))
                   (bp_stream_id peak)
                   (Pls_int (bp_pls_mode peak))
                   (bp_pls_code peak)
      else mk_conf (bp_frequency peak) (bp_polarisation peak) (bp_symbol_rate peak)
                   DVB_SYS_DVBS2 DVB_MOD_AUTO DVB_FEC_AUTO DVB_ROLLOFF_AUTO DVB_PILOT_AUTO
                   (DVB_NO_STREAM_ID_FILTER k) (Pls_enum DVB_PLS_ROOT) 1
  | _ =>
      mk_conf (bp_frequency peak) (bp_polarisation peak) (bp_symbol_rate peak)
              DVB_SYS_DVBS2 DVB_MOD_AUTO DVB_FEC_AUTO DVB_ROLLOFF_AUTO DVB_PILOT_AUTO
              (DVB_NO_STREAM_ID_FILTER k) (Pls_enum DVB_PLS_ROOT) 1
  end.

(** The state of the creation loops: the network, [created], the peaks
    as the loop leaves them, and (a history variable) the configurations
    created with their GSE mark. *)
Record create_state (N : Type) : Type := mk_create_state {
  cs_network : N;
  cs_created : Z;
  cs_peaks : list blindscan_peak;
  cs_log : list (dvb_mux_conf * bool)
}.

Definition create_step (N : Type) (ops : network_ops N) (k : host_constants)
           (st : create_state N) (peak : blindscan_peak) : create_state N :=
  let keep (p : blindscan_peak) :=
    mk_create_state (cs_network st) (cs_created st) (cs_peaks st ++ [p]) (cs_log st) in
  match bp_status peak with
  | BLINDSCAN_PEAK_SKIPPED | BLINDSCAN_PEAK_FAILED => keep peak
  | _ =>
      let dmc := peak_conf k peak in
      if dvb_network_find_mux ops (cs_network st) dmc
      then keep (set_bp_status BLINDSCAN_PEAK_SKIPPED peak)
      else match dvb_mux_create0 ops (cs_network st) dmc with
           | None => keep (set_bp_status BLINDSCAN_PEAK_FAILED peak)
           | Some ln =>
               mk_create_state ln (cs_created st + 1)
                               (cs_peaks st
                                ++ [set_bp_status BLINDSCAN_PEAK_SCANNING peak])
                               (cs_log st ++ [(dmc, false)])
           end
  end.

(** [linuxdvb_blindscan_create_muxes] on the session found. *)
Definition linuxdvb_blindscan_create_muxes (N : Type) (ops : network_ops N)
           (k : host_constants) (ln : N) (peaks : list blindscan_peak) : create_state N :=
  fold_left (create_step ops k) peaks (mk_create_state ln 0 [] []).

(** One map of the list sent by the user interface; an absent field is
    [None]. *)
Record selected_item : Type := mk_item {
  it_frequency : option Z;
  it_polarisation : option string;
  it_symbol_rate : option Z;
  it_modulation : option string;
  it_fec : option string;
  it_delsys : option string;
  it_rolloff : option string;
  it_pilot : option string;
  it_stream_id : option Z;
  it_pls_mode : option string;
  it_pls_code : option Z;
  it_is_gse : option bool
}.

Definition or_default (A : Type) (v : option A) (d : A) : A :=
  match v with Some x => x | None => d end.

(** [strstr(s, sub) != NULL]. *)
Definition strstr (s sub : string) : bool :=
  match index 0 sub s with Some _ => true | None => false end.

Definition first_char_is (s : string) (c : Ascii.ascii) : bool :=
  match s with
  | String a _ => Ascii.eqb a c
  | EmptyString => false
  end.

(** The configuration built from a selected entry. *)
Definition item_conf (k : host_constants) (it : selected_item) : dvb_mux_conf :=
  let freq := or_default (it_frequency it) 0 in
  let symbol_rate := or_default (it_symbol_rate it) 0 in
  let stream_id := or_default (it_stream_id it) (-1) in
  let pls_code := or_default (it_pls_code it) 0 in
  let polarisation :=
    match it_polarisation it with
    | Some pol_str =>
        if first_char_is pol_str "V"%char then DVB_POLARISATION_VERTICAL
        else DVB_POLARISATION_HORIZONTAL
    | None => DVB_POLARISATION_HORIZONTAL
    end in
  let delsys :=
    match it_delsys it with
    | Some delsys_str =>
        if strstr delsys_str "S2" then DVB_SYS_DVBS2
        else if streq delsys_str "DVB-S" then DVB_SYS_DVBS
        else DVB_SYS_DVBS2
    | None => DVB_SYS_DVBS2
    end in
  mk_conf freq polarisation
          (if symbol_rate >? 0 then symbol_rate else 27500000)
          delsys
          (blindscan_parse_modulation (it_modulation it))
          (blindscan_parse_fec (it_fec it))
          (blindscan_parse_rolloff (it_rolloff it))
          (blindscan_parse_pilot (it_pilot it))
          (if stream_id >=? 0 then stream_id else DVB_NO_STREAM_ID_FILTER k)
          (Pls_enum (blindscan_parse_pls_mode (it_pls_mode it)))
          (if (pls_code >=? 0) && (pls_code <? 262144) then pls_code else 0).

Definition selected_step (N : Type) (ops : network_ops N) (k : host_constants)
           (st : create_state N) (f : option selected_item) : create_state N :=
  match f with
  | None => st
  | Some item =>
      if or_default (it_frequency item) 0 =? 0 then st
      else
        let dmc := item_conf k item in
        if dvb_network_find_mux ops (cs_network st) dmc then st
        else match dvb_mux_create0 ops (cs_network st) dmc with
             | None => st
             | Some ln =>
                 mk_create_state ln (cs_created st + 1) (cs_peaks st)
                                 (cs_log st
                                  ++ [(dmc, or_default (it_is_gse item) false)])
             end
  end.

(** [linuxdvb_blindscan_create_muxes_selected] on the session found;
    [selected_peaks] is not [NULL]. *)
Definition linuxdvb_blindscan_create_muxes_selected (N : Type) (ops : network_ops N)
           (k : host_constants) (ln : N) (peaks : list blindscan_peak)
           (selected_peaks : list (option selected_item)) : create_state N :=
  fold_left (selected_step ops k) selected_peaks (mk_create_state ln 0 peaks []).

End MuxCreate.

(** An assignment of the enumerators in the manner of [frontend.h], with
    the optional ones defined (their values differ between versions of
    the header). *)
Module Host_example.


End Host_example.

(** ** The LNB configuration of the direct acquisition *)

Module Lnb.

Inductive diseqc_device : Type := Switch | Rotor.

(** What [blindscan_configure_lnb] asks of the frontend and of the
    DiSEqC chain, in the order of time.  [FE_SET_TONE true] is
    [SEC_TONE_ON], [FE_SET_VOLTAGE true] is [SEC_VOLTAGE_13]. *)
Inductive lnb_command : Type :=
| FE_SET_TONE (tone_on : bool)
| Diseqc_set_volt (vol : Z)
| Clear_diseqc_cache
| Ld_tune (dev : diseqc_device) (vol pol b : Z)
| Wait_seconds (r : Z)
| FE_SET_VOLTAGE (volt_13 : bool).

(** The satellite configuration: the order flag and the devices that
    are present. *)
Record satconf : Type := mk_satconf {
  ls_switch_rotor : bool;
  lse_switch : bool;
  lse_rotor : bool
}.

(** The return value of the [n]-th request. *)
Definition driver : Type := nat -> lnb_command -> Z.

Definition issue (drv : driver) (trace : list lnb_command) (c : lnb_command)
  : Z * list lnb_command :=
  (drv (length trace) c, trace ++ [c]).

(** [lds[]]: the devices of the chain that are not [NULL], in order. *)
Definition lds (ls : satconf) : list diseqc_device :=
  let present (d : diseqc_device) :=
    match d with Switch => lse_switch ls | Rotor => lse_rotor ls end in
  filter present (if ls_switch_rotor ls then [Switch; Rotor] else [Rotor; Switch]).

(** The loop over the chain: [None] when a device fails. *)
Fixpoint tune_chain (drv : driver) (vol pol b : Z) (devices : list diseqc_device)
         (trace : list lnb_command) : option (list lnb_command) * list lnb_command :=
  match devices with
  | [] => (Some trace, trace)
  | dev :: rest =>
      let (r, trace) := issue drv trace (Ld_tune dev vol pol b) in
      if r <? 0 then (None, trace)
      else
        let trace := if r >? 0 then trace ++ [Wait_seconds r] else trace in
        tune_chain drv vol pol b rest trace
  end.

(** [blindscan_configure_lnb]: the return value and the requests made. *)
Definition blindscan_configure_lnb (drv : driver) (ls : satconf) (b : Z) (pol_is_v : bool)
  : Z * list lnb_command :=
  let pol := if pol_is_v then 1 else 0 in
  let vol := pol in
  let (_, trace) := issue drv [] (FE_SET_TONE false) in
  let (r, trace) := issue drv trace (Diseqc_set_volt vol) in
  if r <? 0 then (-1, trace)
  else
    let trace := trace ++ [Clear_diseqc_cache] in
    match tune_chain drv vol pol b (lds ls) trace with
    | (None, trace) => (-1, trace)
    | (Some _, trace) =>
        let (r, trace) := issue drv trace (FE_SET_VOLTAGE pol_is_v) in
        if r <? 0 then (-1, trace)
        else
          let (r, trace) := issue drv trace (FE_SET_TONE (b =? 1)) in
          if r <? 0 then (-1, trace)
          else (0, trace)
    end.

End Lnb.

(** ** The start handler of the HTTP API, [api_blindscan_start] *)

Module Api.

Import String Ascii.

(** The arguments of the request that the handler reads; an absent
    argument is [None]. *)
Record start_args : Type := mk_start_args {
  a_frontend_uuid : option string;
  a_network_uuid : option string;
  a_start_freq : option Z;
  a_end_freq : option Z;
  a_polarisation : option string;
  a_peak_detect : option Z
}.

Inductive start_error : Type :=
| Missing_frontend_uuid_or_network_uuid
| Missing_start_freq_or_end_freq
| Frontend_not_found_or_not_DVB_S
| Network_not_found.

(** The code of a character of the 7-bit set. *)
Definition char_code (c : ascii) : Z := Z.of_nat (nat_of_ascii c).

(** [pol]: ['B'] unless the string has a first character. *)
Definition start_pol (pol_str : option string) : Z :=
  match pol_str with
  | Some (String c _) => char_code c
  | _ => 66
  end.

(** The handler: an error answer, or the session that
    [linuxdvb_blindscan_start] creates.  [frontend_found] and
    [network_found] are the outcomes of the two [idnode_find] calls. *)
Definition api_blindscan_start (frontend_found network_found : bool) (args : start_args)
  : start_error + Worker.blindscan_session :=
  match a_frontend_uuid args, a_network_uuid args with
  | Some _, Some _ =>
      match a_start_freq args, a_end_freq args with
      | Some start_freq, Some end_freq =>
          if negb frontend_found then inl Frontend_not_found_or_not_DVB_S
          else if negb network_found then inl Network_not_found
          else
            let peak_detect :=
              match a_peak_detect args with Some v => v | None => 0 end in
            inr (Worker.linuxdvb_blindscan_start start_freq end_freq
                                                 (start_pol (a_polarisation args))
                                                 peak_detect)
      | _, _ => inl Missing_start_freq_or_end_freq
      end
  | _, _ => inl Missing_frontend_uuid_or_network_uuid
  end.

End Api.

(** ** The session list and the spectrum operation *)

Module Session.

Import Worker.

(** The answer of [linuxdvb_blindscan_spectrum]: the points as pairs
    (["f"], ["l"]), the count, the polarisation string and the band. *)
Record spectrum_report : Type := mk_spectrum_report {
  sp_points : list (Z * Z);
  sp_count : Z;
  sp_pol_is_h : bool;
  sp_band : Z
}.

(** [linuxdvb_blindscan_spectrum] on the session found; [pol] is the
    character code. *)
Definition linuxdvb_blindscan_spectrum (bs : blindscan_session) (pol b : Z)
  : option spectrum_report :=
  let sd :=
    if Prescan.pol_is_h pol
    then (if b =? 0 then bs_spectrum_h_low bs else bs_spectrum_h_high bs)
    else (if b =? 0 then bs_spectrum_v_low bs else bs_spectrum_v_high bs) in
  match sd with
  | None => None
  | Some sd =>
      if (length (points sd) =? 0)%nat then None
      else
        Some (mk_spectrum_report
                (fold_left (fun l pt =>
                              Report.htsmsg_add_msg l (pt_frequency pt, pt_level pt))
                           (points sd) [])
                (wrap_u32 (Z.of_nat (length (points sd))))
                (Prescan.pol_is_h pol)
                (wrap_u32 b))
  end.

(** An element of [blindscan_sessions]: the key, the two thread flags
    and the session data. *)
Record session_entry : Type := mk_entry {
  bs_uuid_hex : String.string;
  bs_should_stop : bool;
  bs_thread_running : bool;
  entry_session : blindscan_session
}.

(** [linuxdvb_blindscan_find]: the first session with that key. *)
Fixpoint linuxdvb_blindscan_find (blindscan_sessions : list session_entry)
         (uuid : String.string) : option session_entry :=
  match blindscan_sessions with
  | [] => None
  | bs :: rest =>
      if String.eqb (bs_uuid_hex bs) uuid then Some bs
      else linuxdvb_blindscan_find rest uuid
  end.

(** [LIST_INSERT_HEAD(&blindscan_sessions, bs, bs_link)] of
    [linuxdvb_blindscan_start]. *)
Definition insert_session (bs : session_entry) (blindscan_sessions : list session_entry)
  : list session_entry :=
  bs :: blindscan_sessions.

Definition request_stop (bs : session_entry) : session_entry :=
  mk_entry (bs_uuid_hex bs) true (bs_thread_running bs) (entry_session bs).

(** [linuxdvb_blindscan_cancel]: the flag of the session found is set. *)
Fixpoint linuxdvb_blindscan_cancel (blindscan_sessions : list session_entry)
         (uuid : String.string) : list session_entry :=
  match blindscan_sessions with
  | [] => []
  | bs :: rest =>
      if String.eqb (bs_uuid_hex bs) uuid then request_stop bs :: rest
      else bs :: linuxdvb_blindscan_cancel rest uuid
  end.

(** [linuxdvb_blindscan_release]: the session found is stopped, joined,
    removed and freed. *)
Fixpoint linuxdvb_blindscan_release (blindscan_sessions : list session_entry)
         (uuid : String.string) : list session_entry :=
  match blindscan_sessions with
  | [] => []
  | bs :: rest =>
      if String.eqb (bs_uuid_hex bs) uuid then rest
      else bs :: linuxdvb_blindscan_release rest uuid
  end.

End Session.

(** Two sessions in the list, the later one first. *)
Module Session_example.

Import String.
Local Open Scope string_scope.

Definition first_key : string := "0a1b2c3d4e5f60718293a4b5c6d7e8f9".
Definition second_key : string := "f9e8d7c6b5a493827160f5e4d3c2b1a0".

Definition two_sessions : list Session.session_entry :=
  [ Session.mk_entry second_key false true
                     (Worker.linuxdvb_blindscan_start 10700000 12750000 86 0);
    Session.mk_entry first_key false true
                     (Worker.linuxdvb_blindscan_start 10700000 11700000 72 0) ].

End Session_example.

(** ** A network with one scanned mux *)

Module Network.

(** A 27.5 Msym/s mux at 11 012 MHz, horizontal, rolloff 0.35. *)
Definition known_mux : dvb_mux :=
  mk_mux 11012000 27500000 DVB_POLARISATION_HORIZONTAL DVB_ROLLOFF_35 MM_SCAN_OK.

(** The direct frontend of the scenarios on that network. *)
Definition direct_env (sd : blindscan_spectrum_data)
           (cands : list blindscan_spectral_peak) : Worker.environment :=
  Worker.mk_env 7 true None [known_mux]
                (fun _ => false)
                (fun _ _ _ => true)
                (fun _ _ _ => Some (sd, cands))
                (fun _ _ _ _ => false)
                (fun _ _ _ => None).

End Network.

(** ** Predicates of the further properties *)

(** Two candidates at least a half window and one sample apart. *)
Definition idx_gap (a b : candidate) : Prop :=
  (idx a + S Detect.half_win <= idx b)%nat.

(** Some candidate of [l] is at least as strong as [c]. *)
Definition dominated (c : candidate) (l : list candidate) : Prop :=
  exists k : candidate, In k l /\ level c <= level k.

(** Frequencies of a buffer in non-decreasing order, under 2^31. *)
Definition frequencies_ascending (pts : list blindscan_spectrum_point) : Prop :=
  (forall i j : nat, (i <= j < length pts)%nat ->
                     Detect.freq_at pts i <= Detect.freq_at pts j) /\
  (forall i : nat, 0 <= Detect.freq_at pts i < 2147483648).

(** Two driver candidates at least the de-duplication threshold apart. *)
Definition far_apart (a b : blindscan_spectral_peak) : Prop :=
  Dedup.dedupe_thresh <= Dedup.freq_diff b a.

(** Every two candidates of the list are that far apart. *)
Definition all_far_apart (l : list blindscan_spectral_peak) : Prop :=
  ForallOrdPairs far_apart l.

(** Some candidate of [l] is at least as strong as [p]. *)
Definition covered (p : blindscan_spectral_peak) (l : list blindscan_spectral_peak) : Prop :=
  exists q : blindscan_spectral_peak, In q l /\ pk_level p <= pk_level q.

(** The mux is inside the [uint32_t] range together with its band. *)
Definition mux_in_range (dm : dvb_mux) : Prop :=
  in_u32 (dmc_symbol_rate dm) /\
  Worker.blindscan_mux_half_bandwidth dm <= dmc_fe_freq dm /\
  dmc_fe_freq dm + Worker.blindscan_mux_half_bandwidth dm < 4294967296.

(** The peak lies in the band of the mux, on its polarisation. *)
Definition peak_within (peak : blindscan_peak) (dm : dvb_mux) : Prop :=
  dmc_polarisation dm = bp_polarisation peak /\
  Z.abs (bp_frequency peak - dmc_fe_freq dm) <= Worker.blindscan_mux_half_bandwidth dm.

(** A peak as the worker leaves it: no stream id, and either pending
    with no verified mux or skipped with the tuning of a mux of the
    network on its polarisation. *)
Definition peak_as_inserted (env : Worker.environment) (p : blindscan_peak) : Prop :=
  bp_stream_id p = -1 /\
  (bp_polarisation p = DVB_POLARISATION_HORIZONTAL \/
   bp_polarisation p = DVB_POLARISATION_VERTICAL) /\
  ((bp_status p = BLINDSCAN_PEAK_PENDING /\
    bp_verified_freq p = 0 /\ bp_verified_sr p = 0) \/
   (bp_status p = BLINDSCAN_PEAK_SKIPPED /\
    exists dm : dvb_mux,
      In dm (Worker.mn_muxes env) /\
      dmc_polarisation dm = bp_polarisation p /\
      bp_verified_freq p = dmc_fe_freq dm /\
      bp_verified_sr p = dmc_symbol_rate dm)).

(** The peak list of a session: counted, and every peak as inserted, on
    a polarisation that the session selects. *)
Definition peaks_well_formed (env : Worker.environment) (sel : Z)
           (bs : Worker.blindscan_session) : Prop :=
  Worker.bs_peak_count bs = Z.of_nat (length (Worker.bs_peaks bs)) /\
  Forall (fun p => peak_as_inserted env p /\
                   (sel = DVB_POLARISATION_HORIZONTAL \/ sel = DVB_POLARISATION_VERTICAL ->
                    bp_polarisation p = sel))
         (Worker.bs_peaks bs).

(** The flags of one entry of the peaks report agree with its status. *)
Definition report_flags_ok (r : Report.peak_report) : Prop :=
  (Report.r_existing r = true ->
   Report.r_has_failed_mux r = false /\ Report.r_status r = Report.Str_existing) /\
  (Report.r_has_failed_mux r = true <-> Report.r_status r = Report.Str_retry).

(** No two sessions of the list share a key. *)
Definition unique_keys (blindscan_sessions : list Session.session_entry) : Prop :=
  NoDup (map Session.bs_uuid_hex blindscan_sessions).

(** Bit [isi] of the bit set: bit [isi mod 8] of byte [isi / 8]. *)
Definition isi_bit (bitset : list Z) (isi : Z) : bool :=
  Z.testbit (nth (Z.to_nat (isi / 8)) bitset 0) (isi mod 8).











(** The creation loop passes over the peak. *)
Definition passed_over (p : blindscan_peak) : Prop :=
  bp_status p = BLINDSCAN_PEAK_SKIPPED \/ bp_status p = BLINDSCAN_PEAK_FAILED.

Definition is_scanning (p : blindscan_peak) : bool :=
  match bp_status p with BLINDSCAN_PEAK_SCANNING => true | _ => false end.

(** How the creation loop leaves a peak: untouched when passed over,
    else with a new status and nothing else changed. *)
Definition peak_after_create (p p' : blindscan_peak) : Prop :=
  (passed_over p /\ p' = p) \/
  (~ passed_over p /\
   (p' = set_bp_status BLINDSCAN_PEAK_SKIPPED p \/
    p' = set_bp_status BLINDSCAN_PEAK_FAILED p \/
    p' = set_bp_status BLINDSCAN_PEAK_SCANNING p)).

(** A configuration as the creation of selected muxes builds it. *)
Definition selected_conf_ok (k : Muxes.host_constants) (c : MuxCreate.dvb_mux_conf) : Prop :=
  MuxCreate.dmc_freq c <> 0 /\
  0 < MuxCreate.dmc_sr c /\
  (MuxCreate.dmc_pol c = DVB_POLARISATION_HORIZONTAL \/
   MuxCreate.dmc_pol c = DVB_POLARISATION_VERTICAL) /\
  0 <= MuxCreate.dmc_fe_pls_code c < 262144 /\
  (0 <= MuxCreate.dmc_fe_stream_id c \/
   MuxCreate.dmc_fe_stream_id c = Muxes.DVB_NO_STREAM_ID_FILTER k).

(** The entry is a map with a frequency other than 0. *)
Definition item_usable (f : option MuxCreate.selected_item) : bool :=
  match f with
  | Some it => negb (MuxCreate.or_default (MuxCreate.it_frequency it) 0 =? 0)
  | None => false
  end.

(** The requests of a complete LNB configuration, waits apart. *)
Definition lnb_plan (ls : Lnb.satconf) (b : Z) (pol_is_v : bool) : list Lnb.lnb_command :=
  let pol := if pol_is_v then 1 else 0 in
  [Lnb.FE_SET_TONE false; Lnb.Diseqc_set_volt pol; Lnb.Clear_diseqc_cache]
  ++ map (fun dev => Lnb.Ld_tune dev pol pol b) (Lnb.lds ls)
  ++ [Lnb.FE_SET_VOLTAGE pol_is_v; Lnb.FE_SET_TONE (b =? 1)].

Definition not_wait (c : Lnb.lnb_command) : bool :=
  match c with Lnb.Wait_seconds _ => false | _ => true end.

(** The last request of the trace was refused. *)
Definition last_refused (drv : Lnb.driver) (trace : list Lnb.lnb_command) : Prop :=
  exists (before : list Lnb.lnb_command) (c : Lnb.lnb_command),
    trace = before ++ [c] /\ drv (length before) c < 0.



(** The polarisations and the bands that a start request selects. *)
Definition request_pols (pol_str : option String.string) : list bool :=
  match pol_str with
  | Some (String.String c _) =>
      if (Api.char_code c =? 72) || (Api.char_code c =? 104) then [false]
      else if (Api.char_code c =? 86) || (Api.char_code c =? 118) then [true]
      else [false; true]
  | _ => [false; true]
  end.

Definition request_bands (start_freq end_freq : Z) : list Z :=
  (if start_freq <? 11700000 then [0] else [])
  ++ (if end_freq >? 11700000 then [1] else []).

(** * Properties *)

(** ** Machine integers *)

Lemma wrap_u32_range (z : Z) : in_u32 (wrap_u32 z).
Proof. unfold in_u32, wrap_u32. apply Z.mod_pos_bound. lia. Qed.

Lemma wrap_u32_small (z : Z) : in_u32 z -> wrap_u32 z = z.
Proof. unfold in_u32, wrap_u32. intros H. apply Z.mod_small. exact H. Qed.

Lemma wrap_s32_range (z : Z) : in_s32 (wrap_s32 z).
Proof.
  unfold in_s32, wrap_s32.
  pose proof (Z.mod_pos_bound (z + 2147483648) 4294967296 ltac:(lia)). lia.
Qed.

Lemma wrap_s32_small (z : Z) : in_s32 z -> wrap_s32 z = z.
Proof.
  unfold in_s32, wrap_s32. intros H.
  rewrite Z.mod_small by lia. lia.
Qed.

(** A difference that overflows [int32_t] wraps to a negative value. *)
Lemma wrap_s32_high (z : Z) :
  2147483648 <= z < 4294967296 -> wrap_s32 z = z - 4294967296.
Proof.
  unfold wrap_s32. intros H.
  replace (z + 2147483648) with (z - 2147483648 + 1 * 4294967296) by lia.
  rewrite Z.mod_add by lia. rewrite Z.mod_small by lia. lia.
Qed.

Lemma level_bounded_in_s32 (z : Z) : level_bounded z -> in_s32 z.
Proof. unfold level_bounded, in_s32. lia. Qed.

(** The acquirers divide the driver's [int32_t] level by 10. *)
Lemma acquired_level_bounded (raw : Z) : in_s32 raw -> level_bounded (c_div raw 10).
Proof.
  unfold in_s32, level_bounded, c_div. intros H.
  pose proof (Z.quot_rem' raw 10) as E.
  pose proof (Z.rem_bound_abs raw 10 ltac:(lia)) as B.
  lia.
Qed.

(** ** Header helpers *)

Lemma band_for_freq_high (f : Z) :
  blindscan_band_for_freq f = 1 <-> 11700000 <= f.
Proof.
  unfold blindscan_band_for_freq, BLINDSCAN_LNB_SLOF. rewrite Z.geb_leb.
  destruct (Z.leb_spec 11700000 f) as [Hle | Hlt]; split; intros Hyp;
    try lia; try reflexivity; discriminate Hyp.
Qed.

(** Driver and transponder frequency are inverse on the frequencies
    above the oscillator of the band. *)
Lemma transponder_driver_roundtrip (f b : Z) :
  in_u32 f -> BLINDSCAN_LNB_LOF_HIGH <= f ->
  f - BLINDSCAN_LNB_LOF_LOW < 2147483648 ->
  blindscan_transponder_freq (blindscan_driver_freq f b) b = f.
Proof.
  unfold blindscan_transponder_freq, blindscan_driver_freq.
  unfold in_u32, BLINDSCAN_LNB_LOF_HIGH, BLINDSCAN_LNB_LOF_LOW.
  intros Hf Hlo Hhi.
  destruct (b =? 0).
  - rewrite (wrap_u32_small (z := f - 9750000)) by (unfold in_u32; lia).
    rewrite wrap_s32_small by (unfold in_s32; lia).
    rewrite wrap_u32_small by (unfold in_u32; lia). lia.
  - rewrite (wrap_u32_small (z := f - 10600000)) by (unfold in_u32; lia).
    rewrite wrap_s32_small by (unfold in_s32; lia).
    rewrite wrap_u32_small by (unfold in_u32; lia). lia.
Qed.

(** ** Peak detector: the symbol-rate estimate *)

Lemma symbol_rate_of_bandwidth_range (b : Z) :
  1000000 <= Detect.symbol_rate_of_bandwidth b <= 45000000.
Proof.
  unfold Detect.symbol_rate_of_bandwidth.
  destruct (Z.ltb_spec (wrap_u32 (b * 800)) 1000000) as [Hlo | Hlo].
  - simpl. lia.
  - rewrite Z.gtb_ltb.
    destruct (Z.ltb_spec 45000000 (wrap_u32 (b * 800))); lia.
Qed.

(** Inside the range the estimate is the bandwidth times 800. *)
Lemma symbol_rate_of_bandwidth_exact (b : Z) :
  1000000 <= b * 800 <= 45000000 -> Detect.symbol_rate_of_bandwidth b = b * 800.
Proof.
  intros H. unfold Detect.symbol_rate_of_bandwidth.
  rewrite wrap_u32_small by (unfold in_u32; lia).
  destruct (Z.ltb_spec (b * 800) 1000000); [lia |].
  rewrite Z.gtb_ltb.
  destruct (Z.ltb_spec 45000000 (b * 800)); lia.
Qed.

(** Estimates under 1 Msym/s are raised to 2 Msym/s. *)
Lemma symbol_rate_of_bandwidth_low (b : Z) :
  0 <= b * 800 < 1000000 -> Detect.symbol_rate_of_bandwidth b = 2000000.
Proof.
  intros H. unfold Detect.symbol_rate_of_bandwidth.
  rewrite wrap_u32_small by (unfold in_u32; lia).
  destruct (Z.ltb_spec (b * 800) 1000000); [reflexivity | lia].
Qed.

Lemma detect_peaks_symbol_rate_range (sd : blindscan_spectrum_data)
      (max_peaks threshold_db : Z) (p : blindscan_spectral_peak) :
  In p (Detect.blindscan_detect_peaks sd max_peaks threshold_db) ->
  1000000 <= pk_symbol_rate p <= 45000000.
Proof.
  unfold Detect.blindscan_detect_peaks. cbv zeta.
  destruct (length (points sd) <? 100)%nat; [intros Hin; destruct Hin |].
  destruct (Detect.find_candidates _ _) as [| c0 rest]; [intros Hin; destruct Hin |].
  intros Hin. apply in_map_iff in Hin. destruct Hin as [c [<- _]].
  apply symbol_rate_of_bandwidth_range.
Qed.

(** C1 (every detected peak has a symbol rate between 2 000 000 and
    45 000 000, the -6 dB bandwidth times 800 clamped to that range)
    does not hold of the code.  The buffer [narrow_carrier] has 200
    samples and one carrier whose -6 dB bandwidth is 1500 kHz; the
    detector returns a single peak with the estimate 1 200 000, under
    2 000 000: the lower clamp compares with 1 000 000 and stores
    2 000 000. *)
Theorem detect_peaks_symbol_rate_below_floor :
  (100 <= length (points Scenario.narrow_carrier))%nat /\
  Detect.blindscan_detect_peaks Scenario.narrow_carrier 512 1000
  = [mk_spectral_peak 10704950 1200000 3000 (-4000)] /\
  ~ (2000000 <= 1200000 <= 45000000).
Proof.
  split; [apply Nat.leb_le; vm_compute; reflexivity |].
  split; [vm_compute; reflexivity | lia].
Qed.

(** ** Prescan: the search range *)

Lemma search_range_small (est : Z) :
  est <= 8000000 -> Prescan.search_range est = 8000000.
Proof.
  intros H. unfold Prescan.search_range. rewrite Z.gtb_ltb.
  destruct (Z.ltb_spec 8000000 est); [lia | reflexivity].
Qed.

Lemma search_range_large (est : Z) :
  16000000 <= est -> Prescan.search_range est = Z.max (c_div est 2) 8000000.
Proof.
  intros H. unfold Prescan.search_range, c_div. rewrite Z.gtb_ltb.
  destruct (Z.ltb_spec 8000000 est); [| lia].
  rewrite Z.quot_div_nonneg by lia.
  pose proof (Z.div_le_lower_bound est 2 8000000 ltac:(lia) ltac:(lia)). lia.
Qed.

(** Between 8 and 16 Msym/s the range is half the estimate, under the
    8 MHz floor. *)
Lemma search_range_middle (est : Z) :
  8000000 < est < 16000000 ->
  Prescan.search_range est = c_div est 2 /\ Prescan.search_range est < 8000000.
Proof.
  intros H. unfold Prescan.search_range, c_div. rewrite Z.gtb_ltb.
  destruct (Z.ltb_spec 8000000 est); [| lia].
  split; [reflexivity |].
  rewrite Z.quot_div_nonneg by lia.
  apply Z.div_lt_upper_bound; lia.
Qed.

Lemma est_symbol_rate_default (frequency pol : Z) :
  Prescan.est_symbol_rate [] frequency pol = 22000000.
Proof. reflexivity. Qed.

(** C2 (the search range submitted by a prescan is max(SR/2, 8 000 000)
    and never under 8 MHz) does not hold of the code.  For the pending
    peak [peak_10M], whose estimate is 10 Msym/s, the request carries
    the search range 5 000 000, under the floor of 8 000 000. *)
Theorem prescan_search_range_below_floor :
  Prescan.est_symbol_rate [Scenario.peak_10M] 11012000 72 = 10000000 /\
  Prescan.lookup_prop Prescan.DTV_SEARCH_RANGE
    (Prescan.prescan_tune_props [Scenario.peak_10M] None 11012000 72)
  = Some (Prescan.Data 5000000) /\
  Z.max (c_div 10000000 2) 8000000 = 8000000.
Proof. repeat split; vm_compute; reflexivity. Qed.

(** ** De-duplication of driver candidates *)

Lemma dedupe_slice_candidates :
  map pk_frequency (Dedup.dedupe_driver_peaks Scenario.slice_candidates) = [11012500].
Proof. vm_compute. reflexivity. Qed.

(** C7 (after de-duplication no two candidates are closer than
    2000 kHz, the stronger of two close ones being kept) does not hold
    of the code.  For the candidates at 11 010 000, 11 013 000 and
    11 011 900 kHz (the last one the strongest), the third replaces the
    first and stays next to the second: the survivors are 1100 kHz
    apart. *)
Theorem dedupe_leaves_close_candidates :
  map pk_frequency (Dedup.dedupe_driver_peaks Scenario.drifting_candidates)
  = [11011900; 11013000] /\
  11013000 - 11011900 < Dedup.dedupe_thresh.
Proof. split; vm_compute; reflexivity. Qed.

(** ** Worker: progress *)

Lemma div_add_le (a b t : Z) :
  0 <= a -> 0 <= b -> 0 < t -> a / t + b / t <= (a + b) / t.
Proof.
  intros Ha Hb Ht.
  apply Z.div_le_lower_bound; [lia |].
  pose proof (Z.mul_div_le a t Ht). pose proof (Z.mul_div_le b t Ht). lia.
Qed.

Lemma slot_progress_range (current_scan total_scans : Z) :
  1 <= current_scan <= total_scans ->
  0 <= Worker.slot_progress current_scan total_scans <= 50.
Proof.
  intros H. unfold Worker.slot_progress, c_div.
  rewrite Z.quot_div_nonneg by lia. split.
  - apply Z.div_pos; lia.
  - apply Z.div_le_upper_bound; lia.
Qed.

Lemma slot_progress_mono (c1 c2 total_scans : Z) :
  0 <= c1 <= c2 -> 0 < total_scans ->
  Worker.slot_progress c1 total_scans <= Worker.slot_progress c2 total_scans.
Proof.
  intros H Ht. unfold Worker.slot_progress, c_div.
  rewrite !Z.quot_div_nonneg by lia.
  apply Z.div_le_mono; lia.
Qed.

(** A slice value never exceeds the slot value written just before the
    slices of that slot. *)
Lemma slice_progress_le_slot (current_scan total_scans step total_steps : Z) :
  1 <= current_scan -> 0 < total_scans -> 0 <= step < total_steps ->
  0 <= Worker.slice_progress current_scan total_scans step total_steps
    <= Worker.slot_progress current_scan total_scans.
Proof.
  intros Hc Ht Hs. unfold Worker.slice_progress, Worker.slot_progress, c_div.
  assert (H50 : 0 <= (step + 1) * 50 / total_steps <= 50).
  { split; [apply Z.div_pos; lia | apply Z.div_le_upper_bound; lia]. }
  rewrite (Z.quot_div_nonneg ((step + 1) * 50) total_steps) by lia.
  rewrite !Z.quot_div_nonneg by lia.
  split.
  - pose proof (Z.div_pos ((current_scan - 1) * 50) total_scans ltac:(lia) Ht).
    pose proof (Z.div_pos ((step + 1) * 50 / total_steps) total_scans ltac:(lia) Ht).
    lia.
  - etransitivity; [apply div_add_le; lia |].
    apply Z.div_le_mono; lia.
Qed.

(** C3 (progress lies in 0..100 and never decreases while the session
    is acquiring or scanning, Unicable included) does not hold of the
    code.  On a Unicable frontend, a scan of 10 700 - 10 800 MHz (one
    slot, two slices) writes 50 at the start of the slot and then 25 for
    the first slice, both in state acquiring.  The range part holds
    ([started_session_progress_ok]) and so does the order on a direct
    frontend ([direct_progress_non_decreasing]). *)
Theorem unicable_progress_decreases :
  Worker.progress_log
    (Worker.blindscan_worker Scenario.unicable_env
       (Worker.linuxdvb_blindscan_start 10700000 10800000 72 0))
  = [ (BLINDSCAN_STATE_ACQUIRING, 50); (BLINDSCAN_STATE_ACQUIRING, 25);
      (BLINDSCAN_STATE_ACQUIRING, 50); (BLINDSCAN_STATE_COMPLETE, 100) ] /\
  ~ non_decreasing
      (active_progress
         (Worker.progress_log
            (Worker.blindscan_worker Scenario.unicable_env
               (Worker.linuxdvb_blindscan_start 10700000 10800000 72 0)))).
Proof.
  split; [vm_compute; reflexivity |].
  vm_compute. intros [H _]. apply H. reflexivity.
Qed.

(** ** Lists in ascending sample order *)

Section Sorted_lists.

Variable A : Type.
Variable R : A -> A -> Prop.

Lemma StronglySorted_snoc (l : list A) (x : A) :
  StronglySorted R l -> Forall (fun a => R a x) l -> StronglySorted R (l ++ [x]).
Proof.
  induction l as [| a l IH]; intros Hs Hf; simpl.
  - constructor; constructor.
  - inversion Hs as [| ? ? Hs' Ha]; subst.
    inversion Hf as [| ? ? Hax Hf']; subst.
    constructor.
    + apply IH; assumption.
    + apply Forall_app. split; [assumption | constructor; [assumption | constructor]].
Qed.

Lemma StronglySorted_remove (l1 l2 : list A) (x : A) :
  StronglySorted R (l1 ++ x :: l2) -> StronglySorted R (l1 ++ l2).
Proof.
  induction l1 as [| a l1 IH]; simpl; intros Hs.
  - inversion Hs; assumption.
  - inversion Hs as [| ? ? Hs' Ha]; subst.
    constructor.
    + apply IH; assumption.
    + apply Forall_app in Ha. destruct Ha as [Ha1 Ha2].
      apply Forall_app. split; [assumption |].
      inversion Ha2; assumption.
Qed.

Lemma StronglySorted_app_r (l1 l2 : list A) :
  StronglySorted R (l1 ++ l2) -> StronglySorted R l2.
Proof.
  induction l1 as [| a l1 IH]; simpl; intros Hs.
  - assumption.
  - inversion Hs; subst. apply IH; assumption.
Qed.

End Sorted_lists.

(** ** Peak detector: the sweep *)

Section Sweep.

Variable pts : list blindscan_spectrum_point.
Variable peak_threshold : Z.

(** The fuel [length pts] never runs out before the loop condition
    fails: any two fuels of at least [length pts - i] give the same
    candidates. *)
Lemma sweep_fuel_enough (f1 : nat) :
  forall (f2 i : nat) (cands : list candidate),
    (length pts - i <= f1)%nat -> (length pts - i <= f2)%nat ->
    Detect.sweep_loop pts peak_threshold f1 i cands
    = Detect.sweep_loop pts peak_threshold f2 i cands.
Proof.
  induction f1 as [| f1 IH]; intros f2 i cands H1 H2.
  - destruct f2 as [| f2]; [reflexivity |]. simpl.
    replace (i <? length pts - Detect.half_win)%nat with false; [reflexivity |].
    symmetry. apply Nat.ltb_ge. lia.
  - destruct f2 as [| f2]; simpl.
    + replace (i <? length pts - Detect.half_win)%nat with false; [reflexivity |].
      symmetry. apply Nat.ltb_ge. lia.
    + destruct (Nat.ltb_spec i (length pts - Detect.half_win)) as [Hi | Hi];
        [| reflexivity].
      destruct (length cands <? Detect.max_candidates)%nat; [| reflexivity].
      simpl.
      destruct (Detect.level_at pts i <? peak_threshold).
      * apply IH; lia.
      * destruct (Detect.is_local_max pts i (Detect.level_at pts i));
          apply IH; lia.
Qed.

Lemma sweep_loop_inv (fuel : nat) :
  forall (i : nat) (cands : list candidate),
    (Detect.half_win <= i)%nat ->
    ascending cands ->
    Forall (fun c => (idx c < i)%nat) cands ->
    Forall (cand_ok pts) cands ->
    ascending (Detect.sweep_loop pts peak_threshold fuel i cands) /\
    Forall (cand_ok pts) (Detect.sweep_loop pts peak_threshold fuel i cands).
Proof.
  induction fuel as [| fuel IH]; intros i cands Hi Hs Hlt Hok; simpl.
  - split; assumption.
  - destruct (Nat.ltb_spec i (length pts - Detect.half_win)) as [Hn | Hn];
      [| split; assumption].
    destruct (length cands <? Detect.max_candidates)%nat; [| split; assumption].
    simpl.
    assert (Hlt' : Forall (fun c => (idx c < S i)%nat) cands).
    { eapply Forall_impl; [| exact Hlt]. simpl. intros c Hc. lia. }
    destruct (Detect.level_at pts i <? peak_threshold).
    + apply IH; [lia | assumption ..].
    + destruct (Detect.is_local_max pts i (Detect.level_at pts i)).
      * apply IH.
        -- lia.
        -- apply StronglySorted_snoc; [exact Hs |].
           eapply Forall_impl; [| exact Hlt]. intros c Hc. exact Hc.
        -- apply Forall_app. split.
           ++ eapply Forall_impl; [| exact Hlt]. simpl. intros c Hc. lia.
           ++ constructor; [simpl; lia | constructor].
        -- apply Forall_app. split; [assumption |].
           constructor; [| constructor].
           unfold cand_ok. simpl. repeat split; lia.
      * apply IH; [lia | assumption ..].
Qed.

Lemma find_candidates_fuel (fuel : nat) :
  (length pts <= fuel)%nat ->
  Detect.sweep_loop pts peak_threshold fuel Detect.half_win []
  = Detect.find_candidates pts peak_threshold.
Proof.
  intros H. unfold Detect.find_candidates. apply sweep_fuel_enough; lia.
Qed.

Lemma find_candidates_inv :
  ascending (Detect.find_candidates pts peak_threshold) /\
  Forall (cand_ok pts) (Detect.find_candidates pts peak_threshold).
Proof.
  unfold Detect.find_candidates.
  apply sweep_loop_inv; [lia | constructor | constructor | constructor].
Qed.

End Sweep.

Lemma detect_candidates_inv (sd : blindscan_spectrum_data) (threshold_db : Z) :
  ascending (Detect.detect_candidates sd threshold_db) /\
  Forall (cand_ok (points sd)) (Detect.detect_candidates sd threshold_db).
Proof.
  unfold Detect.detect_candidates.
  destruct (length (points sd) <? 100)%nat.
  - split; constructor.
  - apply find_candidates_inv.
Qed.

(** ** Peak detector: the merge keeps candidates in order *)

Lemma merge_loop_incl (pts : list blindscan_spectrum_point) (rest : list candidate) :
  forall (kept : list candidate) (prev x : candidate),
    In x (Detect.merge_loop pts kept prev rest) ->
    In x kept \/ x = prev \/ In x rest.
Proof.
  induction rest as [| curr rest IH]; intros kept prev x; simpl.
  - intros H. apply in_app_or in H. destruct H as [H | [H | []]]; auto.
  - destruct (Detect.valley_depth pts prev curr >=? Detect.min_valley_depth).
    + intros H. apply IH in H. destruct H as [H | [H | H]]; auto.
      apply in_app_or in H. destruct H as [H | [H | []]]; auto.
    + destruct (level curr >? level prev); intros H; apply IH in H;
        destruct H as [H | [H | H]]; auto.
Qed.

Lemma valley_merge_incl (pts : list blindscan_spectrum_point) (cands : list candidate)
      (x : candidate) :
  In x (Detect.valley_merge pts cands) -> In x cands.
Proof.
  destruct cands as [| c0 rest]; simpl; [auto |].
  intros H. apply merge_loop_incl in H. destruct H as [[] | [H | H]]; auto.
Qed.

Lemma merge_loop_ascending (pts : list blindscan_spectrum_point) (rest : list candidate) :
  forall (kept : list candidate) (prev : candidate),
    ascending (kept ++ prev :: rest) ->
    ascending (Detect.merge_loop pts kept prev rest).
Proof.
  unfold ascending.
  induction rest as [| curr rest IH]; intros kept prev Hs; simpl.
  - exact Hs.
  - destruct (Detect.valley_depth pts prev curr >=? Detect.min_valley_depth).
    + apply IH. rewrite <- app_assoc. exact Hs.
    + destruct (level curr >? level prev).
      * apply IH. eapply StronglySorted_remove. exact Hs.
      * apply IH.
        replace (kept ++ prev :: curr :: rest)
          with ((kept ++ [prev]) ++ curr :: rest) in Hs
          by (rewrite <- app_assoc; reflexivity).
        apply StronglySorted_remove in Hs.
        rewrite <- app_assoc in Hs. exact Hs.
Qed.

Lemma valley_merge_ascending (pts : list blindscan_spectrum_point) (cands : list candidate) :
  ascending cands -> ascending (Detect.valley_merge pts cands).
Proof.
  destruct cands as [| c0 rest]; simpl; [auto |].
  intros H. apply merge_loop_ascending. exact H.
Qed.

Lemma detect_kept_inv (sd : blindscan_spectrum_data) (threshold_db : Z) :
  ascending (Detect.detect_kept sd threshold_db) /\
  Forall (cand_ok (points sd)) (Detect.detect_kept sd threshold_db).
Proof.
  destruct (detect_candidates_inv sd threshold_db) as [Hs Hok].
  unfold Detect.detect_kept. split.
  - apply valley_merge_ascending. exact Hs.
  - apply Forall_forall. intros x Hx. apply valley_merge_incl in Hx.
    rewrite Forall_forall in Hok. apply Hok. exact Hx.
Qed.

(** The peaks returned are the kept candidates, one record each, with
    the candidate's level. *)
Lemma detect_peaks_of_kept (sd : blindscan_spectrum_data) (max_peaks threshold_db : Z) :
  Detect.blindscan_detect_peaks sd max_peaks threshold_db
  = map (Detect.output_peak (points sd) (fst (Detect.min_max_level (points sd))))
        (firstn (Z.to_nat max_peaks) (Detect.detect_kept sd threshold_db)).
Proof.
  unfold Detect.blindscan_detect_peaks, Detect.detect_kept, Detect.detect_candidates,
    Detect.peak_threshold_of.
  cbv zeta.
  destruct (length (points sd) <? 100)%nat.
  - simpl. rewrite firstn_nil. reflexivity.
  - destruct (Detect.find_candidates _ _) as [| c0 rest]; simpl.
    + rewrite firstn_nil. reflexivity.
    + reflexivity.
Qed.

Lemma output_peak_level (pts : list blindscan_spectrum_point) (min_level : Z)
      (c : candidate) :
  pk_level (Detect.output_peak pts min_level c) = level c.
Proof. reflexivity. Qed.

(** C10: the sweep emits only samples whose index [i] satisfies
    10 <= i <= n - 11.  Whatever its level, a sample among the first 10
    or the last 10 of the buffer is neither a candidate nor a kept peak. *)
Theorem sweep_skips_buffer_edges (sd : blindscan_spectrum_data) (threshold_db : Z) :
  Detect.window = 20%nat /\ Detect.half_win = 10%nat /\
  (forall c : candidate,
      In c (Detect.detect_candidates sd threshold_db) ->
      (10 <= idx c /\ idx c <= length (points sd) - 11)%nat) /\
  (forall i : nat,
      (i < 10 \/ length (points sd) - 10 <= i)%nat ->
      ~ In i (map idx (Detect.detect_candidates sd threshold_db)) /\
      ~ In i (map idx (Detect.detect_kept sd threshold_db))).
Proof.
  destruct (detect_candidates_inv sd threshold_db) as [_ Hok].
  destruct (detect_kept_inv sd threshold_db) as [_ Hok'].
  rewrite Forall_forall in Hok, Hok'.
  assert (Hw : Detect.half_win = 10%nat) by reflexivity.
  split; [reflexivity |]. split; [exact Hw |]. split.
  - intros c Hc. destruct (Hok c Hc) as (H1 & H2 & _). lia.
  - intros i Hi. split; intros Hin; apply in_map_iff in Hin;
      destruct Hin as [c [<- Hc]].
    + destruct (Hok c Hc) as (H1 & H2 & _). lia.
    + destruct (Hok' c Hc) as (H1 & H2 & _). lia.
Qed.

Lemma sweep_skips_buffer_edges_witness :
  In (mk_candidate 43 (-4000)) (Detect.detect_candidates Scenario.narrow_carrier 1000) /\
  (10 <= 43 /\ 43 <= length (points Scenario.narrow_carrier) - 11)%nat /\
  ~ In 4%nat (map idx (Detect.detect_candidates Scenario.edge_carrier 1000)) /\
  ~ In 4%nat (map idx (Detect.detect_kept Scenario.edge_carrier 1000)).
Proof.
  assert (Hin : In (mk_candidate 43 (-4000))
                   (Detect.detect_candidates Scenario.narrow_carrier 1000)).
  { vm_compute. left. reflexivity. }
  split; [exact Hin |]. split.
  - exact (proj1 (proj2 (proj2 (sweep_skips_buffer_edges Scenario.narrow_carrier 1000)))
                 (mk_candidate 43 (-4000)) Hin).
  - apply (proj2 (proj2 (proj2 (sweep_skips_buffer_edges Scenario.edge_carrier 1000)))
                 4%nat).
    left. repeat constructor.
Defined.

(** The carrier of [edge_carrier] is not reported at all. *)
Lemma edge_carrier_missed :
  Detect.blindscan_detect_peaks Scenario.edge_carrier 512 1000 = [].
Proof. vm_compute. reflexivity. Qed.

(** ** Peak detector: valleys *)

Lemma weaker_min (a b : candidate) : Detect.weaker a b = Z.min (level a) (level b).
Proof.
  unfold Detect.weaker. destruct (Z.ltb_spec (level a) (level b)); lia.
Qed.

Lemma level_at_in_s32 (pts : list blindscan_spectrum_point) (j : nat) :
  levels_in_s32 pts -> in_s32 (Detect.level_at pts j).
Proof.
  intros H. unfold Detect.level_at.
  destruct (Nat.lt_ge_cases j (length pts)) as [Hj | Hj].
  - unfold levels_in_s32 in H. rewrite Forall_forall in H.
    apply H. apply nth_In. exact Hj.
  - rewrite nth_overflow by exact Hj. unfold in_s32. simpl. lia.
Qed.

Lemma level_at_bounded (pts : list blindscan_spectrum_point) (j : nat) :
  levels_bounded pts -> level_bounded (Detect.level_at pts j).
Proof.
  intros H. unfold Detect.level_at.
  destruct (Nat.lt_ge_cases j (length pts)) as [Hj | Hj].
  - unfold levels_bounded in H. rewrite Forall_forall in H.
    apply H. apply nth_In. exact Hj.
  - rewrite nth_overflow by exact Hj. unfold level_bounded. simpl. lia.
Qed.

Lemma levels_bounded_in_s32 (pts : list blindscan_spectrum_point) :
  levels_bounded pts -> levels_in_s32 pts.
Proof.
  unfold levels_bounded, levels_in_s32. intros H.
  eapply Forall_impl; [| exact H]. intros p. apply level_bounded_in_s32.
Qed.

(** The running minimum of the valley loop. *)
Lemma valley_scan_spec (pts : list blindscan_spectrum_point) (js : list nat) :
  forall init : Z,
    let v := fold_left (fun v j => if Detect.level_at pts j <? v
                                   then Detect.level_at pts j else v) js init in
    v <= init /\
    (forall j, In j js -> v <= Detect.level_at pts j) /\
    (v = init \/ exists j, In j js /\ Detect.level_at pts j = v).
Proof.
  induction js as [| j0 js IH]; intros init; simpl.
  - split; [lia |]. split; [intros j [] | left; reflexivity].
  - specialize (IH (if Detect.level_at pts j0 <? init
                    then Detect.level_at pts j0 else init)).
    simpl in IH. destruct IH as (Hle & Hall & Hex).
    destruct (Z.ltb_spec (Detect.level_at pts j0) init) as [Hlt | Hge].
    + split; [lia |]. split.
      * intros j [<- | Hj]; [exact Hle | apply Hall; exact Hj].
      * right. destruct Hex as [-> | [j [Hj Hv]]].
        -- exists j0. split; [left; reflexivity | reflexivity].
        -- exists j. split; [right; exact Hj | exact Hv].
    + split; [lia |]. split.
      * intros j [<- | Hj]; [lia | apply Hall; exact Hj].
      * destruct Hex as [-> | [j [Hj Hv]]]; [left; reflexivity |].
        right. exists j. split; [right; exact Hj | exact Hv].
Qed.

Lemma in_valley_range (a b : candidate) (j : nat) :
  In j (seq (S (idx a)) (idx b - S (idx a))) <-> (idx a < j < idx b)%nat.
Proof. rewrite in_seq. lia. Qed.

Lemma valley_level_spec (pts : list blindscan_spectrum_point) (a b : candidate) :
  Detect.valley_level pts a b <= Z.min (level a) (level b) /\
  (forall j, (idx a < j < idx b)%nat ->
             Detect.valley_level pts a b <= Detect.level_at pts j) /\
  (Detect.valley_level pts a b = Z.min (level a) (level b) \/
   exists j, (idx a < j < idx b)%nat /\
             Detect.level_at pts j = Detect.valley_level pts a b).
Proof.
  unfold Detect.valley_level.
  pose proof (valley_scan_spec pts (seq (S (idx a)) (idx b - S (idx a)))
                               (Detect.weaker a b)) as H.
  simpl in H. rewrite weaker_min in H. destruct H as (Hle & Hall & Hex).
  rewrite weaker_min.
  split; [exact Hle |]. split.
  - intros j Hj. apply Hall. apply in_valley_range. exact Hj.
  - destruct Hex as [He | [j [Hj Hv]]]; [left; exact He |].
    right. exists j. split; [apply in_valley_range; exact Hj | exact Hv].
Qed.

(** A pair the merge keeps apart has a valley between its two peaks. *)
Lemma valley_depth_sound (pts : list blindscan_spectrum_point) (a b : candidate) :
  levels_in_s32 pts -> in_s32 (level a) -> in_s32 (level b) ->
  (Detect.valley_depth pts a b >=? Detect.min_valley_depth) = true ->
  valley_between pts a b.
Proof.
  intros Hpts Ha Hb Hd.
  destruct (valley_level_spec pts a b) as (Hle & Hall & Hex).
  unfold Detect.valley_depth in Hd. rewrite weaker_min in Hd.
  rewrite Z.geb_leb in Hd. apply Z.leb_le in Hd.
  unfold Detect.min_valley_depth in *.
  assert (Hv : in_s32 (Detect.valley_level pts a b)).
  { destruct Hex as [-> | [j [_ <-]]].
    - unfold in_s32 in *. lia.
    - apply level_at_in_s32. exact Hpts. }
  set (d := Z.min (level a) (level b) - Detect.valley_level pts a b) in *.
  assert (Hd0 : 0 <= d < 4294967296) by (unfold d, in_s32 in *; lia).
  assert (Hd400 : 400 <= d).
  { destruct (Z_lt_ge_dec d 2147483648) as [Hs | Hs].
    - rewrite wrap_s32_small in Hd by (unfold in_s32; lia). exact Hd.
    - rewrite wrap_s32_high in Hd by lia. lia. }
  destruct Hex as [He | [j [Hj Hjv]]].
  - unfold d in Hd400. lia.
  - exists j. split; [exact Hj |].
    unfold Detect.min_valley_depth. unfold d in Hd400. lia.
Qed.

(** Without overflow, a valley between two peaks keeps them apart. *)
Lemma valley_depth_complete (pts : list blindscan_spectrum_point) (a b : candidate) :
  levels_bounded pts -> level_bounded (level a) -> level_bounded (level b) ->
  valley_between pts a b ->
  (Detect.valley_depth pts a b >=? Detect.min_valley_depth) = true.
Proof.
  intros Hpts Ha Hb [j [Hj Hlv]].
  destruct (valley_level_spec pts a b) as (Hle & Hall & Hex).
  unfold Detect.valley_depth. rewrite weaker_min.
  unfold Detect.min_valley_depth in Hlv.
  rewrite Z.geb_leb. apply Z.leb_le.
  unfold Detect.min_valley_depth in *.
  specialize (Hall j Hj).
  assert (Hv : level_bounded (Detect.valley_level pts a b)).
  { destruct Hex as [-> | [k [_ <-]]].
    - unfold level_bounded in *. lia.
    - apply level_at_bounded. exact Hpts. }
  rewrite wrap_s32_small by (unfold in_s32, level_bounded in *; lia).
  lia.
Qed.

Lemma valley_between_trans (pts : list blindscan_spectrum_point) (a b c : candidate) :
  valley_between pts a b -> valley_between pts b c -> valley_between pts a c.
Proof.
  unfold valley_between, Detect.min_valley_depth.
  intros [j1 [H1 L1]] [j2 [H2 L2]].
  destruct (Z_le_gt_dec (level a) (level c)) as [Hac | Hac].
  - exists j1. split; lia.
  - exists j2. split; lia.
Qed.

(** Replacing the right peak by a later, stronger one keeps the valley. *)
Lemma valley_between_replace (pts : list blindscan_spectrum_point) (a b c : candidate) :
  valley_between pts a b -> (idx b <= idx c)%nat -> level b <= level c ->
  valley_between pts a c.
Proof.
  unfold valley_between, Detect.min_valley_depth.
  intros [j [Hj Lj]] Hi Hl. exists j. split; lia.
Qed.

Lemma separated_snoc (pts : list blindscan_spectrum_point) (l : list candidate)
      (a b : candidate) :
  separated pts (l ++ [a]) -> valley_between pts a b ->
  separated pts ((l ++ [a]) ++ [b]).
Proof.
  induction l as [| x l IH]; simpl; intros Hs Hv.
  - split; [exact Hv | exact I].
  - destruct (l ++ [a]) as [| y tl] eqn:E.
    + destruct l; discriminate E.
    + simpl. destruct Hs as [Hxy Hs]. split; [exact Hxy |].
      apply IH; assumption.
Qed.

Lemma separated_replace_last (pts : list blindscan_spectrum_point) (l : list candidate)
      (b c : candidate) :
  separated pts (l ++ [b]) -> (idx b <= idx c)%nat -> level b <= level c ->
  separated pts (l ++ [c]).
Proof.
  induction l as [| x l IH]; simpl; intros Hs Hi Hl.
  - exact I.
  - destruct l as [| y l].
    + simpl in *. destruct Hs as [Hxb _]. split; [| exact I].
      eapply valley_between_replace; eassumption.
    + simpl in *. destruct Hs as [Hxy Hs]. split; [exact Hxy |].
      apply IH; assumption.
Qed.

(** The merge loop keeps every two neighbours of [merged] separated. *)
Lemma merge_loop_separated (pts : list blindscan_spectrum_point) (rest : list candidate) :
  forall (kept : list candidate) (prev : candidate),
    levels_in_s32 pts ->
    Forall (fun c => in_s32 (level c)) (prev :: rest) ->
    ascending (prev :: rest) ->
    separated pts (kept ++ [prev]) ->
    separated pts (Detect.merge_loop pts kept prev rest).
Proof.
  induction rest as [| curr rest IH]; intros kept prev Hpts Hlv Hs Hsep; simpl.
  - exact Hsep.
  - inversion Hlv as [| ? ? Hprev Hlv']; subst.
    inversion Hlv' as [| ? ? Hcurr Hlv'']; subst.
    inversion Hs as [| ? ? Hs' Hall]; subst.
    inversion Hall as [| ? ? Hpc Hall']; subst.
    destruct (Detect.valley_depth pts prev curr >=? Detect.min_valley_depth) eqn:Ed.
    + apply IH; [assumption | assumption | assumption |].
      apply separated_snoc; [exact Hsep |].
      apply valley_depth_sound; assumption.
    + destruct (Z.gtb_spec (level curr) (level prev)) as [Hgt | Hle].
      * apply IH; [assumption | assumption | assumption |].
        eapply separated_replace_last; [exact Hsep | |].
        -- unfold idx_lt in Hpc. lia.
        -- lia.
      * apply IH; [assumption | | | assumption].
        -- constructor; assumption.
        -- inversion Hs'; subst. constructor; assumption.
Qed.

Lemma valley_merge_separated (pts : list blindscan_spectrum_point) (cands : list candidate) :
  levels_in_s32 pts ->
  Forall (fun c => in_s32 (level c)) cands ->
  ascending cands ->
  separated pts (Detect.valley_merge pts cands).
Proof.
  intros Hpts Hlv Hs. destruct cands as [| c0 rest]; simpl; [exact I |].
  apply merge_loop_separated; [assumption | assumption | assumption | exact I].
Qed.

(** On a list whose neighbours are all separated the merge loop keeps
    every candidate. *)
Lemma merge_loop_fixed (pts : list blindscan_spectrum_point) (rest : list candidate) :
  forall (kept : list candidate) (prev : candidate),
    levels_bounded pts ->
    cands_bounded (prev :: rest) ->
    separated pts (prev :: rest) ->
    Detect.merge_loop pts kept prev rest = kept ++ prev :: rest.
Proof.
  induction rest as [| curr rest IH]; intros kept prev Hpts Hb Hsep; simpl.
  - reflexivity.
  - inversion Hb as [| ? ? Hprev Hb']; subst.
    inversion Hb' as [| ? ? Hcurr Hb'']; subst.
    destruct Hsep as [Hv Hsep].
    rewrite (@valley_depth_complete pts prev curr Hpts Hprev Hcurr Hv).
    rewrite IH by assumption.
    rewrite <- app_assoc. reflexivity.
Qed.

(** From neighbours to any two peaks of the list. *)
Lemma separated_head (pts : list blindscan_spectrum_point) (tl : list candidate) :
  forall a q : candidate,
    separated pts (a :: tl) -> In q tl -> valley_between pts a q.
Proof.
  induction tl as [| b tl IH]; intros a q Hsep Hq.
  - destruct Hq.
  - destruct Hsep as [Hab Hsep].
    destruct Hq as [<- | Hq]; [exact Hab |].
    eapply valley_between_trans; [exact Hab |].
    apply IH; assumption.
Qed.

Lemma separated_all_pairs (pts : list blindscan_spectrum_point) (l : list candidate) :
  ascending l -> separated pts l ->
  forall p q : candidate,
    In p l -> In q l -> (idx p < idx q)%nat -> valley_between pts p q.
Proof.
  induction l as [| a tl IH]; intros Hs Hsep p q Hp Hq Hlt.
  - destruct Hp.
  - inversion Hs as [| ? ? Hs' Hall]; subst.
    rewrite Forall_forall in Hall.
    assert (Hsep' : separated pts tl).
    { destruct tl as [| b tl']; [exact I | exact (proj2 Hsep)]. }
    destruct Hp as [<- | Hp]; destruct Hq as [<- | Hq].
    + lia.
    + eapply separated_head; eassumption.
    + specialize (Hall p Hp). unfold idx_lt in Hall. lia.
    + apply IH; assumption.
Qed.

Lemma cand_ok_in_s32 (pts : list blindscan_spectrum_point) (l : list candidate) :
  levels_in_s32 pts -> Forall (cand_ok pts) l -> Forall (fun c => in_s32 (level c)) l.
Proof.
  intros Hpts H. eapply Forall_impl; [| exact H].
  intros c (_ & _ & ->). apply level_at_in_s32. exact Hpts.
Qed.

Lemma cand_ok_bounded (pts : list blindscan_spectrum_point) (l : list candidate) :
  levels_bounded pts -> Forall (cand_ok pts) l -> cands_bounded l.
Proof.
  intros Hpts H. unfold cands_bounded. eapply Forall_impl; [| exact H].
  intros c (_ & _ & ->). apply level_at_bounded. exact Hpts.
Qed.

Lemma detect_kept_separated (sd : blindscan_spectrum_data) (threshold_db : Z) :
  levels_in_s32 (points sd) ->
  separated (points sd) (Detect.detect_kept sd threshold_db).
Proof.
  intros Hpts. destruct (detect_candidates_inv sd threshold_db) as [Hs Hok].
  unfold Detect.detect_kept.
  apply valley_merge_separated; [assumption | | assumption].
  eapply cand_ok_in_s32; eassumption.
Qed.

(** Two kept peaks are two different samples. *)
Lemma ascending_same_idx (l : list candidate) :
  ascending l ->
  forall p q : candidate, In p l -> In q l -> idx p = idx q -> p = q.
Proof.
  induction l as [| a tl IH]; intros Hs p q Hp Hq E.
  - destruct Hp.
  - inversion Hs as [| ? ? Hs' Hall]; subst.
    rewrite Forall_forall in Hall.
    destruct Hp as [<- | Hp]; destruct Hq as [<- | Hq].
    + reflexivity.
    + specialize (Hall q Hq). unfold idx_lt in Hall. lia.
    + specialize (Hall p Hp). unfold idx_lt in Hall. lia.
    + apply IH; assumption.
Qed.

Lemma kept_peaks_distinct (sd : blindscan_spectrum_data) (threshold_db : Z)
      (p q : candidate) :
  In p (Detect.detect_kept sd threshold_db) ->
  In q (Detect.detect_kept sd threshold_db) ->
  p <> q -> (idx p < idx q)%nat \/ (idx q < idx p)%nat.
Proof.
  intros Hp Hq Hne.
  destruct (detect_kept_inv sd threshold_db) as [Hs _].
  destruct (Nat.lt_trichotomy (idx p) (idx q)) as [H | [H | H]]; auto.
  exfalso. apply Hne. eapply ascending_same_idx; eassumption.
Qed.

(** C4, as the code has it: between any two kept peaks of the detector
    some sample lies at least 400 (0.01 dB) below the weaker of the two
    peak levels: kept peaks are separated by a valley, they are not
    joined by a plateau. *)
Theorem kept_peaks_have_valley (sd : blindscan_spectrum_data) (threshold_db : Z)
        (p q : candidate) :
  levels_in_s32 (points sd) ->
  In p (Detect.detect_kept sd threshold_db) ->
  In q (Detect.detect_kept sd threshold_db) ->
  (idx p < idx q)%nat ->
  exists j : nat,
    (idx p < j < idx q)%nat /\
    Detect.level_at (points sd) j <= Z.min (level p) (level q) - 400.
Proof.
  intros Hpts Hp Hq Hlt.
  destruct (detect_kept_inv sd threshold_db) as [Hs _].
  exact (@separated_all_pairs (points sd) (Detect.detect_kept sd threshold_db) Hs
                              (@detect_kept_separated sd threshold_db Hpts)
                              p q Hp Hq Hlt).
Qed.

Lemma two_carriers_kept :
  Detect.detect_kept Scenario.two_carriers 1000
  = [mk_candidate 40 (-4000); mk_candidate 120 (-4000)].
Proof. vm_compute. reflexivity. Qed.

Lemma bump_spectrum_levels (n : nat) (bumps : list (nat * nat)) :
  levels_bounded (points (Scenario.bump_spectrum n bumps)).
Proof.
  unfold levels_bounded, Scenario.bump_spectrum. cbn [points].
  apply Forall_forall. intros p Hp.
  apply in_map_iff in Hp. destruct Hp as [i [<- _]]. cbn [pt_level].
  destruct (existsb _ _); unfold level_bounded; lia.
Qed.

Lemma two_carriers_levels : levels_in_s32 (points Scenario.two_carriers).
Proof. apply levels_bounded_in_s32. apply bump_spectrum_levels. Qed.

Lemma kept_peaks_have_valley_witness :
  exists j : nat,
    (40 < j < 120)%nat /\
    Detect.level_at (points Scenario.two_carriers) j <= Z.min (-4000) (-4000) - 400.
Proof.
  apply (@kept_peaks_have_valley Scenario.two_carriers 1000
           (mk_candidate 40 (-4000)) (mk_candidate 120 (-4000))).
  - exact two_carriers_levels.
  - rewrite two_carriers_kept. left. reflexivity.
  - rewrite two_carriers_kept. right. left. reflexivity.
  - simpl. lia.
Defined.

(** C4 as stated fails: in [two_carriers] both carriers are kept and
    sample 80, between them, lies at the noise level -7000, below
    -4000 - 400. *)
Lemma kept_peaks_deep_valley_counterexample :
  ~ (forall (p q : candidate) (j : nat),
        In p (Detect.detect_kept Scenario.two_carriers 1000) ->
        In q (Detect.detect_kept Scenario.two_carriers 1000) ->
        (idx p < j < idx q)%nat ->
        Detect.level_at (points Scenario.two_carriers) j
        >= Z.min (level p) (level q) - 400).
Proof.
  intros H.
  specialize (H (mk_candidate 40 (-4000)) (mk_candidate 120 (-4000)) 80%nat).
  rewrite two_carriers_kept in H.
  assert (Hc : Detect.level_at (points Scenario.two_carriers) 80 = -7000)
    by (vm_compute; reflexivity).
  rewrite Hc in H. simpl in H.
  specialize (H (or_introl eq_refl) (or_intror (or_introl eq_refl))).
  lia.
Qed.

(** ** Peak detector: the merge is idempotent *)

Lemma valley_merge_idempotent_on (pts : list blindscan_spectrum_point)
      (cands : list candidate) :
  levels_bounded pts -> cands_bounded cands -> ascending cands ->
  Detect.valley_merge pts (Detect.valley_merge pts cands)
  = Detect.valley_merge pts cands.
Proof.
  intros Hpts Hb Hs.
  assert (Hsep : separated pts (Detect.valley_merge pts cands)).
  { apply valley_merge_separated; [| | exact Hs].
    - apply levels_bounded_in_s32. exact Hpts.
    - eapply Forall_impl; [| exact Hb]. intros c. apply level_bounded_in_s32. }
  assert (Hb' : cands_bounded (Detect.valley_merge pts cands)).
  { apply Forall_forall. intros x Hx. apply valley_merge_incl in Hx.
    unfold cands_bounded in Hb. rewrite Forall_forall in Hb. apply Hb. exact Hx. }
  destruct (Detect.valley_merge pts cands) as [| k0 ks]; [reflexivity |].
  simpl. apply (@merge_loop_fixed pts ks [] k0 Hpts Hb' Hsep).
Qed.

(** C9: the valley merge is idempotent.  For every buffer and every
    candidate list over it (candidates in ascending sample order, as the
    sweep emits them; levels for which the [int32_t] depth does not
    overflow), merging the merged list again returns it unchanged. *)
Theorem valley_merge_idempotent (pts : list blindscan_spectrum_point)
        (cands : list candidate) :
  levels_bounded pts -> cands_bounded cands -> ascending cands ->
  Detect.valley_merge pts (Detect.valley_merge pts cands)
  = Detect.valley_merge pts cands.
Proof. exact (@valley_merge_idempotent_on pts cands). Qed.

(** In the detector itself: merging the kept peaks again changes
    nothing. *)
Lemma detect_kept_idempotent (sd : blindscan_spectrum_data) (threshold_db : Z) :
  levels_bounded (points sd) ->
  Detect.valley_merge (points sd) (Detect.detect_kept sd threshold_db)
  = Detect.detect_kept sd threshold_db.
Proof.
  intros Hpts. destruct (detect_candidates_inv sd threshold_db) as [Hs Hok].
  unfold Detect.detect_kept.
  apply valley_merge_idempotent_on; [assumption | | assumption].
  eapply cand_ok_bounded; eassumption.
Qed.

Lemma valley_merge_idempotent_witness :
  Detect.valley_merge (points Scenario.narrow_carrier)
    (Detect.valley_merge (points Scenario.narrow_carrier)
       [mk_candidate 43 (-4000); mk_candidate 54 (-4000)])
  = Detect.valley_merge (points Scenario.narrow_carrier)
      [mk_candidate 43 (-4000); mk_candidate 54 (-4000)].
Proof.
  apply valley_merge_idempotent.
  - apply bump_spectrum_levels.
  - repeat constructor; simpl; lia.
  - repeat constructor; unfold idx_lt; simpl; lia.
Defined.

(** The two candidates of [narrow_carrier] are merged into one. *)
Lemma narrow_carrier_merged :
  Detect.detect_candidates Scenario.narrow_carrier 1000
  = [mk_candidate 43 (-4000); mk_candidate 54 (-4000)] /\
  Detect.detect_kept Scenario.narrow_carrier 1000 = [mk_candidate 43 (-4000)].
Proof. split; vm_compute; reflexivity. Qed.

(** ** Prescan: stream id and MATYPE *)

Lemma decode_stream_id_no_filter : Prescan.decode_stream_id 511 = -1.
Proof. reflexivity. Qed.

Lemma decode_stream_id_isi (k : Z) :
  256 <= k <= 510 -> Prescan.decode_stream_id k = k - 256.
Proof.
  intros H. unfold Prescan.decode_stream_id.
  rewrite wrap_s32_small by (unfold in_s32; lia).
  destruct (Z.eqb_spec k 511); [lia |].
  rewrite Z.geb_leb.
  destruct (Z.leb_spec 256 k); [| lia].
  destruct (Z.ltb_spec k 511); [reflexivity | lia].
Qed.

Lemma decode_stream_id_plain (k : Z) :
  0 <= k <= 255 -> Prescan.decode_stream_id k = k.
Proof.
  intros H. unfold Prescan.decode_stream_id.
  rewrite wrap_s32_small by (unfold in_s32; lia).
  destruct (Z.eqb_spec k 511); [lia |].
  rewrite Z.geb_leb.
  destruct (Z.leb_spec 256 k); [lia | reflexivity].
Qed.

(** The TS/GS field of the MATYPE byte is 3 exactly when bits 7 and 6 of
    the word are both set. *)
Lemma ts_gs_is_3 (matype : Z) :
  Z.land (Z.shiftr (Z.land matype 255) 6) 3 = 3 <->
  Z.testbit matype 7 = true /\ Z.testbit matype 6 = true.
Proof.
  set (x := Z.land (Z.shiftr (Z.land matype 255) 6) 3).
  assert (B0 : Z.testbit x 0 = Z.testbit matype 6).
  { unfold x. rewrite Z.land_spec, Z.shiftr_spec by lia.
    rewrite Z.land_spec. simpl Z.add.
    change (Z.testbit 255 6) with true. change (Z.testbit 3 0) with true.
    rewrite !Bool.andb_true_r. reflexivity. }
  assert (B1 : Z.testbit x 1 = Z.testbit matype 7).
  { unfold x. rewrite Z.land_spec, Z.shiftr_spec by lia.
    rewrite Z.land_spec. simpl Z.add.
    change (Z.testbit 255 7) with true. change (Z.testbit 3 1) with true.
    rewrite !Bool.andb_true_r. reflexivity. }
  assert (R : 0 <= x < 4).
  { unfold x. change 3 with (Z.ones 2). rewrite Z.land_ones by lia.
    apply Z.mod_pos_bound. reflexivity. }
  split.
  - intros E. rewrite E in B0, B1. split; symmetry; assumption.
  - intros [H7 H6]. rewrite H6 in B0. rewrite H7 in B1.
    assert (C : x = 0 \/ x = 1 \/ x = 2 \/ x = 3) by lia.
    destruct C as [C | [C | [C | C]]]; rewrite C in B0, B1;
      solve [discriminate B0 | discriminate B1 | exact C].
Qed.

(** C8: after a locked prescan [is_gse] holds exactly when the decoded
    stream id is non-negative, the 32-bit MATYPE is non-zero and bits
    7-6 of its low byte are not both set; [pls_mode] is bits 26-27 of
    MATYPE and [pls_code] bits 8-25; a MATYPE of 0 is never GSE.  (For
    driver headers that define [DTV_MATYPE].) *)
Theorem prescan_gse_classification (have_DTV_MATYPE : bool) (raw_stream_id matype : Z) :
  have_DTV_MATYPE = true ->
  let stream_id := fst (Prescan.prescan_decode have_DTV_MATYPE raw_stream_id matype) in
  let info := snd (Prescan.prescan_decode have_DTV_MATYPE raw_stream_id matype) in
  stream_id = Prescan.decode_stream_id raw_stream_id /\
  (Prescan.mi_is_gse info = true <->
   stream_id >= 0 /\ matype <> 0 /\
   ~ (Z.testbit matype 7 = true /\ Z.testbit matype 6 = true)) /\
  Prescan.mi_pls_mode info = (matype / 2 ^ 26) mod 4 /\
  Prescan.mi_pls_code info = (matype / 2 ^ 8) mod 2 ^ 18 /\
  (matype = 0 -> Prescan.mi_is_gse info = false).
Proof.
  intros ->. unfold Prescan.prescan_decode, Prescan.decode_matype. cbn [fst snd].
  cbn [Prescan.mi_is_gse Prescan.mi_pls_mode Prescan.mi_pls_code].
  split; [reflexivity |]. split; [| split; [| split]].
  - rewrite !Bool.andb_true_iff, !Bool.negb_true_iff.
    rewrite Z.geb_leb, Z.leb_le, !Z.eqb_neq.
    rewrite <- ts_gs_is_3. split.
    + intros [[H1 H2] H3]. repeat split; [lia | exact H2 | exact H3].
    + intros (H1 & H2 & H3). repeat split; [lia | exact H2 | exact H3].
  - change 3 with (Z.ones 2). rewrite Z.land_ones by lia.
    rewrite Z.shiftr_div_pow2 by lia. reflexivity.
  - change 262143 with (Z.ones 18). rewrite Z.land_ones by lia.
    rewrite Z.shiftr_div_pow2 by lia. reflexivity.
  - intros ->. rewrite Bool.andb_false_r. reflexivity.
Qed.

Lemma prescan_gse_classification_witness :
  let stream_id := fst (Prescan.prescan_decode true 258 67109248) in
  let info := snd (Prescan.prescan_decode true 258 67109248) in
  stream_id = Prescan.decode_stream_id 258 /\
  (Prescan.mi_is_gse info = true <->
   stream_id >= 0 /\ 67109248 <> 0 /\
   ~ (Z.testbit 67109248 7 = true /\ Z.testbit 67109248 6 = true)) /\
  Prescan.mi_pls_mode info = (67109248 / 2 ^ 26) mod 4 /\
  Prescan.mi_pls_code info = (67109248 / 2 ^ 8) mod 2 ^ 18 /\
  (67109248 = 0 -> Prescan.mi_is_gse info = false).
Proof. exact (@prescan_gse_classification true 258 67109248 eq_refl). Defined.

(** A multistream carrier (ISI 2) with a GS-continuous MATYPE, GOLD
    code 1, is GSE; a carrier without stream filter is not. *)
Lemma prescan_decode_examples :
  Prescan.prescan_decode true 258 67109248
  = (2, Prescan.mk_matype_info 1 1 true) /\
  Prescan.prescan_decode true 511 67109248
  = (-1, Prescan.mk_matype_info 1 1 false) /\
  Prescan.prescan_decode true 258 0 = (2, Prescan.mk_matype_info 0 0 false).
Proof. repeat split; vm_compute; reflexivity. Qed.

(** ** Worker: the peak list *)

Section Peak_list.

Import Worker.

Variable env : environment.

Lemma insert_peak_latest_first (peak : blindscan_peak) (bs : blindscan_session) :
  peaks_latest_first bs -> peaks_latest_first (insert_peak peak bs).
Proof.
  unfold peaks_latest_first. simpl. intros ->.
  rewrite rev_app_distr. reflexivity.
Qed.

Lemma add_peaks_latest_first (pol_is_v : bool)
      (driver_peaks : list blindscan_spectral_peak) :
  forall bs : blindscan_session,
    peaks_latest_first bs -> peaks_latest_first (add_peaks env pol_is_v driver_peaks bs).
Proof.
  unfold add_peaks.
  induction driver_peaks as [| dp rest IH]; intros bs H; simpl.
  - exact H.
  - apply IH. apply insert_peak_latest_first. exact H.
Qed.

(** The slice loop writes progress only. *)
Lemma slice_loop_keeps_peaks (pol_is_v : bool)
      (b band_start band_end total_steps total_scans : Z) (steps : list nat) :
  forall (w : worker_state) (pts : list blindscan_spectrum_point)
         (driver_peaks : list blindscan_spectral_peak),
    peaks_latest_first (w_bs w) ->
    peaks_latest_first
      (w_bs (fst (fst (slice_loop env pol_is_v b band_start band_end total_steps
                                  total_scans steps w pts driver_peaks)))).
Proof.
  induction steps as [| step steps IH]; intros w pts driver_peaks H; simpl.
  - exact H.
  - destruct (should_stop env (w_clock w)); [exact H |].
    destruct (send_unicable_command env _ _ _ _); simpl.
    + destruct (acquire_unicable_slice env _ _ _) as [[slice_points slice_peaks] |];
        apply IH; exact H.
    + apply IH. exact H.
Qed.

Lemma acquire_slot_keeps_peaks (total_scans : Z) (pol_is_v : bool) (b : Z)
      (w : worker_state) :
  peaks_latest_first (w_bs w) ->
  peaks_latest_first (w_bs (fst (fst (acquire_slot env total_scans pol_is_v b w)))).
Proof.
  intros H. unfold acquire_slot.
  destruct (lse_en50494 env) as [le_frequency |].
  - match goal with
    | |- context [slice_loop ?e ?p ?b0 ?bs ?be ?ts ?tt ?st ?w0 ?pt ?dp] =>
        pose proof (@slice_loop_keeps_peaks p b0 bs be ts tt st w0 pt dp H) as Hl;
        destruct (slice_loop e p b0 bs be ts tt st w0 pt dp) as [[w' pts'] dp']
    end.
    exact Hl.
  - destruct (configure_lnb env _ _ _); simpl; [| exact H].
    destruct (acquire_spectrum_neumo env _ _ _) as [[sd peaks] |]; exact H.
Qed.

Lemma scan_slot_latest_first (total_scans : Z) (pol_is_v : bool) (b : Z)
      (w : worker_state) :
  peaks_latest_first (w_bs w) ->
  peaks_latest_first (w_bs (scan_slot env total_scans pol_is_v b w)).
Proof.
  intros H. unfold scan_slot.
  match goal with
  | |- context [acquire_slot env total_scans pol_is_v b ?w0] =>
      pose proof (@acquire_slot_keeps_peaks total_scans pol_is_v b w0 H) as Ha;
      destruct (acquire_slot env total_scans pol_is_v b w0) as [[w' sd] dp]
  end.
  simpl in Ha. destruct sd as [sd |]; [| exact Ha].
  simpl. apply add_peaks_latest_first. exact Ha.
Qed.

Lemma band_loop_latest_first (total_scans : Z) (pol_is_v : bool) (bands : list Z) :
  forall w : worker_state,
    peaks_latest_first (w_bs w) ->
    peaks_latest_first (w_bs (band_loop env total_scans pol_is_v bands w)).
Proof.
  induction bands as [| b bands IH]; intros w H; simpl.
  - exact H.
  - destruct (should_stop env (w_clock w)); [exact H |].
    apply IH. apply scan_slot_latest_first. exact H.
Qed.

Lemma pol_loop_latest_first (total_scans : Z) (bands : list Z) (pols : list bool) :
  forall w : worker_state,
    peaks_latest_first (w_bs w) ->
    peaks_latest_first (w_bs (pol_loop env total_scans pols bands w)).
Proof.
  induction pols as [| pol_is_v pols IH]; intros w H; simpl.
  - exact H.
  - destruct (should_stop env (w_clock w)); [exact H |].
    apply IH. apply band_loop_latest_first. exact H.
Qed.

Lemma blindscan_worker_latest_first (bs : blindscan_session) :
  peaks_latest_first bs -> peaks_latest_first (blindscan_worker env bs).
Proof.
  intros H. unfold blindscan_worker.
  destruct (lfe_fe_fd env <=? 0); [exact H |].
  destruct (negb (lfe_neumo_supported env)); [exact H |].
  match goal with
  | |- context [pol_loop env ?t ?ps ?bs0 ?w0] =>
      pose proof (@pol_loop_latest_first t bs0 ps w0 H) as Hl;
      destruct (pol_loop env t ps bs0 w0) as [bs' clock' scan']
  end.
  simpl in *. destruct (should_stop env clock'); exact Hl.
Qed.

End Peak_list.

(** The report goes through the peak list from its head. *)
Lemma report_loop_map (muxes : list dvb_mux) (peaks : list blindscan_peak) :
  Report.report_loop muxes peaks
  = (map (fun p => fst (Report.report_peak muxes p)) peaks,
     map (fun p => snd (Report.report_peak muxes p)) peaks).
Proof.
  unfold Report.report_loop.
  assert (G : forall (msgs : list Report.peak_report) (out : list blindscan_peak),
             fold_left
               (fun acc peak =>
                  let (r, peak') := Report.report_peak muxes peak in
                  (Report.htsmsg_add_msg (fst acc) r, snd acc ++ [peak']))
               peaks (msgs, out)
             = (msgs ++ map (fun p => fst (Report.report_peak muxes p)) peaks,
                out ++ map (fun p => snd (Report.report_peak muxes p)) peaks)).
  { induction peaks as [| p peaks IH]; intros msgs out; simpl.
    - rewrite !app_nil_r. reflexivity.
    - destruct (Report.report_peak muxes p) as [r p'] eqn:E. simpl.
      rewrite IH. unfold Report.htsmsg_add_msg.
      rewrite <- !app_assoc. reflexivity. }
  apply (G [] []).
Qed.

(** C5, as the code has it: the worker inserts every peak at the head
    of the session's list and the peaks operation reports the list from
    its head, so the answer presents the peaks in the reverse of the
    order in which the worker inserted them, the latest first. *)
Theorem peaks_report_latest_first (env env' : Worker.environment)
        (start_freq end_freq pol peak_detect : Z) :
  let bs := Worker.blindscan_worker env
              (Worker.linuxdvb_blindscan_start start_freq end_freq pol peak_detect) in
  fst (fst (Report.linuxdvb_blindscan_peaks env' bs))
  = map (fun p => fst (Report.report_peak (Worker.mn_muxes env') p))
        (rev (Worker.insert_log bs)).
Proof.
  intros bs. unfold Report.linuxdvb_blindscan_peaks.
  rewrite report_loop_map. cbn [fst].
  assert (H : peaks_latest_first bs).
  { apply blindscan_worker_latest_first. reflexivity. }
  rewrite H. reflexivity.
Qed.

(** C5 as stated fails: the driver returns the candidates 11 000 000 and
    11 500 000 kHz, the worker inserts them in that order and the report
    lists 11 500 000 first. *)
Lemma peaks_report_order_counterexample :
  let env := Scenario.direct_env Scenario.quiet_spectrum Scenario.two_candidates in
  let bs := Worker.blindscan_worker env
              (Worker.linuxdvb_blindscan_start 10700000 11700000 72 0) in
  map bp_frequency (Worker.insert_log bs) = [11000000; 11500000] /\
  map Report.r_frequency (fst (fst (Report.linuxdvb_blindscan_peaks env bs)))
  = [11500000; 11000000] /\
  map Report.r_frequency (fst (fst (Report.linuxdvb_blindscan_peaks env bs)))
  <> map bp_frequency (Worker.insert_log bs).
Proof.
  repeat split; try (vm_compute; reflexivity).
  vm_compute. intros H. discriminate H.
Qed.

(** ** Worker: the scan plan of an empty range *)

Section Empty_plan.

Import Worker.

Variable env : environment.
Hypothesis never_stopped : forall k : nat, should_stop env k = false.

(** Without a band the loops only poll the stop flag. *)
Lemma pol_loop_no_band (total_scans : Z) (pols : list bool) :
  forall w : worker_state, w_bs (pol_loop env total_scans pols [] w) = w_bs w.
Proof.
  induction pols as [| pol_is_v pols IH]; intros w; simpl.
  - reflexivity.
  - rewrite never_stopped. rewrite IH. reflexivity.
Qed.

Lemma blindscan_worker_no_band (bs : blindscan_session) :
  lfe_fe_fd env > 0 -> lfe_neumo_supported env = true ->
  band_list bs = [] ->
  blindscan_worker env bs
  = write_progress 100 (write_state BLINDSCAN_STATE_COMPLETE bs).
Proof.
  intros Hfd Hneumo Hbands. unfold blindscan_worker.
  destruct (Z.leb_spec (lfe_fe_fd env) 0); [lia |].
  rewrite Hneumo, Hbands. simpl negb. cbv iota.
  unfold poll_stop. rewrite never_stopped.
  unfold tick. cbn [w_bs].
  rewrite pol_loop_no_band. reflexivity.
Qed.

End Empty_plan.

Lemma band_list_empty_iff (bs : Worker.blindscan_session) :
  Worker.band_list bs = [] <->
  BLINDSCAN_LNB_SLOF <= Worker.bs_start_freq bs /\
  Worker.bs_end_freq bs <= BLINDSCAN_LNB_SLOF.
Proof.
  unfold Worker.band_list. rewrite Z.gtb_ltb.
  destruct (Z.ltb_spec (Worker.bs_start_freq bs) BLINDSCAN_LNB_SLOF);
    destruct (Z.ltb_spec BLINDSCAN_LNB_SLOF (Worker.bs_end_freq bs));
    simpl; split; intros Hyp; try discriminate Hyp; try lia; reflexivity.
Qed.

Lemma scan_slots_no_band (bs : Worker.blindscan_session) :
  Worker.band_list bs = [] -> Worker.scan_slots bs = [].
Proof.
  intros Hb. unfold Worker.scan_slots. rewrite Hb.
  generalize (Worker.pol_list bs). intros l.
  induction l as [| p l IH]; simpl; [reflexivity | exact IH].
Qed.

Lemma scan_slots_one_band (bs : Worker.blindscan_session) (b : Z) :
  Worker.band_list bs = [b] ->
  Worker.scan_slots bs = map (fun p => (p, b)) (Worker.pol_list bs).
Proof.
  intros Hb. unfold Worker.scan_slots. rewrite Hb.
  generalize (Worker.pol_list bs). intros l.
  induction l as [| p l IH]; simpl; [reflexivity | f_equal; exact IH].
Qed.

Lemma pol_list_of_start (start_freq end_freq pol peak_detect : Z) :
  let bs := Worker.linuxdvb_blindscan_start start_freq end_freq pol peak_detect in
  Worker.pol_list bs = [false] \/ Worker.pol_list bs = [true]
  \/ Worker.pol_list bs = [false; true].
Proof.
  unfold Worker.linuxdvb_blindscan_start, Worker.pol_list. cbn [Worker.bs_polarisation].
  destruct (Prescan.pol_is_h pol); [left; reflexivity |].
  destruct (Prescan.pol_is_v pol); [right; left; reflexivity |].
  right; right; reflexivity.
Qed.

(** C6, as the code has it: the bands are chosen by comparing the two
    ends of the range with the switch frequency 11 700 000 kHz.  A
    session with end_freq = start_freq builds no slot only when that
    frequency is 11 700 000: then, on an open frontend with spectrum
    support and without a stop request, it completes at once in state
    complete, progress 100, with zero peaks.  For any other frequency it
    builds one slot per selected polarisation, in the band of that
    frequency. *)
Theorem equal_range_plan (env : Worker.environment) (f pol peak_detect : Z) :
  Worker.lfe_fe_fd env > 0 ->
  Worker.lfe_neumo_supported env = true ->
  (forall k : nat, Worker.should_stop env k = false) ->
  let bs0 := Worker.linuxdvb_blindscan_start f f pol peak_detect in
  let bs := Worker.blindscan_worker env bs0 in
  Worker.pol_list bs0 <> [] /\
  (f = BLINDSCAN_LNB_SLOF ->
   Worker.scan_slots bs0 = [] /\
   bs = Worker.write_progress 100 (Worker.write_state BLINDSCAN_STATE_COMPLETE bs0) /\
   Worker.bs_state bs = BLINDSCAN_STATE_COMPLETE /\
   Worker.bs_progress bs = 100 /\
   Worker.bs_peaks bs = [] /\
   Worker.bs_peak_count bs = 0) /\
  (f <> BLINDSCAN_LNB_SLOF ->
   Worker.scan_slots bs0
   = map (fun p => (p, if f <? BLINDSCAN_LNB_SLOF then 0 else 1)) (Worker.pol_list bs0)).
Proof.
  intros Hfd Hneumo Hstop bs0 bs.
  pose proof (pol_list_of_start f f pol peak_detect) as Hpol. cbv zeta in Hpol.
  fold bs0 in Hpol.
  split; [| split].
  - destruct Hpol as [E | [E | E]]; rewrite E; discriminate.
  - intros Hf.
    assert (Hb : Worker.band_list bs0 = []).
    { apply band_list_empty_iff. unfold bs0. simpl. lia. }
    assert (Hw : bs = Worker.write_progress 100
                        (Worker.write_state BLINDSCAN_STATE_COMPLETE bs0)).
    { unfold bs. apply blindscan_worker_no_band; assumption. }
    split; [apply scan_slots_no_band; exact Hb |].
    split; [exact Hw |]. rewrite Hw. repeat split.
  - intros Hf. apply scan_slots_one_band.
    unfold Worker.band_list, bs0. simpl. rewrite Z.gtb_ltb.
    destruct (Z.ltb_spec f BLINDSCAN_LNB_SLOF);
      destruct (Z.ltb_spec BLINDSCAN_LNB_SLOF f); simpl; try reflexivity; lia.
Qed.

Lemma equal_range_plan_witness :
  let env := Scenario.direct_env Scenario.quiet_spectrum Scenario.one_candidate in
  let bs0 := Worker.linuxdvb_blindscan_start 11700000 11700000 72 0 in
  let bs := Worker.blindscan_worker env bs0 in
  Worker.pol_list bs0 <> [] /\
  (11700000 = BLINDSCAN_LNB_SLOF ->
   Worker.scan_slots bs0 = [] /\
   bs = Worker.write_progress 100 (Worker.write_state BLINDSCAN_STATE_COMPLETE bs0) /\
   Worker.bs_state bs = BLINDSCAN_STATE_COMPLETE /\
   Worker.bs_progress bs = 100 /\
   Worker.bs_peaks bs = [] /\
   Worker.bs_peak_count bs = 0) /\
  (11700000 <> BLINDSCAN_LNB_SLOF ->
   Worker.scan_slots bs0
   = map (fun p => (p, if 11700000 <? BLINDSCAN_LNB_SLOF then 0 else 1))
         (Worker.pol_list bs0)).
Proof.
  apply (@equal_range_plan
           (Scenario.direct_env Scenario.quiet_spectrum Scenario.one_candidate)
           11700000 72 0).
  - simpl. lia.
  - reflexivity.
  - intros k. reflexivity.
Defined.

(** C6 as stated fails: a session with start_freq = end_freq =
    10 700 000 kHz and polarisation H has the slot (H, low); with a
    driver that answers with one candidate it ends with one peak. *)
Lemma equal_range_counterexample :
  let env := Scenario.direct_env Scenario.quiet_spectrum Scenario.one_candidate in
  let bs0 := Worker.linuxdvb_blindscan_start 10700000 10700000 72 0 in
  let bs := Worker.blindscan_worker env bs0 in
  Worker.bs_end_freq bs0 = Worker.bs_start_freq bs0 /\
  Worker.scan_slots bs0 = [(false, 0)] /\
  Worker.bs_state bs = BLINDSCAN_STATE_COMPLETE /\
  Worker.bs_peak_count bs = 1 /\
  map bp_frequency (Worker.bs_peaks bs) = [10700000].
Proof. repeat split; vm_compute; reflexivity. Qed.

(** ** Worker: the range of progress *)

Section Progress_range.

Import Worker.

Variable env : environment.
Variable total_scans : Z.

Lemma write_progress_ok (v : Z) (bs : blindscan_session) :
  0 <= v <= 100 -> progress_ok bs -> progress_ok (write_progress v bs).
Proof.
  intros Hv [_ Hlog]. split; simpl; [exact Hv |].
  apply Forall_app. split; [exact Hlog | constructor; [exact Hv | constructor]].
Qed.

Lemma add_peaks_progress (pol_is_v : bool) (driver_peaks : list blindscan_spectral_peak) :
  forall bs : blindscan_session,
    bs_progress (add_peaks env pol_is_v driver_peaks bs) = bs_progress bs /\
    progress_log (add_peaks env pol_is_v driver_peaks bs) = progress_log bs.
Proof.
  unfold add_peaks.
  induction driver_peaks as [| dp rest IH]; intros bs; simpl.
  - split; reflexivity.
  - destruct (IH (insert_peak (new_peak env pol_is_v dp) bs)) as [H1 H2].
    rewrite H1, H2. split; reflexivity.
Qed.

Lemma slice_loop_progress_ok (pol_is_v : bool) (b band_start band_end total_steps : Z)
      (steps : list nat) :
  forall (w : worker_state) (pts : list blindscan_spectrum_point)
         (driver_peaks : list blindscan_spectral_peak),
    1 <= w_current_scan w <= total_scans ->
    Forall (fun s => Z.of_nat s < total_steps) steps ->
    progress_ok (w_bs w) ->
    let w' := fst (fst (slice_loop env pol_is_v b band_start band_end total_steps
                                   total_scans steps w pts driver_peaks)) in
    progress_ok (w_bs w') /\ w_current_scan w' = w_current_scan w.
Proof.
  induction steps as [| step steps IH]; intros w pts driver_peaks Hc Hsteps Hok; simpl.
  - split; [exact Hok | reflexivity].
  - inversion Hsteps as [| ? ? Hstep Hsteps']; subst.
    destruct (should_stop env (w_clock w)); [split; [exact Hok | reflexivity] |].
    assert (Hv : 0 <= slice_progress (w_current_scan w) total_scans
                                     (Z.of_nat step) total_steps <= 100).
    { pose proof (@slice_progress_le_slot (w_current_scan w) total_scans
                    (Z.of_nat step) total_steps ltac:(lia) ltac:(lia) ltac:(lia)).
      pose proof (@slot_progress_range (w_current_scan w) total_scans Hc). lia. }
    pose proof (write_progress_ok Hv Hok) as Hok'.
    assert (Step : forall w0 pts0 dp0,
               w_bs w0 = write_progress
                           (slice_progress (w_current_scan w) total_scans
                                           (Z.of_nat step) total_steps) (w_bs w) ->
               w_current_scan w0 = w_current_scan w ->
               progress_ok
                 (w_bs (fst (fst (slice_loop env pol_is_v b band_start band_end
                                             total_steps total_scans steps w0 pts0 dp0))))
               /\ w_current_scan
                    (fst (fst (slice_loop env pol_is_v b band_start band_end
                                          total_steps total_scans steps w0 pts0 dp0)))
                  = w_current_scan w).
    { intros w0 pts0 dp0 E1 E2.
      destruct (IH w0 pts0 dp0) as [I1 I2];
        [rewrite E2; exact Hc | exact Hsteps' | rewrite E1; exact Hok' |].
      split; [exact I1 | rewrite I2; exact E2]. }
    destruct (send_unicable_command env _ _ _ _); simpl.
    + destruct (acquire_unicable_slice env _ _ _) as [[slice_points slice_peaks] |];
        apply Step; reflexivity.
    + apply Step; reflexivity.
Qed.

Lemma scan_slot_progress_ok (pol_is_v : bool) (b : Z) (w : worker_state) :
  0 <= w_current_scan w -> w_current_scan w + 1 <= total_scans ->
  progress_ok (w_bs w) ->
  progress_ok (w_bs (scan_slot env total_scans pol_is_v b w)) /\
  w_current_scan (scan_slot env total_scans pol_is_v b w) = w_current_scan w + 1.
Proof.
  intros Hc0 Hc1 Hok. unfold scan_slot. cbn [w_current_scan].
  assert (Hv : 0 <= slot_progress (w_current_scan w + 1) total_scans <= 100).
  { pose proof (@slot_progress_range (w_current_scan w + 1) total_scans ltac:(lia)).
    lia. }
  pose proof (write_progress_ok Hv Hok) as Hok1.
  set (w1 := on_session (write_state BLINDSCAN_STATE_ACQUIRING) _).
  assert (Hok2 : progress_ok (w_bs w1)) by exact Hok1.
  assert (Hc2 : w_current_scan w1 = w_current_scan w + 1) by reflexivity.
  assert (Ha : progress_ok (w_bs (fst (fst (acquire_slot env total_scans pol_is_v b w1))))
               /\ w_current_scan (fst (fst (acquire_slot env total_scans pol_is_v b w1)))
                  = w_current_scan w + 1).
  { unfold acquire_slot. destruct (lse_en50494 env) as [le_frequency |].
    - match goal with
      | |- context [slice_loop ?e ?p ?b0 ?bs ?be ?ts ?tt ?st ?w0 ?pt ?dp] =>
          assert (Hl : progress_ok (w_bs (fst (fst (slice_loop e p b0 bs be ts tt st w0 pt dp))))
                       /\ w_current_scan (fst (fst (slice_loop e p b0 bs be ts tt st w0 pt dp)))
                          = w_current_scan w0);
          [ apply slice_loop_progress_ok;
            [ rewrite Hc2; lia
            | apply Forall_forall; intros s Hs; apply in_seq in Hs; lia
            | exact Hok2 ]
          | destruct (slice_loop e p b0 bs be ts tt st w0 pt dp) as [[w' pts'] dp'] ]
      end.
      simpl in *. destruct Hl as [Hl1 Hl2]. split; [exact Hl1 | lia].
    - destruct (configure_lnb env _ _ _); simpl; [| split; [exact Hok2 | reflexivity]].
      destruct (acquire_spectrum_neumo env _ _ _) as [[sd peaks] |];
        simpl; (split; [exact Hok2 | reflexivity]). }
  destruct (acquire_slot env total_scans pol_is_v b w1) as [[w' sd] dp].
  simpl in Ha. destruct Ha as [Ha1 Ha2].
  destruct sd as [sd |]; [| split; assumption].
  simpl. split; [| exact Ha2].
  destruct Ha1 as [Hp Hl]. unfold progress_ok.
  match goal with
  | |- context [add_peaks env pol_is_v ?d ?bs0] =>
      destruct (add_peaks_progress pol_is_v d bs0) as [E1 E2]
  end.
  rewrite E1, E2. split; assumption.
Qed.

Lemma band_loop_progress_ok (pol_is_v : bool) (bands : list Z) :
  forall w : worker_state,
    0 <= w_current_scan w ->
    w_current_scan w + Z.of_nat (length bands) <= total_scans ->
    progress_ok (w_bs w) ->
    progress_ok (w_bs (band_loop env total_scans pol_is_v bands w)) /\
    w_current_scan w <= w_current_scan (band_loop env total_scans pol_is_v bands w)
    <= w_current_scan w + Z.of_nat (length bands).
Proof.
  induction bands as [| b bands IH]; intros w Hc0 Hc1 Hok.
  - simpl. split; [exact Hok | lia].
  - cbn [band_loop poll_stop]. cbn [length] in *.
    destruct (should_stop env (w_clock w)).
    + simpl. split; [exact Hok | lia].
    + destruct (@scan_slot_progress_ok pol_is_v b (tick w)) as [Hs1 Hs2];
        [exact Hc0 | simpl; lia | exact Hok |].
      simpl w_current_scan in Hs2.
      destruct (IH (scan_slot env total_scans pol_is_v b (tick w))) as [H1 H2];
        [lia | lia | exact Hs1 |].
      split; [exact H1 | lia].
Qed.

Lemma pol_loop_progress_ok (bands : list Z) (pols : list bool) :
  forall w : worker_state,
    0 <= w_current_scan w ->
    w_current_scan w + Z.of_nat (length pols) * Z.of_nat (length bands) <= total_scans ->
    progress_ok (w_bs w) ->
    progress_ok (w_bs (pol_loop env total_scans pols bands w)).
Proof.
  induction pols as [| pol_is_v pols IH]; intros w Hc0 Hc1 Hok.
  - exact Hok.
  - cbn [pol_loop poll_stop]. cbn [length] in Hc1.
    destruct (should_stop env (w_clock w)); [exact Hok |].
    destruct (@band_loop_progress_ok pol_is_v bands (tick w)) as [H1 H2];
      [exact Hc0 | simpl; lia | exact Hok |].
    simpl w_current_scan in H2.
    apply IH; [lia | lia | exact H1].
Qed.

End Progress_range.

(** Progress stays within 0..100 during and after every run of the
    worker, for every frontend, plan and driver. *)
Lemma blindscan_worker_progress_ok (env : Worker.environment)
      (bs : Worker.blindscan_session) :
  progress_ok bs -> progress_ok (Worker.blindscan_worker env bs).
Proof.
  intros Hok. unfold Worker.blindscan_worker.
  destruct (Worker.lfe_fe_fd env <=? 0); [exact Hok |].
  destruct (negb (Worker.lfe_neumo_supported env)); [exact Hok |].
  match goal with
  | |- context [Worker.pol_loop env ?t ?ps ?bs0 ?w0] =>
      assert (Hl : progress_ok (Worker.w_bs (Worker.pol_loop env t ps bs0 w0)));
      [ apply pol_loop_progress_ok; [simpl; lia | simpl; lia | exact Hok]
      | destruct (Worker.pol_loop env t ps bs0 w0) as [bs' clock' scan'] ]
  end.
  simpl in *. destruct (Worker.should_stop env clock'); [exact Hl |].
  apply write_progress_ok; [lia | exact Hl].
Qed.

Lemma started_session_progress_ok (env : Worker.environment)
      (start_freq end_freq pol peak_detect : Z) :
  progress_ok
    (Worker.blindscan_worker env
       (Worker.linuxdvb_blindscan_start start_freq end_freq pol peak_detect)).
Proof.
  apply blindscan_worker_progress_ok. split; simpl; [lia | constructor].
Qed.

(** ** Worker: progress on a direct frontend *)

Lemma non_decreasing_head (a : Z) (l : list Z) :
  non_decreasing (a :: l) -> Forall (fun x => a <= x) l.
Proof.
  revert a. induction l as [| b l IH]; intros a H.
  - constructor.
  - destruct H as [Hab H]. constructor; [exact Hab |].
    eapply Forall_impl; [| apply IH; exact H]. simpl. intros x Hx. lia.
Qed.

Lemma non_decreasing_tail (a : Z) (l : list Z) :
  non_decreasing (a :: l) -> non_decreasing l.
Proof. destruct l as [| b l]; [intros _; exact I | intros [_ H]; exact H]. Qed.

Lemma non_decreasing_cons (a : Z) (l : list Z) :
  Forall (fun x => a <= x) l -> non_decreasing l -> non_decreasing (a :: l).
Proof.
  destruct l as [| b l]; intros Hall Hs; [exact I |].
  inversion Hall; subst. split; assumption.
Qed.

Lemma non_decreasing_snoc (l : list Z) (x : Z) :
  non_decreasing l -> Forall (fun y => y <= x) l -> non_decreasing (l ++ [x]).
Proof.
  induction l as [| a l IH]; intros Hs Hall.
  - exact I.
  - inversion Hall as [| ? ? Hax Hall']; subst.
    cbn [app]. apply non_decreasing_cons.
    + apply Forall_app. split.
      * apply non_decreasing_head. exact Hs.
      * constructor; [exact Hax | constructor].
    + apply IH; [eapply non_decreasing_tail; exact Hs | exact Hall'].
Qed.

Lemma non_decreasing_filter (f : blindscan_state_t * Z -> bool)
      (log : list (blindscan_state_t * Z)) :
  non_decreasing (map snd log) -> non_decreasing (map snd (filter f log)).
Proof.
  induction log as [| e log IH]; intros H; [exact I |].
  cbn [map] in H. cbn [filter].
  pose proof (@non_decreasing_head _ _ H) as Hh.
  pose proof (IH (@non_decreasing_tail _ _ H)) as Ht.
  destruct (f e); [| exact Ht].
  cbn [map]. apply non_decreasing_cons; [| exact Ht].
  rewrite Forall_forall in *. intros x Hx. apply Hh.
  apply in_map_iff in Hx. destruct Hx as [e' [<- He']].
  apply filter_In in He'. apply in_map. exact (proj1 He').
Qed.

Section Progress_direct.

Import Worker.

Variable env : environment.
Hypothesis direct : lse_en50494 env = None.
Variable total_scans : Z.

Lemma write_progress_sorted (v v' : Z) (bs : blindscan_session) :
  v <= v' -> progress_sorted_below v bs ->
  progress_sorted_below v' (write_progress v' bs).
Proof.
  intros Hv [Hs Hb]. unfold progress_sorted_below. simpl.
  assert (Hb' : Forall (fun e : blindscan_state_t * Z => snd e <= v') (progress_log bs)).
  { eapply Forall_impl; [| exact Hb]. simpl. intros e He. lia. }
  split.
  - rewrite map_app. simpl. apply non_decreasing_snoc; [exact Hs |].
    rewrite Forall_forall in *. intros y Hy.
    apply in_map_iff in Hy. destruct Hy as [e [<- He]]. apply Hb'. exact He.
  - apply Forall_app. split; [exact Hb' | constructor; [simpl; lia | constructor]].
Qed.

Lemma scan_slot_sorted (pol_is_v : bool) (b : Z) (w : worker_state) :
  0 <= w_current_scan w -> w_current_scan w + 1 <= total_scans ->
  progress_sorted_below (slot_progress (w_current_scan w) total_scans) (w_bs w) ->
  progress_sorted_below (slot_progress (w_current_scan w + 1) total_scans)
                        (w_bs (scan_slot env total_scans pol_is_v b w)) /\
  w_current_scan (scan_slot env total_scans pol_is_v b w) = w_current_scan w + 1.
Proof.
  intros Hc0 Hc1 Hs. unfold scan_slot. cbn [w_current_scan].
  assert (Hm : slot_progress (w_current_scan w) total_scans
               <= slot_progress (w_current_scan w + 1) total_scans).
  { apply slot_progress_mono; lia. }
  pose proof (@write_progress_sorted _ _ _ Hm Hs) as Hs1.
  set (w1 := on_session (write_state BLINDSCAN_STATE_ACQUIRING) _).
  assert (Hs2 : progress_sorted_below (slot_progress (w_current_scan w + 1) total_scans)
                                      (w_bs w1)) by exact Hs1.
  assert (Hc2 : w_current_scan w1 = w_current_scan w + 1) by reflexivity.
  unfold acquire_slot. rewrite direct.
  destruct (configure_lnb env _ _ _); simpl; [| split; [exact Hs2 | exact Hc2]].
  destruct (acquire_spectrum_neumo env _ _ _) as [[sd peaks] |]; simpl;
    [| split; [exact Hs2 | exact Hc2]].
  split; [| exact Hc2].
  unfold progress_sorted_below.
  match goal with
  | |- context [add_peaks env pol_is_v ?d ?bs0] =>
      destruct (add_peaks_progress env pol_is_v d bs0) as [_ E2]
  end.
  rewrite E2. exact Hs2.
Qed.

Lemma band_loop_sorted (pol_is_v : bool) (bands : list Z) :
  forall w : worker_state,
    0 <= w_current_scan w ->
    w_current_scan w + Z.of_nat (length bands) <= total_scans ->
    progress_sorted_below (slot_progress (w_current_scan w) total_scans) (w_bs w) ->
    let w' := band_loop env total_scans pol_is_v bands w in
    progress_sorted_below (slot_progress (w_current_scan w') total_scans) (w_bs w') /\
    w_current_scan w <= w_current_scan w' <= w_current_scan w + Z.of_nat (length bands).
Proof.
  induction bands as [| b bands IH]; intros w Hc0 Hc1 Hs.
  - simpl. split; [exact Hs | lia].
  - cbn [band_loop poll_stop]. cbn [length] in *.
    destruct (should_stop env (w_clock w)).
    + simpl. split; [exact Hs | lia].
    + destruct (@scan_slot_sorted pol_is_v b (tick w)) as [H1 H2];
        [exact Hc0 | simpl; lia | exact Hs |].
      simpl w_current_scan in H1, H2.
      destruct (IH (scan_slot env total_scans pol_is_v b (tick w))) as [I1 I2];
        [lia | lia | rewrite H2; exact H1 |].
      split; [exact I1 | lia].
Qed.

Lemma pol_loop_sorted (bands : list Z) (pols : list bool) :
  forall w : worker_state,
    0 <= w_current_scan w ->
    w_current_scan w + Z.of_nat (length pols) * Z.of_nat (length bands) <= total_scans ->
    progress_sorted_below (slot_progress (w_current_scan w) total_scans) (w_bs w) ->
    let w' := pol_loop env total_scans pols bands w in
    progress_sorted_below (slot_progress (w_current_scan w') total_scans) (w_bs w') /\
    0 <= w_current_scan w' <= total_scans.
Proof.
  induction pols as [| pol_is_v pols IH]; intros w Hc0 Hc1 Hs.
  - simpl in *. split; [exact Hs | lia].
  - cbn [pol_loop poll_stop]. cbn [length] in Hc1.
    destruct (should_stop env (w_clock w)).
    + simpl. split; [exact Hs | lia].
    + destruct (@band_loop_sorted pol_is_v bands (tick w)) as [H1 H2];
        [exact Hc0 | simpl; lia | exact Hs |].
      simpl w_current_scan in H2.
      apply IH; [lia | lia | exact H1].
Qed.

End Progress_direct.

(** On a frontend without Unicable gateway the values written to
    [bs_progress] never decrease, whatever the plan, the driver and the
    stop requests. *)
Lemma direct_progress_non_decreasing (env : Worker.environment)
      (start_freq end_freq pol peak_detect : Z) :
  Worker.lse_en50494 env = None ->
  let bs := Worker.blindscan_worker env
              (Worker.linuxdvb_blindscan_start start_freq end_freq pol peak_detect) in
  non_decreasing (map snd (Worker.progress_log bs)) /\
  non_decreasing (active_progress (Worker.progress_log bs)).
Proof.
  intros Hdirect bs.
  assert (H : non_decreasing (map snd (Worker.progress_log bs))).
  { unfold bs, Worker.blindscan_worker.
    destruct (Worker.lfe_fe_fd env <=? 0); [exact I |].
    destruct (negb (Worker.lfe_neumo_supported env)); [exact I |].
    match goal with
    | |- context [Worker.pol_loop env ?t ?ps ?bs0 ?w0] =>
        destruct (@pol_loop_sorted env Hdirect t bs0 ps w0) as [Hl Hc];
        [ simpl; lia | simpl; lia | split; simpl; constructor
        | destruct (Worker.pol_loop env t ps bs0 w0) as [bs' clock' scan'] ]
    end.
    cbn [Worker.w_bs Worker.w_current_scan Worker.w_clock Worker.poll_stop] in *.
    match type of Hc with
    | _ <= _ <= ?t => set (T := t) in *
    end.
    destruct (Worker.should_stop env clock'); [exact (proj1 Hl) |].
    assert (H50 : Worker.slot_progress scan' T <= 100).
    { destruct (Z.eq_dec scan' 0) as [-> | Hn].
      - unfold Worker.slot_progress, c_div. cbn. lia.
      - pose proof (@slot_progress_range scan' T ltac:(lia)). lia. }
    cbn [Worker.tick Worker.w_bs].
    exact (proj1 (@write_progress_sorted (Worker.slot_progress scan' T) 100
                    (Worker.write_state BLINDSCAN_STATE_COMPLETE bs') H50 Hl)). }
  split; [exact H |]. unfold active_progress. apply non_decreasing_filter. exact H.
Qed.

(** * Further properties of the code *)

(** ** Peak detector: minimum and maximum *)

Lemma min_max_fold (l : list blindscan_spectrum_point) :
  forall a b : Z,
    let r := fold_left Detect.min_max_step l (a, b) in
    fst r <= a /\ b <= snd r /\
    (forall p, In p l -> fst r <= pt_level p <= snd r) /\
    (fst r = a \/ exists p, In p l /\ pt_level p = fst r) /\
    (snd r = b \/ exists p, In p l /\ pt_level p = snd r).
Proof.
  induction l as [| q l IH]; intros a b; simpl.
  - split; [lia |]. split; [lia |]. split; [intros p [] |].
    split; left; reflexivity.
  - specialize (IH (if pt_level q <? a then pt_level q else a)
                   (if pt_level q >? b then pt_level q else b)).
    simpl in IH. destruct IH as (H1 & H2 & H3 & H4 & H5).
    rewrite Z.gtb_ltb in *.
    destruct (Z.ltb_spec (pt_level q) a) as [Ha | Ha];
      destruct (Z.ltb_spec b (pt_level q)) as [Hb | Hb].
    all: split; [lia |]; split; [lia |];
      split; [intros p [<- | Hp]; [lia | apply H3; exact Hp] |]; split.
    all: match goal with
         | |- fst _ = _ \/ _ =>
             destruct H4 as [E | [p [Hp E]]];
             [ first [ left; exact E
                     | right; exists q; split; [left; reflexivity | symmetry; exact E] ]
             | right; exists p; split; [right; exact Hp | exact E] ]
         | |- snd _ = _ \/ _ =>
             destruct H5 as [E | [p [Hp E]]];
             [ first [ left; exact E
                     | right; exists q; split; [left; reflexivity | symmetry; exact E] ]
             | right; exists p; split; [right; exact Hp | exact E] ]
         end.
Qed.

(** X1: on a non-empty buffer the first scan of the detector finds the
    smallest and the largest level: every sample lies between the two
    values and both are the level of some sample. *)
Theorem min_max_level_correct (pts : list blindscan_spectrum_point) :
  pts <> [] ->
  (forall p, In p pts ->
             fst (Detect.min_max_level pts) <= pt_level p
             <= snd (Detect.min_max_level pts)) /\
  (exists p, In p pts /\ pt_level p = fst (Detect.min_max_level pts)) /\
  (exists p, In p pts /\ pt_level p = snd (Detect.min_max_level pts)).
Proof.
  intros Hne. destruct pts as [| p0 rest]; [contradiction |].
  unfold Detect.min_max_level, Detect.level_at. cbn [tl nth].
  pose proof (min_max_fold rest (pt_level p0) (pt_level p0)) as H.
  simpl in H. destruct H as (H1 & H2 & H3 & H4 & H5).
  split; [| split].
  - intros p [<- | Hp]; [lia | apply H3; exact Hp].
  - destruct H4 as [E | [p [Hp E]]].
    + exists p0. split; [left; reflexivity | symmetry; exact E].
    + exists p. split; [right; exact Hp | exact E].
  - destruct H5 as [E | [p [Hp E]]].
    + exists p0. split; [left; reflexivity | symmetry; exact E].
    + exists p. split; [right; exact Hp | exact E].
Qed.

Lemma min_max_level_correct_witness :
  (forall p, In p [mk_point 1 5; mk_point 2 (-3); mk_point 3 9] ->
             fst (Detect.min_max_level [mk_point 1 5; mk_point 2 (-3); mk_point 3 9])
             <= pt_level p
             <= snd (Detect.min_max_level [mk_point 1 5; mk_point 2 (-3); mk_point 3 9])) /\
  (exists p, In p [mk_point 1 5; mk_point 2 (-3); mk_point 3 9] /\
             pt_level p
             = fst (Detect.min_max_level [mk_point 1 5; mk_point 2 (-3); mk_point 3 9])) /\
  (exists p, In p [mk_point 1 5; mk_point 2 (-3); mk_point 3 9] /\
             pt_level p
             = snd (Detect.min_max_level [mk_point 1 5; mk_point 2 (-3); mk_point 3 9])).
Proof.
  apply (@min_max_level_correct [mk_point 1 5; mk_point 2 (-3); mk_point 3 9]).
  intros H. discriminate H.
Defined.

(** ** Peak detector: what a candidate is *)

Section Sweep_candidates.

Variable pts : list blindscan_spectrum_point.
Variable peak_threshold : Z.

(** A property of every sample the sweep accepts holds of every
    candidate. *)
Lemma sweep_loop_Forall (Q : candidate -> Prop) :
  (forall i : nat,
      (i < length pts - Detect.half_win)%nat ->
      (Detect.level_at pts i <? peak_threshold) = false ->
      Detect.is_local_max pts i (Detect.level_at pts i) = true ->
      Q (mk_candidate i (Detect.level_at pts i))) ->
  forall (fuel i : nat) (cands : list candidate),
    Forall Q cands ->
    Forall Q (Detect.sweep_loop pts peak_threshold fuel i cands).
Proof.
  intros HQ. induction fuel as [| fuel IH]; intros i cands Hc; simpl.
  - exact Hc.
  - destruct (Nat.ltb_spec i (length pts - Detect.half_win)) as [Hn | Hn];
      [| exact Hc].
    destruct (length cands <? Detect.max_candidates)%nat; [| exact Hc].
    simpl.
    destruct (Detect.level_at pts i <? peak_threshold) eqn:Et.
    + apply IH. exact Hc.
    + destruct (Detect.is_local_max pts i (Detect.level_at pts i)) eqn:Em.
      * apply IH. apply Forall_app. split; [exact Hc |].
        constructor; [apply HQ; assumption | constructor].
      * apply IH. exact Hc.
Qed.

Lemma is_local_max_spec (i : nat) (lvl : Z) :
  Detect.is_local_max pts i lvl = true ->
  forall j : nat,
    (i - Detect.half_win <= j <= i + Detect.half_win)%nat ->
    j <> i -> Detect.level_at pts j <= lvl.
Proof.
  unfold Detect.is_local_max. intros H j Hj Hne.
  rewrite forallb_forall in H.
  assert (Hin : In j (seq (i - Detect.half_win) (2 * Detect.half_win + 1))).
  { apply in_seq. change Detect.half_win with 10%nat in *. lia. }
  specialize (H j Hin). apply Bool.orb_true_iff in H.
  destruct H as [H | H].
  - apply Nat.eqb_eq in H. contradiction.
  - apply Bool.negb_true_iff in H. rewrite Z.gtb_ltb in H.
    apply Z.ltb_ge in H. exact H.
Qed.

Lemma sweep_loop_count (fuel : nat) :
  forall (i : nat) (cands : list candidate),
    (length cands <= Detect.max_candidates)%nat ->
    (length (Detect.sweep_loop pts peak_threshold fuel i cands)
     <= Detect.max_candidates)%nat.
Proof.
  induction fuel as [| fuel IH]; intros i cands Hc; simpl.
  - exact Hc.
  - destruct (i <? length pts - Detect.half_win)%nat; [| exact Hc].
    destruct (Nat.ltb_spec (length cands) Detect.max_candidates) as [Hl | Hl];
      [| exact Hc].
    simpl.
    destruct (Detect.level_at pts i <? peak_threshold).
    + apply IH. exact Hc.
    + destruct (Detect.is_local_max pts i (Detect.level_at pts i)).
      * apply IH. rewrite length_app. simpl. lia.
      * apply IH. exact Hc.
Qed.

Lemma sweep_loop_gap (fuel : nat) :
  forall (i : nat) (cands : list candidate),
    StronglySorted idx_gap cands ->
    Forall (fun c => (idx c + Detect.half_win < i)%nat) cands ->
    StronglySorted idx_gap (Detect.sweep_loop pts peak_threshold fuel i cands).
Proof.
  induction fuel as [| fuel IH]; intros i cands Hs Hlt; simpl.
  - exact Hs.
  - destruct (i <? length pts - Detect.half_win)%nat; [| exact Hs].
    destruct (length cands <? Detect.max_candidates)%nat; [| exact Hs].
    simpl.
    assert (Hlt' : Forall (fun c => (idx c + Detect.half_win < S i)%nat) cands).
    { eapply Forall_impl; [| exact Hlt]. simpl. intros c Hc. lia. }
    destruct (Detect.level_at pts i <? peak_threshold).
    + apply IH; assumption.
    + destruct (Detect.is_local_max pts i (Detect.level_at pts i)).
      * apply IH.
        -- apply StronglySorted_snoc; [exact Hs |].
           eapply Forall_impl; [| exact Hlt].
           unfold idx_gap. simpl. intros c Hc. lia.
        -- apply Forall_app. split.
           ++ eapply Forall_impl; [| exact Hlt]. simpl. intros c Hc. lia.
           ++ constructor; [simpl; lia | constructor].
      * apply IH; assumption.
Qed.

End Sweep_candidates.

Lemma detect_candidates_Forall (sd : blindscan_spectrum_data) (threshold_db : Z) :
  Forall (fun c =>
            level c = Detect.level_at (points sd) (idx c) /\
            Detect.peak_threshold_of (points sd) threshold_db <= level c /\
            forall j : nat,
              (idx c - 10 <= j <= idx c + 10)%nat ->
              Detect.level_at (points sd) j <= level c)
         (Detect.detect_candidates sd threshold_db).
Proof.
  unfold Detect.detect_candidates.
  destruct (length (points sd) <? 100)%nat; [constructor |].
  unfold Detect.find_candidates.
  apply sweep_loop_Forall; [| constructor].
  intros i Hi Ht Hm. cbn [idx level].
  split; [reflexivity |]. split.
  - apply Z.ltb_ge in Ht. exact Ht.
  - intros j Hj. destruct (Nat.eq_dec j i) as [-> | Hne]; [lia |].
    apply (@is_local_max_spec (points sd) i _ Hm j); [| exact Hne].
    change Detect.half_win with 10%nat. exact Hj.
Qed.

(** X2: every candidate of the sweep, and so every peak kept by the
    merge, carries the level of its own sample, reaches the threshold
    and is a maximum of its window: no sample within 10 positions is
    stronger. *)
Theorem kept_peak_is_local_maximum (sd : blindscan_spectrum_data) (threshold_db : Z)
        (c : candidate) :
  In c (Detect.detect_candidates sd threshold_db)
  \/ In c (Detect.detect_kept sd threshold_db) ->
  level c = Detect.level_at (points sd) (idx c) /\
  Detect.peak_threshold_of (points sd) threshold_db <= level c /\
  forall j : nat,
    (idx c - 10 <= j <= idx c + 10)%nat ->
    Detect.level_at (points sd) j <= level c.
Proof.
  intros H.
  assert (Hc : In c (Detect.detect_candidates sd threshold_db)).
  { destruct H as [H | H]; [exact H |].
    unfold Detect.detect_kept in H. apply valley_merge_incl in H. exact H. }
  pose proof (detect_candidates_Forall sd threshold_db) as HF.
  rewrite Forall_forall in HF. exact (HF c Hc).
Qed.

Lemma kept_peak_is_local_maximum_witness :
  level (mk_candidate 43 (-4000))
  = Detect.level_at (points Scenario.narrow_carrier) (idx (mk_candidate 43 (-4000))) /\
  Detect.peak_threshold_of (points Scenario.narrow_carrier) 1000
  <= level (mk_candidate 43 (-4000)) /\
  forall j : nat,
    (idx (mk_candidate 43 (-4000)) - 10 <= j <= idx (mk_candidate 43 (-4000)) + 10)%nat ->
    Detect.level_at (points Scenario.narrow_carrier) j <= level (mk_candidate 43 (-4000)).
Proof.
  apply (@kept_peak_is_local_maximum Scenario.narrow_carrier 1000
           (mk_candidate 43 (-4000))).
  right. vm_compute. left. reflexivity.
Defined.

Lemma gap_sorted_pairs (l : list candidate) :
  StronglySorted idx_gap l ->
  forall p q : candidate,
    In p l -> In q l -> (idx p < idx q)%nat -> (idx p + 11 <= idx q)%nat.
Proof.
  induction l as [| a tl IH]; intros Hs p q Hp Hq Hlt.
  - destruct Hp.
  - inversion Hs as [| ? ? Hs' Hall]; subst.
    rewrite Forall_forall in Hall.
    destruct Hp as [<- | Hp]; destruct Hq as [<- | Hq].
    + lia.
    + specialize (Hall q Hq). unfold idx_gap in Hall.
      change Detect.half_win with 10%nat in Hall. lia.
    + specialize (Hall p Hp). unfold idx_gap in Hall. lia.
    + apply IH; assumption.
Qed.

(** X3: the sweep never fills more than its 512 slots, and after a
    candidate it skips the next 10 samples: any two candidates, and any
    two kept peaks, are at least 11 samples apart. *)
Theorem candidates_spaced_and_capped (sd : blindscan_spectrum_data) (threshold_db : Z) :
  (length (Detect.detect_candidates sd threshold_db) <= 512)%nat /\
  (length (Detect.detect_kept sd threshold_db) <= 512)%nat /\
  forall p q : candidate,
    In p (Detect.detect_candidates sd threshold_db)
    \/ In p (Detect.detect_kept sd threshold_db) ->
    In q (Detect.detect_candidates sd threshold_db)
    \/ In q (Detect.detect_kept sd threshold_db) ->
    (idx p < idx q)%nat -> (idx p + 11 <= idx q)%nat.
Proof.
  assert (Hcount : (length (Detect.detect_candidates sd threshold_db) <= 512)%nat).
  { unfold Detect.detect_candidates.
    destruct (length (points sd) <? 100)%nat; [simpl; lia |].
    unfold Detect.find_candidates.
    apply (@sweep_loop_count (points sd) _ (length (points sd)) Detect.half_win []).
    simpl. unfold Detect.max_candidates. lia. }
  assert (Hgap : StronglySorted idx_gap (Detect.detect_candidates sd threshold_db)).
  { unfold Detect.detect_candidates.
    destruct (length (points sd) <? 100)%nat; [constructor |].
    unfold Detect.find_candidates. apply sweep_loop_gap; constructor. }
  assert (Hincl : forall c, In c (Detect.detect_candidates sd threshold_db)
                            \/ In c (Detect.detect_kept sd threshold_db) ->
                            In c (Detect.detect_candidates sd threshold_db)).
  { intros c [H | H]; [exact H |].
    unfold Detect.detect_kept in H. apply valley_merge_incl in H. exact H. }
  split; [exact Hcount |]. split.
  - destruct (detect_kept_inv sd threshold_db) as [Hs _].
    destruct (detect_candidates_inv sd threshold_db) as [Hs' _].
    unfold Detect.detect_kept in *.
    destruct (Detect.detect_candidates sd threshold_db) as [| c0 rest] eqn:E;
      [simpl; lia |].
    cbn [Detect.valley_merge].
    assert (G : forall rest kept prev,
               (length (Detect.merge_loop (points sd) kept prev rest)
                <= length kept + 1 + length rest)%nat).
    { clear. induction rest as [| curr rest IH]; intros kept prev; simpl.
      - rewrite length_app. simpl. lia.
      - destruct (Detect.valley_depth (points sd) prev curr >=? Detect.min_valley_depth).
        + specialize (IH (kept ++ [prev]) curr). rewrite length_app in IH.
          simpl in IH. lia.
        + destruct (level curr >? level prev).
          * specialize (IH kept curr). lia.
          * specialize (IH kept prev). lia. }
    specialize (G rest [] c0). simpl in G, Hcount. lia.
  - intros p q Hp Hq Hlt.
    apply (@gap_sorted_pairs _ Hgap p q (Hincl p Hp) (Hincl q Hq) Hlt).
Qed.

Lemma candidates_spaced_and_capped_witness :
  (idx (mk_candidate 43 (-4000)) + 11 <= idx (mk_candidate 54 (-4000)))%nat.
Proof.
  apply (proj2 (proj2 (candidates_spaced_and_capped Scenario.narrow_carrier 1000))
               (mk_candidate 43 (-4000)) (mk_candidate 54 (-4000))).
  - left. vm_compute. left. reflexivity.
  - left. vm_compute. right. left. reflexivity.
  - simpl. lia.
Defined.

(** ** Peak detector: what the merge keeps *)

Lemma merge_loop_dominates (pts : list blindscan_spectrum_point) (rest : list candidate) :
  forall (kept : list candidate) (prev c : candidate),
    dominated c kept \/ level c <= level prev \/ dominated c rest ->
    dominated c (Detect.merge_loop pts kept prev rest).
Proof.
  induction rest as [| curr rest IH]; intros kept prev c H; simpl.
  - destruct H as [[k [Hk Hl]] | [H | [k [[] _]]]].
    + exists k. split; [apply in_or_app; left; exact Hk | exact Hl].
    + exists prev. split; [apply in_or_app; right; left; reflexivity | exact H].
  - assert (Hrest : dominated c (curr :: rest) ->
                    level c <= level curr \/ dominated c rest).
    { intros [k [[<- | Hk] Hl]]; [left; exact Hl | right; exists k; split; assumption]. }
    destruct (Detect.valley_depth pts prev curr >=? Detect.min_valley_depth).
    + apply IH. destruct H as [[k [Hk Hl]] | [H | H]].
      * left. exists k. split; [apply in_or_app; left; exact Hk | exact Hl].
      * left. exists prev. split; [apply in_or_app; right; left; reflexivity | exact H].
      * destruct (Hrest H) as [H' | H']; [right; left; exact H' | right; right; exact H'].
    + destruct (Z.gtb_spec (level curr) (level prev)) as [Hgt | Hle].
      * apply IH. destruct H as [H | [H | H]].
        -- left. exact H.
        -- right. left. lia.
        -- destruct (Hrest H) as [H' | H']; [right; left; exact H' | right; right; exact H'].
      * apply IH. destruct H as [H | [H | H]].
        -- left. exact H.
        -- right. left. exact H.
        -- destruct (Hrest H) as [H' | H']; [right; left; lia | right; right; exact H'].
Qed.

Lemma merge_loop_length (pts : list blindscan_spectrum_point) (rest : list candidate) :
  forall (kept : list candidate) (prev : candidate),
    (length kept + 1 <= length (Detect.merge_loop pts kept prev rest)
     <= length kept + 1 + length rest)%nat.
Proof.
  induction rest as [| curr rest IH]; intros kept prev; simpl.
  - rewrite length_app. simpl. lia.
  - destruct (Detect.valley_depth pts prev curr >=? Detect.min_valley_depth).
    + specialize (IH (kept ++ [prev]) curr). rewrite length_app in IH.
      simpl in IH. lia.
    + destruct (level curr >? level prev).
      * specialize (IH kept curr). lia.
      * specialize (IH kept prev). lia.
Qed.

(** X4: the valley merge drops candidates only in favour of stronger
    ones.  Of a non-empty candidate list it keeps at least one and at
    most all candidates, every kept peak is one of the candidates, and
    every candidate is matched in level by some kept peak: the strongest
    level always survives. *)
Theorem valley_merge_keeps_strongest (pts : list blindscan_spectrum_point)
        (cands : list candidate) :
  cands <> [] ->
  (1 <= length (Detect.valley_merge pts cands) <= length cands)%nat /\
  (forall k, In k (Detect.valley_merge pts cands) -> In k cands) /\
  (forall c, In c cands ->
             exists k, In k (Detect.valley_merge pts cands) /\ level c <= level k).
Proof.
  intros Hne. destruct cands as [| c0 rest]; [contradiction |].
  cbn [Detect.valley_merge]. split; [| split].
  - pose proof (merge_loop_length pts rest [] c0) as H. simpl in *. lia.
  - intros k Hk. apply merge_loop_incl in Hk.
    destruct Hk as [[] | [-> | Hk]]; [left; reflexivity | right; exact Hk].
  - intros c Hc. apply merge_loop_dominates.
    destruct Hc as [<- | Hc]; [right; left; lia |].
    right. right. exists c. split; [exact Hc | lia].
Qed.

Lemma valley_merge_keeps_strongest_witness :
  (1 <= length (Detect.valley_merge (points Scenario.narrow_carrier)
                  [mk_candidate 43 (-4000); mk_candidate 54 (-4000)])
   <= length [mk_candidate 43 (-4000); mk_candidate 54 (-4000)])%nat /\
  (forall k, In k (Detect.valley_merge (points Scenario.narrow_carrier)
                     [mk_candidate 43 (-4000); mk_candidate 54 (-4000)]) ->
             In k [mk_candidate 43 (-4000); mk_candidate 54 (-4000)]) /\
  (forall c, In c [mk_candidate 43 (-4000); mk_candidate 54 (-4000)] ->
             exists k, In k (Detect.valley_merge (points Scenario.narrow_carrier)
                               [mk_candidate 43 (-4000); mk_candidate 54 (-4000)])
                       /\ level c <= level k).
Proof.
  apply (@valley_merge_keeps_strongest (points Scenario.narrow_carrier)
           [mk_candidate 43 (-4000); mk_candidate 54 (-4000)]).
  intros H. discriminate H.
Defined.

(** ** Peak detector: the reported peaks *)

Lemma In_firstn (A : Type) (n : nat) (l : list A) (x : A) :
  In x (firstn n l) -> In x l.
Proof.
  intros H. rewrite <- (firstn_skipn n l). apply in_or_app. left. exact H.
Qed.

Lemma min_level_bounded (pts : list blindscan_spectrum_point) :
  levels_bounded pts -> level_bounded (fst (Detect.min_max_level pts)).
Proof.
  intros Hb. destruct pts as [| p0 rest].
  - change (fst (Detect.min_max_level [])) with 0. unfold level_bounded. lia.
  - destruct (@min_max_level_correct (p0 :: rest) ltac:(discriminate))
      as (_ & [p [Hp <-]] & _).
    unfold levels_bounded in Hb. rewrite Forall_forall in Hb. apply Hb. exact Hp.
Qed.

Lemma peak_threshold_exact (pts : list blindscan_spectrum_point) (threshold_db : Z) :
  levels_bounded pts -> 0 <= threshold_db < 1073741824 ->
  Detect.peak_threshold_of pts threshold_db
  = fst (Detect.min_max_level pts) + threshold_db.
Proof.
  intros Hb Ht. unfold Detect.peak_threshold_of.
  pose proof (min_level_bounded Hb) as Hm. unfold level_bounded in Hm.
  apply wrap_s32_small. unfold in_s32. lia.
Qed.

(** X5: the detector never reports more peaks than [max_peaks] nor more
    than 512, and (for levels the acquirers can store and a threshold
    under 2^30) every reported peak stands at least the threshold above
    the weakest sample: its SNR field is its level minus the minimum
    level and is at least [threshold_db]. *)
Theorem detect_peaks_count_and_snr (sd : blindscan_spectrum_data)
        (max_peaks threshold_db : Z) :
  levels_bounded (points sd) -> 0 <= threshold_db < 1073741824 ->
  (length (Detect.blindscan_detect_peaks sd max_peaks threshold_db)
   <= Nat.min (Z.to_nat max_peaks) 512)%nat /\
  forall p : blindscan_spectral_peak,
    In p (Detect.blindscan_detect_peaks sd max_peaks threshold_db) ->
    pk_snr p = pk_level p - fst (Detect.min_max_level (points sd)) /\
    threshold_db <= pk_snr p.
Proof.
  intros Hb Ht. rewrite detect_peaks_of_kept. split.
  - rewrite length_map, length_firstn.
    pose proof (candidates_spaced_and_capped sd threshold_db) as (_ & Hk & _).
    lia.
  - intros p Hp. apply in_map_iff in Hp. destruct Hp as [c [<- Hc]].
    apply In_firstn in Hc.
    destruct (@kept_peak_is_local_maximum sd threshold_db c (or_intror Hc))
      as (Hl & Hthr & _).
    rewrite (peak_threshold_exact Hb Ht) in Hthr.
    pose proof (min_level_bounded Hb) as Hm.
    pose proof (@level_at_bounded (points sd) (idx c) Hb) as Hlc.
    rewrite <- Hl in Hlc. unfold level_bounded in *.
    cbn [pk_snr pk_level Detect.output_peak].
    rewrite wrap_s32_small by (unfold in_s32; lia).
    split; [reflexivity | lia].
Qed.

Lemma detect_peaks_count_and_snr_witness :
  (length (Detect.blindscan_detect_peaks Scenario.two_carriers 512 1000)
   <= Nat.min (Z.to_nat 512) 512)%nat /\
  forall p : blindscan_spectral_peak,
    In p (Detect.blindscan_detect_peaks Scenario.two_carriers 512 1000) ->
    pk_snr p = pk_level p - fst (Detect.min_max_level (points Scenario.two_carriers)) /\
    1000 <= pk_snr p.
Proof.
  apply (@detect_peaks_count_and_snr Scenario.two_carriers 512 1000).
  - apply bump_spectrum_levels.
  - lia.
Defined.

(** X6: no peak without contrast.  A buffer of fewer than 100 samples,
    or one whose strongest sample is less than the threshold above its
    weakest, gives no peak at all. *)
Theorem detect_peaks_needs_contrast (sd : blindscan_spectrum_data)
        (max_peaks threshold_db : Z) :
  levels_bounded (points sd) -> 0 <= threshold_db < 1073741824 ->
  (length (points sd) < 100)%nat
  \/ snd (Detect.min_max_level (points sd)) - fst (Detect.min_max_level (points sd))
     < threshold_db ->
  Detect.blindscan_detect_peaks sd max_peaks threshold_db = [].
Proof.
  intros Hb Ht H. rewrite detect_peaks_of_kept.
  assert (Hc : Detect.detect_candidates sd threshold_db = []).
  { destruct H as [H | H].
    - unfold Detect.detect_candidates.
      destruct (Nat.ltb_spec (length (points sd)) 100); [reflexivity | lia].
    - destruct (Detect.detect_candidates sd threshold_db) as [| c rest] eqn:E;
        [reflexivity | exfalso].
      assert (Hin : In c (Detect.detect_candidates sd threshold_db))
        by (rewrite E; left; reflexivity).
      destruct (@kept_peak_is_local_maximum sd threshold_db c (or_introl Hin))
        as (Hl & Hthr & _).
      rewrite (peak_threshold_exact Hb Ht) in Hthr.
      destruct (detect_candidates_inv sd threshold_db) as [_ Hok].
      rewrite Forall_forall in Hok. destruct (Hok c Hin) as (_ & Hlen & _).
      assert (Hne : points sd <> []).
      { intros E0. rewrite E0 in Hlen. simpl in Hlen. lia. }
      destruct (min_max_level_correct Hne) as (Hall & _ & _).
      assert (Hnth : In (nth (idx c) (points sd) Detect.point0) (points sd)).
      { apply nth_In. lia. }
      specialize (Hall _ Hnth). unfold Detect.level_at in Hl. lia. }
  unfold Detect.detect_kept. rewrite Hc. simpl. rewrite firstn_nil. reflexivity.
Qed.

Lemma detect_peaks_needs_contrast_witness :
  Detect.blindscan_detect_peaks (Scenario.bump_spectrum 200 []) 512 1000 = [].
Proof.
  apply (@detect_peaks_needs_contrast (Scenario.bump_spectrum 200 []) 512 1000).
  - apply bump_spectrum_levels.
  - lia.
  - right. vm_compute. reflexivity.
Defined.

(** ** Peak detector: the -6 dB edges *)

Section Edges.

Variable pts : list blindscan_spectrum_point.
Variable edge_level : Z.

Lemma find_left_spec (j : nat) :
  forall left_idx : nat,
    (0 < j)%nat ->
    (1 <= Detect.find_left pts edge_level j left_idx <= j)%nat /\
    forall k : nat,
      (Detect.find_left pts edge_level j left_idx < k <= j)%nat ->
      edge_level <= Detect.level_at pts k.
Proof.
  induction j as [| j IH]; intros left_idx Hj; [lia |].
  cbn [Detect.find_left].
  destruct (Z.ltb_spec (Detect.level_at pts (S j)) edge_level) as [Hlt | Hge].
  - split; [lia |]. intros k Hk. lia.
  - destruct j as [| j'].
    + cbn [Detect.find_left]. split; [lia |]. intros k Hk. lia.
    + destruct (IH (S (S j')) ltac:(lia)) as [Hr Hk]. split; [lia |].
      intros k Hkr. destruct (Nat.eq_dec k (S (S j'))) as [-> | Hne];
        [exact Hge | apply Hk; lia].
Qed.

Lemma find_right_spec (count : nat) :
  forall j right_idx : nat,
    (0 < count)%nat ->
    (j <= Detect.find_right pts edge_level count j right_idx < j + count)%nat /\
    forall k : nat,
      (j <= k < Detect.find_right pts edge_level count j right_idx)%nat ->
      edge_level <= Detect.level_at pts k.
Proof.
  induction count as [| count IH]; intros j right_idx Hc; [lia |].
  cbn [Detect.find_right].
  destruct (Z.ltb_spec (Detect.level_at pts j) edge_level) as [Hlt | Hge].
  - split; [lia |]. intros k Hk. lia.
  - destruct count as [| count'].
    + cbn [Detect.find_right]. split; [lia |]. intros k Hk. lia.
    + destruct (IH (S j) j ltac:(lia)) as [Hr Hk]. split; [lia |].
      intros k Hkr. destruct (Nat.eq_dec k j) as [-> | Hne];
        [exact Hge | apply Hk; lia].
Qed.

End Edges.

(** X7: the band of a reported peak.  For a candidate inside the buffer
    the two edge searches stop at samples [left <= idx <= right < n];
    every sample strictly between them is at least the edge level (the
    peak level minus 600).  On a buffer with ascending frequencies the
    reported centre is the midpoint of the two edge frequencies, lies
    between them, and the symbol rate is computed from their exact
    difference. *)
Theorem output_peak_band (pts : list blindscan_spectrum_point) (min_level : Z)
        (c : candidate) :
  (idx c < length pts)%nat ->
  frequencies_ascending pts ->
  exists left right : nat,
    (left <= idx c <= right)%nat /\ (right < length pts)%nat /\
    (forall k : nat, (left < k < right)%nat ->
                     wrap_s32 (level c - 600) <= Detect.level_at pts k) /\
    pk_frequency (Detect.output_peak pts min_level c)
    = (Detect.freq_at pts left + Detect.freq_at pts right) / 2 /\
    Detect.freq_at pts left
    <= pk_frequency (Detect.output_peak pts min_level c)
    <= Detect.freq_at pts right /\
    pk_symbol_rate (Detect.output_peak pts min_level c)
    = Detect.symbol_rate_of_bandwidth
        (Detect.freq_at pts right - Detect.freq_at pts left).
Proof.
  intros Hidx [Hasc Hrange].
  set (edge := wrap_s32 (level c - 600)).
  set (left := Detect.find_left pts edge (idx c) (idx c)).
  set (right := Detect.find_right pts edge (length pts - idx c) (idx c) (idx c)).
  destruct (@find_right_spec pts edge (length pts - idx c) (idx c) (idx c) ltac:(lia))
    as [Hr Hrk].
  fold right in Hr, Hrk.
  assert (Hl : (left <= idx c)%nat /\
               forall k, (left < k <= idx c)%nat -> edge <= Detect.level_at pts k).
  { destruct (Nat.eq_dec (idx c) 0) as [Ei | Ei].
    - unfold left. rewrite Ei. cbn [Detect.find_left]. split; [lia |]. intros k Hk. lia.
    - destruct (@find_left_spec pts edge (idx c) (idx c) ltac:(lia)) as [H1 H2].
      fold left in H1, H2. split; [lia | exact H2]. }
  destruct Hl as [Hl Hlk].
  exists left, right.
  pose proof (Hasc left right ltac:(lia)) as Hlr.
  pose proof (Hrange left) as Hfl. pose proof (Hrange right) as Hfr.
  split; [lia |]. split; [lia |]. split.
  - intros k Hk. destruct (Nat.le_gt_cases k (idx c)) as [Hle | Hgt].
    + apply Hlk. lia.
    + apply Hrk. lia.
  - cbn [pk_frequency pk_symbol_rate Detect.output_peak].
    fold edge. fold left. fold right.
    rewrite (wrap_u32_small (z := Detect.freq_at pts left + Detect.freq_at pts right))
      by (unfold in_u32; lia).
    rewrite (wrap_u32_small (z := Detect.freq_at pts right - Detect.freq_at pts left))
      by (unfold in_u32; lia).
    unfold c_div. rewrite Z.quot_div_nonneg by lia.
    split; [reflexivity |]. split; [| reflexivity].
    split.
    + apply Z.div_le_lower_bound; lia.
    + apply Z.div_le_upper_bound; lia.
Qed.

Lemma nth_map_seq (A : Type) (f : nat -> A) (n i : nat) (d : A) :
  nth i (map f (seq 0 n)) d = if (i <? n)%nat then f i else d.
Proof.
  destruct (Nat.ltb_spec i n) as [Hi | Hi].
  - rewrite (nth_indep _ d (f 0%nat)) by (rewrite length_map, length_seq; exact Hi).
    rewrite map_nth. rewrite seq_nth by exact Hi. reflexivity.
  - apply nth_overflow. rewrite length_map, length_seq. exact Hi.
Qed.

Lemma bump_spectrum_frequencies (n : nat) (bumps : list (nat * nat)) :
  (n <= 1000)%nat ->
  frequencies_ascending (points (Scenario.bump_spectrum n bumps)).
Proof.
  intros Hn. unfold frequencies_ascending, Scenario.bump_spectrum, Detect.freq_at.
  cbn [points]. split.
  - intros i j Hij. rewrite length_map, length_seq in Hij. rewrite !nth_map_seq.
    destruct (Nat.ltb_spec i n); destruct (Nat.ltb_spec j n);
      cbn [pt_frequency Detect.point0]; lia.
  - intros i. rewrite nth_map_seq.
    destruct (Nat.ltb_spec i n); cbn [pt_frequency Detect.point0]; lia.
Qed.

Lemma output_peak_band_witness :
  exists left right : nat,
    (left <= idx (mk_candidate 43 (-4000)) <= right)%nat /\
    (right < length (points Scenario.narrow_carrier))%nat /\
    (forall k : nat, (left < k < right)%nat ->
                     wrap_s32 (level (mk_candidate 43 (-4000)) - 600)
                     <= Detect.level_at (points Scenario.narrow_carrier) k) /\
    pk_frequency (Detect.output_peak (points Scenario.narrow_carrier) (-7000)
                                     (mk_candidate 43 (-4000)))
    = (Detect.freq_at (points Scenario.narrow_carrier) left
       + Detect.freq_at (points Scenario.narrow_carrier) right) / 2 /\
    Detect.freq_at (points Scenario.narrow_carrier) left
    <= pk_frequency (Detect.output_peak (points Scenario.narrow_carrier) (-7000)
                                        (mk_candidate 43 (-4000)))
    <= Detect.freq_at (points Scenario.narrow_carrier) right /\
    pk_symbol_rate (Detect.output_peak (points Scenario.narrow_carrier) (-7000)
                                       (mk_candidate 43 (-4000)))
    = Detect.symbol_rate_of_bandwidth
        (Detect.freq_at (points Scenario.narrow_carrier) right
         - Detect.freq_at (points Scenario.narrow_carrier) left).
Proof.
  apply (@output_peak_band (points Scenario.narrow_carrier) (-7000)
           (mk_candidate 43 (-4000))).
  - apply Nat.ltb_lt. vm_compute. reflexivity.
  - apply bump_spectrum_frequencies. lia.
Defined.

(** ** Header helpers: driver and transponder frequency *)

Lemma wrap_u32_congr (a b k : Z) : a = b + k * 4294967296 -> wrap_u32 a = wrap_u32 b.
Proof. intros ->. unfold wrap_u32. apply Z.mod_add. lia. Qed.

Lemma wrap_s32_congr (a b k : Z) : a = b + k * 4294967296 -> wrap_s32 a = wrap_s32 b.
Proof.
  intros ->. unfold wrap_s32.
  replace (b + k * 4294967296 + 2147483648) with (b + 2147483648 + k * 4294967296) by lia.
  rewrite Z.mod_add by lia. reflexivity.
Qed.

Lemma wrap_u32_eq (z : Z) : exists k : Z, wrap_u32 z = z + k * 4294967296.
Proof.
  exists (- (z / 4294967296)). unfold wrap_u32.
  pose proof (Z.div_mod z 4294967296 ltac:(lia)). lia.
Qed.

Lemma wrap_s32_eq (z : Z) : exists k : Z, wrap_s32 z = z + k * 4294967296.
Proof.
  exists (- ((z + 2147483648) / 4294967296)). unfold wrap_s32.
  pose proof (Z.div_mod (z + 2147483648) 4294967296 ltac:(lia)). lia.
Qed.

Lemma transponder_of_driver (f b : Z) :
  in_u32 f -> blindscan_transponder_freq (blindscan_driver_freq f b) b = f.
Proof.
  intros Hf. unfold blindscan_transponder_freq, blindscan_driver_freq.
  assert (G : forall lof, wrap_u32 (wrap_s32 (wrap_u32 (f - lof)) + lof) = f).
  { intros lof.
    destruct (wrap_u32_eq (f - lof)) as [k1 E1].
    destruct (wrap_s32_eq (wrap_u32 (f - lof))) as [k2 E2].
    rewrite <- (wrap_u32_small Hf) at 2.
    apply (@wrap_u32_congr _ _ (k1 + k2)). lia. }
  destruct (b =? 0); apply G.
Qed.

Lemma driver_of_transponder (d b : Z) :
  in_s32 d -> blindscan_driver_freq (blindscan_transponder_freq d b) b = d.
Proof.
  intros Hd. unfold blindscan_transponder_freq, blindscan_driver_freq.
  assert (G : forall lof, wrap_s32 (wrap_u32 (wrap_u32 (d + lof) - lof)) = d).
  { intros lof.
    destruct (wrap_u32_eq (d + lof)) as [k1 E1].
    destruct (wrap_u32_eq (wrap_u32 (d + lof) - lof)) as [k2 E2].
    rewrite <- (wrap_s32_small Hd) at 2.
    apply (@wrap_s32_congr _ _ (k1 + k2)). lia. }
  destruct (b =? 0); apply G.
Qed.

(** X8: the two frequency conversions of the header are inverse of
    each other in 32-bit arithmetic, for either band: every [uint32_t]
    transponder frequency comes back from its driver frequency, and
    every [int32_t] driver frequency from its transponder frequency. *)
Theorem driver_transponder_inverse (b : Z) :
  (forall f : Z, in_u32 f ->
                 blindscan_transponder_freq (blindscan_driver_freq f b) b = f) /\
  (forall d : Z, in_s32 d ->
                 blindscan_driver_freq (blindscan_transponder_freq d b) b = d).
Proof.
  split.
  - intros f Hf. apply transponder_of_driver. exact Hf.
  - intros d Hd. apply driver_of_transponder. exact Hd.
Qed.

Lemma driver_transponder_inverse_witness :
  blindscan_transponder_freq (blindscan_driver_freq 11012000 0) 0 = 11012000 /\
  blindscan_driver_freq (blindscan_transponder_freq 1262000 0) 0 = 1262000.
Proof.
  split.
  - apply (proj1 (driver_transponder_inverse 0)). unfold in_u32. lia.
  - apply (proj2 (driver_transponder_inverse 0)). unfold in_s32. lia.
Defined.

(** ** De-duplication of the driver's candidates *)

Lemma dedup_scan_None (p : blindscan_spectral_peak) (acc : list blindscan_spectral_peak) :
  Dedup.dedup_scan p acc = None <-> Forall (fun d => far_apart d p) acc.
Proof.
  induction acc as [| d ds IH]; cbn [Dedup.dedup_scan].
  - split; [constructor | reflexivity].
  - destruct (Z.ltb_spec (Dedup.freq_diff p d) Dedup.dedupe_thresh) as [Hlt | Hge].
    + split; [discriminate |]. intros H. inversion H as [| ? ? Hd _]; subst.
      unfold far_apart in Hd. lia.
    + destruct (Dedup.dedup_scan p ds) as [r |]; cbn [option_map].
      * split; [discriminate |]. intros H. inversion H as [| ? ? _ Hds]; subst.
        apply IH in Hds. discriminate.
      * split; [| reflexivity]. intros _. constructor; [exact Hge | apply IH; reflexivity].
Qed.

Lemma dedup_scan_Some (p : blindscan_spectral_peak) :
  forall acc acc' : list blindscan_spectral_peak,
    Dedup.dedup_scan p acc = Some acc' ->
    length acc' = length acc /\ incl acc' (p :: acc) /\
    covered p acc' /\ (forall d, In d acc -> covered d acc').
Proof.
  induction acc as [| d ds IH]; intros acc' H; cbn [Dedup.dedup_scan] in H; [discriminate |].
  destruct (Dedup.freq_diff p d <? Dedup.dedupe_thresh).
  - injection H as <-. split; [reflexivity |].
    destruct (Z.gtb_spec (pk_level p) (pk_level d)) as [Hgt | Hle].
    + split; [intros x [<- | Hx]; [left; reflexivity | right; right; exact Hx] |].
      split; [exists p; split; [left; reflexivity | lia] |].
      intros x [<- | Hx].
      * exists p. split; [left; reflexivity | lia].
      * exists x. split; [right; exact Hx | lia].
    + split; [intros x Hx; right; exact Hx |].
      split; [exists d; split; [left; reflexivity | lia] |].
      intros x Hx. exists x. split; [exact Hx | lia].
  - destruct (Dedup.dedup_scan p ds) as [r |] eqn:E; cbn [option_map] in H; [| discriminate].
    injection H as <-. destruct (IH r eq_refl) as (Hlen & Hincl & Hp & Hall).
    split; [cbn [length]; lia |].
    split.
    { intros x [<- | Hx]; [right; left; reflexivity |].
      destruct (Hincl x Hx) as [<- | Hx']; [left; reflexivity | right; right; exact Hx']. }
    split.
    { destruct Hp as (q & Hq & Hle). exists q. split; [right; exact Hq | exact Hle]. }
    intros x [<- | Hx].
    + exists d. split; [left; reflexivity | lia].
    + destruct (Hall x Hx) as (q & Hq & Hle). exists q. split; [right; exact Hq | exact Hle].
Qed.

Lemma dedup_step_length (acc : list blindscan_spectral_peak) (p : blindscan_spectral_peak) :
  (length acc <= length (Dedup.dedup_step acc p) <= S (length acc))%nat.
Proof.
  unfold Dedup.dedup_step. destruct (Dedup.dedup_scan p acc) as [r |] eqn:E.
  - destruct (dedup_scan_Some p acc E) as [Hlen _]. lia.
  - destruct (length acc <? 512)%nat; [rewrite length_app; cbn [length] |]; lia.
Qed.

Lemma dedup_fold_length (l : list blindscan_spectral_peak) :
  forall acc : list blindscan_spectral_peak,
    (length acc <= length (fold_left Dedup.dedup_step l acc) <= length acc + length l)%nat.
Proof.
  induction l as [| p l IH]; intros acc; cbn [fold_left length]; [lia |].
  pose proof (dedup_step_length acc p). pose proof (IH (Dedup.dedup_step acc p)). lia.
Qed.

Lemma dedup_fold_sound (l : list blindscan_spectral_peak) :
  forall acc : list blindscan_spectral_peak,
    (length acc + length l <= 512)%nat ->
    incl (fold_left Dedup.dedup_step l acc) (acc ++ l) /\
    forall p, In p (acc ++ l) -> covered p (fold_left Dedup.dedup_step l acc).
Proof.
  induction l as [| p l IH]; intros acc Hlen; cbn [fold_left].
  - rewrite app_nil_r. split; [apply incl_refl |].
    intros x Hx. exists x. split; [exact Hx | lia].
  - cbn [length] in Hlen.
    pose proof (dedup_step_length acc p) as Hs.
    destruct (IH (Dedup.dedup_step acc p) ltac:(lia)) as [Hincl Hcov].
    assert (Hstep : incl (Dedup.dedup_step acc p) (acc ++ [p]) /\
                    forall x, In x (acc ++ [p]) -> covered x (Dedup.dedup_step acc p)).
    { unfold Dedup.dedup_step. destruct (Dedup.dedup_scan p acc) as [r |] eqn:E.
      - destruct (dedup_scan_Some p acc E) as (_ & Hi & Hp & Hall). split.
        + intros x Hx. apply in_or_app. destruct (Hi x Hx) as [<- | Hx'];
            [right; left; reflexivity | left; exact Hx'].
        + intros x Hx. apply in_app_or in Hx. destruct Hx as [Hx | [<- | []]];
            [apply Hall; exact Hx | exact Hp].
      - destruct (Nat.ltb_spec (length acc) 512) as [_ | Hfull]; [| lia]. split.
        + apply incl_refl.
        + intros x Hx. exists x. split; [exact Hx | lia]. }
    destruct Hstep as [Hsi Hsc].
    replace (acc ++ p :: l) with ((acc ++ [p]) ++ l) by (rewrite <- app_assoc; reflexivity).
    split.
    + intros x Hx. apply Hincl in Hx. apply in_or_app. apply in_app_or in Hx.
      destruct Hx as [Hx | Hx]; [left; apply Hsi; exact Hx | right; exact Hx].
    + intros x Hx. apply in_app_or in Hx. destruct Hx as [Hx | Hx].
      * destruct (Hsc x Hx) as (q & Hq & Hle).
        destruct (Hcov q ltac:(apply in_or_app; left; exact Hq)) as (q' & Hq' & Hle').
        exists q'. split; [exact Hq' | lia].
      * apply Hcov. apply in_or_app. right. exact Hx.
Qed.

(** X9: what the de-duplication of the driver's candidates keeps.  For
    at most 512 candidates, every survivor is one of the candidates, the
    list does not grow, every candidate is covered by a survivor at least
    as strong (so the strongest level survives), and a non-empty list
    stays non-empty. *)
Theorem dedupe_survivors (ps : list blindscan_spectral_peak) :
  (length ps <= 512)%nat ->
  incl (Dedup.dedupe_driver_peaks ps) ps /\
  (length (Dedup.dedupe_driver_peaks ps) <= length ps)%nat /\
  (forall p, In p ps -> covered p (Dedup.dedupe_driver_peaks ps)) /\
  (ps <> [] -> Dedup.dedupe_driver_peaks ps <> []).
Proof.
  intros Hlen.
  destruct (@dedup_fold_sound ps [] ltac:(cbn [length]; lia)) as [Hincl Hcov].
  cbn [app] in Hincl, Hcov.
  assert (Hself : forall p, In p ps -> covered p ps).
  { intros x Hx. exists x. split; [exact Hx | lia]. }
  unfold Dedup.dedupe_driver_peaks, Dedup.dedup_loop.
  destruct (Nat.ltb_spec 1 (length ps)) as [Hmany | Hfew].
  - cbv zeta.
    destruct (Nat.ltb_spec (length (fold_left Dedup.dedup_step ps [])) (length ps))
      as [Hshort | Hsame].
    + split; [exact Hincl |]. split; [lia |]. split; [exact Hcov |].
      intros Hne Hnil. destruct ps as [| p0 ps']; [congruence |].
      destruct (Hcov p0 ltac:(left; reflexivity)) as (q & Hq & _).
      rewrite Hnil in Hq. exact Hq.
    + split; [apply incl_refl |]. split; [lia |]. split; [exact Hself |]. intros H; exact H.
  - split; [apply incl_refl |]. split; [lia |]. split; [exact Hself |]. intros H; exact H.
Qed.

Lemma dedupe_survivors_witness :
  incl (Dedup.dedupe_driver_peaks Scenario.drifting_candidates)
       Scenario.drifting_candidates /\
  (length (Dedup.dedupe_driver_peaks Scenario.drifting_candidates)
   <= length Scenario.drifting_candidates)%nat /\
  (forall p, In p Scenario.drifting_candidates ->
             covered p (Dedup.dedupe_driver_peaks Scenario.drifting_candidates)) /\
  (Scenario.drifting_candidates <> [] ->
   Dedup.dedupe_driver_peaks Scenario.drifting_candidates <> []).
Proof.
  apply (@dedupe_survivors Scenario.drifting_candidates).
  apply Nat.leb_le. vm_compute. reflexivity.
Defined.

Lemma far_apart_snoc (acc : list blindscan_spectral_peak) (p : blindscan_spectral_peak) :
  ForallOrdPairs far_apart (acc ++ [p]) <->
  ForallOrdPairs far_apart acc /\ Forall (fun d => far_apart d p) acc.
Proof.
  induction acc as [| a acc IH]; cbn [app].
  - split; intros _; [split; constructor | constructor; constructor].
  - split.
    + intros H. inversion H as [| ? ? Ha Hrest]; subst.
      apply IH in Hrest. destruct Hrest as [H1 H2].
      apply Forall_app in Ha. destruct Ha as [Ha Hp].
      inversion Hp; subst.
      split; constructor; assumption.
    + intros [H1 H2]. inversion H1 as [| ? ? Ha Hrest]; subst.
      inversion H2 as [| ? ? Hp Hps]; subst.
      constructor.
      * apply Forall_app. split; [exact Ha | constructor; [exact Hp | constructor]].
      * apply IH. split; assumption.
Qed.

Lemma dedup_fold_apart (l : list blindscan_spectral_peak) :
  forall acc : list blindscan_spectral_peak,
    (length acc + length l <= 512)%nat ->
    ForallOrdPairs far_apart (acc ++ l) ->
    fold_left Dedup.dedup_step l acc = acc ++ l.
Proof.
  induction l as [| p l IH]; intros acc Hlen Hfar; cbn [fold_left].
  - rewrite app_nil_r. reflexivity.
  - cbn [length] in Hlen.
    replace (acc ++ p :: l) with ((acc ++ [p]) ++ l) in *
      by (rewrite <- app_assoc; reflexivity).
    assert (Hp : ForallOrdPairs far_apart (acc ++ [p])).
    { clear - Hfar. induction (acc ++ [p]) as [| a r IHr]; [constructor |].
      cbn [app] in Hfar. inversion Hfar as [| ? ? Ha Hrest]; subst.
      apply Forall_app in Ha. constructor; [apply Ha | apply IHr; exact Hrest]. }
    apply far_apart_snoc in Hp. destruct Hp as [_ Hp].
    apply dedup_scan_None in Hp.
    unfold Dedup.dedup_step at 2. rewrite Hp.
    destruct (Nat.ltb_spec (length acc) 512) as [_ | Hfull]; [| lia].
    apply IH; [rewrite length_app; cbn [length]; lia | exact Hfar].
Qed.

Lemma dedup_fold_full (l : list blindscan_spectral_peak) :
  forall acc : list blindscan_spectral_peak,
    length (fold_left Dedup.dedup_step l acc) = (length acc + length l)%nat ->
    ForallOrdPairs far_apart acc ->
    ForallOrdPairs far_apart (acc ++ l).
Proof.
  induction l as [| p l IH]; intros acc Hlen Hfar; cbn [fold_left] in Hlen.
  - rewrite app_nil_r. exact Hfar.
  - cbn [length] in Hlen.
    pose proof (dedup_step_length acc p) as Hs.
    pose proof (dedup_fold_length l (Dedup.dedup_step acc p)) as Hf.
    assert (Hgrow : length (Dedup.dedup_step acc p) = S (length acc)) by lia.
    assert (Hstep : Dedup.dedup_step acc p = acc ++ [p] /\ Dedup.dedup_scan p acc = None).
    { revert Hgrow. unfold Dedup.dedup_step.
      destruct (Dedup.dedup_scan p acc) as [r |] eqn:E.
      - destruct (dedup_scan_Some p acc E) as [Hr _]. lia.
      - destruct (length acc <? 512)%nat; [split; reflexivity | lia]. }
    destruct Hstep as [Hstep Hnone].
    replace (acc ++ p :: l) with ((acc ++ [p]) ++ l)
      by (rewrite <- app_assoc; reflexivity).
    rewrite Hstep in Hlen. apply IH.
    + rewrite Hlen, length_app. cbn [length]. lia.
    + apply far_apart_snoc. split; [exact Hfar | apply dedup_scan_None; exact Hnone].
Qed.

(** X10: when the de-duplication changes the list.  For at most 512
    driver candidates the block returns the list unchanged exactly when
    every two candidates are at least 2000 kHz apart; as soon as two of
    them are closer, the result is strictly shorter. *)
Theorem dedupe_unchanged_iff_far_apart (ps : list blindscan_spectral_peak) :
  (length ps <= 512)%nat ->
  (Dedup.dedupe_driver_peaks ps = ps <-> all_far_apart ps) /\
  (~ all_far_apart ps ->
   (length (Dedup.dedupe_driver_peaks ps) < length ps)%nat).
Proof.
  intros Hlen. unfold all_far_apart.
  pose proof (dedup_fold_length ps []) as Hfl. cbn [length] in Hfl.
  assert (Hsame : (length ps <= length (Dedup.dedup_loop ps))%nat ->
                  ForallOrdPairs far_apart ps).
  { intros Hge. apply (@dedup_fold_full ps []); [| constructor].
    unfold Dedup.dedup_loop in Hge. cbn [length]. lia. }
  assert (Hfew : (length ps <= 1)%nat -> ForallOrdPairs far_apart ps).
  { intros H1. destruct ps as [| a [| b r]]; [constructor | | cbn [length] in H1; lia].
    constructor; constructor. }
  assert (Hiff : Dedup.dedupe_driver_peaks ps = ps <-> ForallOrdPairs far_apart ps).
  { unfold Dedup.dedupe_driver_peaks.
    destruct (Nat.ltb_spec 1 (length ps)) as [Hmany | H1].
    - cbv zeta.
      destruct (Nat.ltb_spec (length (Dedup.dedup_loop ps)) (length ps)) as [Hshort | Hge].
      + split.
        * intros E. rewrite E in Hshort. lia.
        * intros Hfar. apply (@dedup_fold_apart ps []); [cbn [length]; lia | exact Hfar].
      + split; [intros _; apply Hsame; exact Hge | reflexivity].
    - split; [intros _; apply Hfew; exact H1 | reflexivity]. }
  split; [exact Hiff |].
  intros Hnot. unfold Dedup.dedupe_driver_peaks.
  destruct (Nat.ltb_spec 1 (length ps)) as [Hmany | H1].
  - cbv zeta.
    destruct (Nat.ltb_spec (length (Dedup.dedup_loop ps)) (length ps)) as [Hshort | Hge].
    + exact Hshort.
    + exfalso. apply Hnot. apply Hsame. exact Hge.
  - exfalso. apply Hnot. apply Hfew. exact H1.
Qed.

Lemma dedupe_unchanged_iff_far_apart_witness :
  (Dedup.dedupe_driver_peaks Scenario.drifting_candidates = Scenario.drifting_candidates
   <-> all_far_apart Scenario.drifting_candidates) /\
  (~ all_far_apart Scenario.drifting_candidates ->
   (length (Dedup.dedupe_driver_peaks Scenario.drifting_candidates)
    < length Scenario.drifting_candidates)%nat).
Proof.
  apply (@dedupe_unchanged_iff_far_apart Scenario.drifting_candidates).
  apply Nat.leb_le. vm_compute. reflexivity.
Defined.

(** ** The acquirers *)

Lemma add_points_fold (F L : nat -> Z) (l : list nat) :
  forall sd : blindscan_spectrum_data,
    fold_left (fun sd j => Acquire.blindscan_spectrum_add_point sd (F j) (L j)) l sd
    = mk_spectrum (points sd ++ map (fun j => mk_point (F j) (L j)) l)
                  (band sd) (polarisation_is_v sd).
Proof.
  induction l as [| j l IH]; intros sd; cbn [fold_left map].
  - rewrite app_nil_r. destruct sd; reflexivity.
  - rewrite IH. unfold Acquire.blindscan_spectrum_add_point.
    cbn [points band polarisation_is_v]. rewrite <- app_assoc. reflexivity.
Qed.

Lemma level_buffer_in_s32 (req : Acquire.spectrum_req) (j : nat) :
  Forall in_s32 (Acquire.rf_level req) -> in_s32 (Acquire.level_buffer req j).
Proof.
  intros H. unfold Acquire.level_buffer.
  destruct (Nat.lt_ge_cases j (length (Acquire.rf_level req))) as [Hj | Hj].
  - rewrite Forall_forall in H. apply H. apply nth_In. exact Hj.
  - rewrite nth_overflow by exact Hj. unfold in_s32. lia.
Qed.

Lemma neumo_points_eq (req : Acquire.spectrum_req) (b : Z) (pol_is_v : bool) :
  Acquire.neumo_points req b pol_is_v
  = mk_spectrum
      (map (fun j =>
              mk_point (blindscan_transponder_freq
                          (wrap_s32 (Acquire.freq_buffer req j)) b)
                       (c_div (Acquire.level_buffer req j) 10))
           (seq 0 (Acquire.num_freq req)))
      b pol_is_v.
Proof.
  unfold Acquire.neumo_points.
  rewrite (add_points_fold
             (fun j => blindscan_transponder_freq
                         (wrap_s32 (Acquire.freq_buffer req j)) b)
             (fun j => c_div (Acquire.level_buffer req j) 10)).
  reflexivity.
Qed.

Lemma unicable_points_eq (req : Acquire.spectrum_req) (center_freq scr_freq : Z)
      (pol_is_v : bool) :
  Acquire.unicable_points req center_freq scr_freq pol_is_v
  = mk_spectrum
      (map (fun j =>
              mk_point (Acquire.unicable_tp_freq center_freq scr_freq
                                                 (Acquire.freq_buffer req j))
                       (c_div (Acquire.level_buffer req j) 10))
           (seq 0 (Acquire.num_freq req)))
      (blindscan_band_for_freq center_freq) pol_is_v.
Proof.
  unfold Acquire.unicable_points.
  rewrite (add_points_fold
             (fun j => Acquire.unicable_tp_freq center_freq scr_freq
                                                (Acquire.freq_buffer req j))
             (fun j => c_div (Acquire.level_buffer req j) 10)).
  reflexivity.
Qed.

(** X11: the spectrum of the direct acquirer.  Whatever the driver
    answers within its C types, the buffer holds [num_freq] points whose
    levels are a tenth of an [int32_t] (so no level difference of the peak
    detector overflows), it carries the band asked for, and every driver
    frequency below 2^31 is recovered from the stored frequency by
    [blindscan_driver_freq]. *)
Theorem neumo_spectrum_well_formed (req : Acquire.spectrum_req) (b : Z) (pol_is_v : bool) :
  reply_well_typed req ->
  let sd := Acquire.neumo_points req b pol_is_v in
  length (points sd) = Acquire.num_freq req /\
  levels_bounded (points sd) /\
  band sd = b /\
  forall j : nat,
    (j < Acquire.num_freq req)%nat ->
    Acquire.freq_buffer req j < 2147483648 ->
    blindscan_driver_freq (Detect.freq_at (points sd) j) b = Acquire.freq_buffer req j.
Proof.
  intros (Hf & Hl & _ & Hnf & _ & _) sd. subst sd. rewrite neumo_points_eq.
  cbn [points band]. split; [rewrite length_map, length_seq; reflexivity |].
  split.
  - unfold levels_bounded. rewrite Forall_map. apply Forall_forall. intros j _.
    cbn [pt_level]. apply acquired_level_bounded. apply level_buffer_in_s32. exact Hl.
  - split; [reflexivity |]. intros j Hj Hsmall.
    unfold Detect.freq_at. rewrite nth_map_seq.
    destruct (Nat.ltb_spec j (Acquire.num_freq req)) as [_ | Hge]; [| lia].
    cbn [pt_frequency].
    assert (Hu : in_u32 (Acquire.freq_buffer req j)).
    { unfold Acquire.freq_buffer. rewrite Forall_forall in Hf. apply Hf.
      apply nth_In. lia. }
    assert (Hs : in_s32 (Acquire.freq_buffer req j))
      by (unfold in_u32 in Hu; unfold in_s32; lia).
    rewrite (wrap_s32_small Hs). apply driver_of_transponder. exact Hs.
Qed.

Lemma neumo_spectrum_well_formed_witness :
  let req := Acquire.mk_req [1262000; 1262100] [-45000; -31007] [] 2 0 in
  let sd := Acquire.neumo_points req 0 false in
  length (points sd) = Acquire.num_freq req /\
  levels_bounded (points sd) /\
  band sd = 0 /\
  forall j : nat,
    (j < Acquire.num_freq req)%nat ->
    Acquire.freq_buffer req j < 2147483648 ->
    blindscan_driver_freq (Detect.freq_at (points sd) j) 0 = Acquire.freq_buffer req j.
Proof.
  apply (@neumo_spectrum_well_formed
           (Acquire.mk_req [1262000; 1262100] [-45000; -31007] [] 2 0) 0 false).
  unfold reply_well_typed, in_u32, in_s32. cbn.
  repeat split; repeat constructor; lia.
Defined.

Lemma unicable_tp_freq_exact (center_freq scr_freq f : Z) :
  0 <= scr_freq <= center_freq -> scr_freq < 2147483648 ->
  0 <= f < 2147483648 ->
  center_freq + (f - scr_freq) < 2147483648 ->
  Acquire.unicable_tp_freq center_freq scr_freq f = center_freq + (f - scr_freq).
Proof.
  intros Hs Hs' Hf Hc. unfold Acquire.unicable_tp_freq.
  rewrite (wrap_s32_small (z := f)) by (unfold in_s32; lia).
  rewrite (wrap_s32_small (z := scr_freq)) by (unfold in_s32; lia).
  rewrite (wrap_s32_small (z := f - scr_freq)) by (unfold in_s32; lia).
  apply wrap_u32_small. unfold in_u32. lia.
Qed.

(** X12: the spectrum of one Unicable slice.  The acquirer returns
    nothing exactly when the driver reports no point.  Otherwise, for IF
    frequencies in ascending order and a slice that stays below 2^31 once
    moved, the buffer holds [num_freq] points with levels a tenth of an
    [int32_t], every point is as far from the slice centre as the driver
    frequency is from the SCR frequency, and the stored frequencies are
    again in ascending order. *)
Theorem unicable_slice_well_formed (req : Acquire.spectrum_req)
        (center_freq scr_freq : Z) (pol_is_v : bool) (max_peaks : Z) :
  reply_well_typed req ->
  reply_if_ascending req ->
  slice_in_range req center_freq scr_freq ->
  match Acquire.unicable_result req center_freq scr_freq pol_is_v max_peaks with
  | None => Acquire.num_freq req = 0%nat
  | Some (sd, _) =>
      (0 < Acquire.num_freq req)%nat /\
      length (points sd) = Acquire.num_freq req /\
      levels_bounded (points sd) /\
      (forall j : nat,
          (j < Acquire.num_freq req)%nat ->
          Detect.freq_at (points sd) j - center_freq
          = Acquire.freq_buffer req j - scr_freq) /\
      frequencies_ascending (points sd)
  end.
Proof.
  intros (_ & Hl & _) [Hasc Hif] (Hs & Hs' & Hc).
  unfold Acquire.unicable_result.
  destruct (Nat.eqb_spec (Acquire.num_freq req) 0) as [E | Hne]; [exact E |].
  rewrite unicable_points_eq. cbn [points].
  assert (Hat : forall j,
             Detect.freq_at
               (map (fun j0 =>
                       mk_point (Acquire.unicable_tp_freq center_freq scr_freq
                                                          (Acquire.freq_buffer req j0))
                                (c_div (Acquire.level_buffer req j0) 10))
                    (seq 0 (Acquire.num_freq req))) j
             = if (j <? Acquire.num_freq req)%nat
               then center_freq + (Acquire.freq_buffer req j - scr_freq)
               else 0).
  { intros j. unfold Detect.freq_at. rewrite nth_map_seq.
    destruct (Nat.ltb_spec j (Acquire.num_freq req)) as [Hj | Hj]; [| reflexivity].
    cbn [pt_frequency]. apply unicable_tp_freq_exact; auto. }
  split; [lia |].
  split; [rewrite length_map, length_seq; reflexivity |].
  split.
  { unfold levels_bounded. rewrite Forall_map. apply Forall_forall. intros j _.
    cbn [pt_level]. apply acquired_level_bounded. apply level_buffer_in_s32. exact Hl. }
  split.
  - intros j Hj. rewrite Hat.
    destruct (Nat.ltb_spec j (Acquire.num_freq req)); lia.
  - split.
    + intros i j Hij. rewrite length_map, length_seq in Hij. rewrite !Hat.
      destruct (Nat.ltb_spec i (Acquire.num_freq req));
        destruct (Nat.ltb_spec j (Acquire.num_freq req)); try lia.
      pose proof (Hasc i j ltac:(lia)). lia.
    + intros j. rewrite Hat.
      destruct (Nat.ltb_spec j (Acquire.num_freq req)) as [Hj | Hj]; [| lia].
      pose proof (Hif j Hj). pose proof (Hc j Hj). lia.
Qed.

Lemma unicable_slice_well_formed_witness :
  let req := Acquire.mk_req [1185000; 1210000; 1235000] [-45000; -31007; -44000] [] 3 0 in
  match Acquire.unicable_result req 10725000 1210000 false 512 with
  | None => Acquire.num_freq req = 0%nat
  | Some (sd, _) =>
      (0 < Acquire.num_freq req)%nat /\
      length (points sd) = Acquire.num_freq req /\
      levels_bounded (points sd) /\
      (forall j : nat,
          (j < Acquire.num_freq req)%nat ->
          Detect.freq_at (points sd) j - 10725000
          = Acquire.freq_buffer req j - 1210000) /\
      frequencies_ascending (points sd)
  end.
Proof.
  apply (@unicable_slice_well_formed
           (Acquire.mk_req [1185000; 1210000; 1235000] [-45000; -31007; -44000] [] 3 0)
           10725000 1210000 false 512).
  - unfold reply_well_typed, in_u32, in_s32. cbn.
    repeat split; repeat constructor; lia.
  - unfold reply_if_ascending. cbn [Acquire.num_freq]. split.
    + intros i j Hij. unfold Acquire.freq_buffer. cbn [Acquire.freq].
      destruct i as [| [| [| i]]]; destruct j as [| [| [| j]]]; cbn [nth]; lia.
    + intros j Hj. unfold Acquire.freq_buffer. cbn [Acquire.freq].
      destruct j as [| [| [| j]]]; cbn [nth]; lia.
  - unfold slice_in_range. cbn [Acquire.num_freq].
    split; [lia |]. split; [lia |].
    intros j Hj. unfold Acquire.freq_buffer. cbn [Acquire.freq].
    destruct j as [| [| [| j]]]; cbn [nth]; lia.
Defined.

Lemma candidate_level_bounded (req : Acquire.spectrum_req) (j : nat) :
  Forall (fun c => in_s32 (Acquire.np_level c)) (Acquire.candidates req) ->
  level_bounded (c_div (Acquire.np_level (Acquire.candidates_buffer req j)) 10).
Proof.
  intros H. apply acquired_level_bounded. unfold Acquire.candidates_buffer.
  destruct (Nat.lt_ge_cases j (length (Acquire.candidates req))) as [Hj | Hj].
  - rewrite Forall_forall in H. apply H. apply nth_In. exact Hj.
  - rewrite nth_overflow by exact Hj. cbn [Acquire.np_level]. unfold in_s32. lia.
Qed.

(** X13: the candidate copies of the two acquirers.  With a
    non-negative [max_peaks] neither loop writes more than [max_peaks]
    entries nor more than the driver reported, and every copied level is
    a tenth of an [int32_t].  With a negative [max_peaks] the two loops
    differ: the direct acquirer compares after a cast to [uint32_t] and
    copies every reported candidate, the slice acquirer compares as [int]
    and copies none. *)
Theorem acquired_candidates_bounded (req : Acquire.spectrum_req)
        (b center_freq scr_freq max_peaks : Z) :
  reply_well_typed req ->
  in_s32 max_peaks ->
  let direct := Acquire.neumo_peaks req b max_peaks in
  let slice := Acquire.unicable_peaks req center_freq scr_freq max_peaks in
  (0 <= max_peaks ->
   length direct = Nat.min (Acquire.num_candidates req) (Z.to_nat max_peaks) /\
   length slice = Nat.min (Acquire.num_candidates req) (Z.to_nat max_peaks)) /\
  (max_peaks < 0 ->
   length direct = Acquire.num_candidates req /\ slice = []) /\
  Forall (fun p => level_bounded (pk_level p)) direct /\
  Forall (fun p => level_bounded (pk_level p)) slice.
Proof.
  intros (_ & _ & Hc & _ & _ & _ & Hn) Hm direct slice. subst direct slice.
  unfold Acquire.neumo_peaks, Acquire.unicable_peaks.
  split; [| split; [| split]].
  - intros Hpos. rewrite !length_map, !length_seq.
    rewrite (wrap_u32_small (z := max_peaks)) by (unfold in_s32 in Hm; unfold in_u32; lia).
    split; reflexivity.
  - intros Hneg. rewrite length_map, length_seq.
    assert (Hw : wrap_u32 max_peaks = max_peaks + 4294967296).
    { unfold wrap_u32. unfold in_s32 in Hm.
      rewrite <- (Z.mod_add max_peaks 1 4294967296) by lia.
      apply Z.mod_small. lia. }
    rewrite Hw. unfold in_s32 in Hm. split.
    + apply Nat.min_l. lia.
    + replace (Z.to_nat max_peaks) with 0%nat by lia.
      rewrite Nat.min_0_r. reflexivity.
  - rewrite Forall_map. apply Forall_forall. intros j _. cbn [pk_level].
    apply candidate_level_bounded. exact Hc.
  - rewrite Forall_map. apply Forall_forall. intros j _. cbn [pk_level].
    apply candidate_level_bounded. exact Hc.
Qed.

Lemma acquired_candidates_bounded_witness :
  let req :=
    Acquire.mk_req [] []
                   [Acquire.mk_neumo_peak 1262000 27500000 12000 (-31007);
                    Acquire.mk_neumo_peak 1300000 22000000 9000 (-35000)] 0 2 in
  let direct := Acquire.neumo_peaks req 0 1 in
  let slice := Acquire.unicable_peaks req 10725000 1210000 1 in
  (0 <= 1 ->
   length direct = Nat.min (Acquire.num_candidates req) (Z.to_nat 1) /\
   length slice = Nat.min (Acquire.num_candidates req) (Z.to_nat 1)) /\
  (1 < 0 ->
   length direct = Acquire.num_candidates req /\ slice = []) /\
  Forall (fun p => level_bounded (pk_level p)) direct /\
  Forall (fun p => level_bounded (pk_level p)) slice.
Proof.
  apply (@acquired_candidates_bounded
           (Acquire.mk_req [] []
                           [Acquire.mk_neumo_peak 1262000 27500000 12000 (-31007);
                            Acquire.mk_neumo_peak 1300000 22000000 9000 (-35000)] 0 2)
           0 10725000 1210000 1).
  - unfold reply_well_typed.
    cbn [Acquire.freq Acquire.rf_level Acquire.candidates Acquire.num_freq
         Acquire.num_candidates length].
    split; [constructor |]. split; [constructor |].
    split; [repeat constructor; cbn [Acquire.np_level]; unfold in_s32; lia |].
    lia.
  - unfold in_s32. lia.
Defined.

Ltac unwrap32 :=
  repeat first
    [ rewrite wrap_u32_small by (unfold in_u32; lia)
    | rewrite wrap_s32_small by (unfold in_s32; lia) ].

(** X14: the range handed to the driver by the direct acquirer.  For a
    session range in the Ku band and a band that the plan selects (low
    only when the range starts below the switch frequency, high only when
    it ends above it), the two driver frequencies are non-negative and in
    order, they are the session range clipped at 11 700 000 kHz minus the
    band's local oscillator, and the clipped range lies inside the session
    range and inside the band. *)
Theorem neumo_scan_range_clipped (bs_start_freq bs_end_freq b : Z) :
  0 <= b <= 1 ->
  10600000 <= bs_start_freq <= bs_end_freq ->
  bs_end_freq < 2147483648 ->
  (b = 0 -> bs_start_freq < BLINDSCAN_LNB_SLOF) ->
  (b = 1 -> BLINDSCAN_LNB_SLOF < bs_end_freq) ->
  let s := fst (Acquire.neumo_scan_range bs_start_freq bs_end_freq b) in
  let e := snd (Acquire.neumo_scan_range bs_start_freq bs_end_freq b) in
  0 <= s <= e /\
  bs_start_freq <= blindscan_transponder_freq s b /\
  blindscan_transponder_freq s b <= blindscan_transponder_freq e b /\
  blindscan_transponder_freq e b <= bs_end_freq /\
  blindscan_transponder_freq s b
  = (if b =? 0 then bs_start_freq else Z.max bs_start_freq BLINDSCAN_LNB_SLOF) /\
  blindscan_transponder_freq e b
  = (if b =? 0 then Z.min bs_end_freq BLINDSCAN_LNB_SLOF else bs_end_freq).
Proof.
  intros Hb Hse Hend H0 H1.
  unfold Acquire.neumo_scan_range, blindscan_driver_freq, blindscan_transponder_freq.
  unfold BLINDSCAN_LNB_SLOF, BLINDSCAN_LNB_LOF_LOW, BLINDSCAN_LNB_LOF_HIGH in *.
  cbv zeta. rewrite !Z.gtb_ltb.
  destruct (Z.eqb_spec b 0) as [E0 | E0]; cbn [negb andb].
  - specialize (H0 E0).
    destruct (Z.ltb_spec 11700000 bs_end_freq) as [Hclip | Hclip].
    + unwrap32.
      destruct (Z.ltb_spec (11700000 - 9750000) (bs_start_freq - 9750000)); [lia |].
      cbn [fst snd]. unwrap32. lia.
    + unwrap32.
      destruct (Z.ltb_spec (bs_end_freq - 9750000) (bs_start_freq - 9750000)); [lia |].
      cbn [fst snd]. unwrap32. lia.
  - assert (E1 : b = 1) by lia. specialize (H1 E1).
    destruct (Z.ltb_spec bs_start_freq 11700000) as [Hclip | Hclip].
    + unwrap32.
      destruct (Z.ltb_spec (bs_end_freq - 10600000) (11700000 - 10600000)); [lia |].
      cbn [fst snd]. unwrap32. lia.
    + unwrap32.
      destruct (Z.ltb_spec (bs_end_freq - 10600000) (bs_start_freq - 10600000)); [lia |].
      cbn [fst snd]. unwrap32. lia.
Qed.

Lemma neumo_scan_range_clipped_witness :
  let s := fst (Acquire.neumo_scan_range 10700000 12750000 1) in
  let e := snd (Acquire.neumo_scan_range 10700000 12750000 1) in
  0 <= s <= e /\
  10700000 <= blindscan_transponder_freq s 1 /\
  blindscan_transponder_freq s 1 <= blindscan_transponder_freq e 1 /\
  blindscan_transponder_freq e 1 <= 12750000 /\
  blindscan_transponder_freq s 1
  = (if 1 =? 0 then 10700000 else Z.max 10700000 BLINDSCAN_LNB_SLOF) /\
  blindscan_transponder_freq e 1
  = (if 1 =? 0 then Z.min 12750000 BLINDSCAN_LNB_SLOF else 12750000).
Proof.
  apply (@neumo_scan_range_clipped 10700000 12750000 1);
    unfold BLINDSCAN_LNB_SLOF; lia.
Defined.

(** X15: the Unicable command and the slice range.  The IF frequency
    given to the gateway's tune function is the absolute value of the
    header's driver frequency of the slice centre, and the slice range
    programmed into the driver is centred on the SCR frequency and one
    step wide. *)
Theorem unicable_if_and_range (center_freq scr_freq step_size b : Z) :
  0 <= center_freq < 2147483648 ->
  0 <= step_size < 2147483648 ->
  step_size / 2 <= scr_freq < 2147483648 - step_size ->
  Acquire.unicable_if_freq center_freq b
  = Z.abs (blindscan_driver_freq center_freq b) /\
  Acquire.unicable_scan_range scr_freq step_size
  = (scr_freq - step_size / 2, scr_freq + step_size / 2).
Proof.
  intros Hc Hst Hscr. split.
  - unfold Acquire.unicable_if_freq, blindscan_driver_freq.
    unfold BLINDSCAN_LNB_LOF_LOW, BLINDSCAN_LNB_LOF_HIGH.
    assert (G : forall lof, 0 <= lof < 2147483648 ->
                            (if center_freq >? lof
                             then center_freq - lof else lof - center_freq)
                            = Z.abs (wrap_s32 (wrap_u32 (center_freq - lof)))).
    { intros lof Hlof.
      assert (E : wrap_s32 (wrap_u32 (center_freq - lof)) = center_freq - lof).
      { destruct (wrap_u32_eq (center_freq - lof)) as [k Ek].
        rewrite (@wrap_s32_congr _ (center_freq - lof) k Ek).
        apply wrap_s32_small. unfold in_s32. lia. }
      rewrite E. rewrite Z.gtb_ltb.
      destruct (Z.ltb_spec lof center_freq); lia. }
    destruct (b =? 0); apply G; lia.
  - unfold Acquire.unicable_scan_range, c_div.
    rewrite Z.quot_div_nonneg by lia.
    assert (Hh : 0 <= step_size / 2 <= step_size).
    { split; [apply Z.div_pos; lia |]. apply Z.div_le_upper_bound; lia. }
    rewrite (wrap_s32_small (z := step_size / 2)) by (unfold in_s32; lia).
    rewrite (wrap_u32_small (z := scr_freq - step_size / 2)) by (unfold in_u32; lia).
    rewrite (wrap_u32_small (z := scr_freq + step_size / 2)) by (unfold in_u32; lia).
    rewrite (wrap_s32_small (z := scr_freq - step_size / 2)) by (unfold in_s32; lia).
    rewrite (wrap_s32_small (z := scr_freq + step_size / 2)) by (unfold in_s32; lia).
    reflexivity.
Qed.

Lemma unicable_if_and_range_witness :
  Acquire.unicable_if_freq 10725000 0
  = Z.abs (blindscan_driver_freq 10725000 0) /\
  Acquire.unicable_scan_range 1210000 50000
  = (1210000 - 50000 / 2, 1210000 + 50000 / 2).
Proof.
  apply (@unicable_if_and_range 10725000 1210000 50000 0); cbn; lia.
Defined.

(** ** The worker's Unicable slices *)

Lemma unicable_total_steps_eq (band_start band_end : Z) :
  0 <= band_start <= band_end -> band_end < 2147483648 ->
  Worker.unicable_total_steps band_start band_end
  = (band_end - band_start + 49999) / 50000.
Proof.
  intros Hb He. unfold Worker.unicable_total_steps, Worker.step_size, c_div.
  rewrite (wrap_u32_small (z := band_end - band_start)) by (unfold in_u32; lia).
  rewrite (wrap_u32_small (z := band_end - band_start + 50000 - 1))
    by (unfold in_u32; lia).
  rewrite Z.quot_div_nonneg by lia.
  replace (band_end - band_start + 50000 - 1) with (band_end - band_start + 49999) by lia.
  apply wrap_s32_small. unfold in_s32.
  pose proof (Z.div_mod (band_end - band_start + 49999) 50000 ltac:(lia)).
  pose proof (Z.mod_pos_bound (band_end - band_start + 49999) 50000 ltac:(lia)).
  lia.
Qed.

Lemma slice_center_eq (band_start band_end step : Z) :
  25000 <= band_start <= band_end -> band_end < 2147483648 ->
  0 <= step -> step * 50000 <= band_end - band_start + 49999 ->
  Worker.slice_center band_start band_end step
  = if band_start + step * 50000 + 25000 >? band_end
    then band_end - 25000
    else band_start + step * 50000 + 25000.
Proof.
  intros Hb He Hs Hk. unfold Worker.slice_center, Worker.step_size, c_div.
  change (Z.quot 50000 2) with 25000.
  rewrite (wrap_u32_small (z := step * 50000)) by (unfold in_u32; lia).
  rewrite (wrap_u32_small (z := band_start + step * 50000 + 25000))
    by (unfold in_u32; lia).
  rewrite (wrap_u32_small (z := band_end - 25000)) by (unfold in_u32; lia).
  reflexivity.
Qed.

(** X16: the Unicable slices cover the band.  For a non-empty band
    range the worker runs at least one slice, every slice centre is at
    most the band end and less than half a step below the band start, and
    every frequency of the range lies within half a step (25 000 kHz) of
    the centre of some slice of the loop. *)
Theorem unicable_slices_cover (band_start band_end f : Z) :
  25000 <= band_start -> band_start < band_end -> band_end < 2147483648 ->
  band_start <= f <= band_end ->
  0 < Worker.unicable_total_steps band_start band_end /\
  (forall step : nat,
      In step (seq 0 (Z.to_nat (Worker.unicable_total_steps band_start band_end))) ->
      band_start - 25000 < Worker.slice_center band_start band_end (Z.of_nat step)
      <= band_end) /\
  exists step : nat,
    In step (seq 0 (Z.to_nat (Worker.unicable_total_steps band_start band_end))) /\
    Z.abs (f - Worker.slice_center band_start band_end (Z.of_nat step)) <= 25000.
Proof.
  intros Hlow Hlt He Hf.
  rewrite unicable_total_steps_eq by lia.
  set (T := (band_end - band_start + 49999) / 50000).
  pose proof (Z.div_mod (band_end - band_start + 49999) 50000 ltac:(lia)) as HT.
  pose proof (Z.mod_pos_bound (band_end - band_start + 49999) 50000 ltac:(lia)) as HTr.
  fold T in HT.
  set (Q := (f - band_start) / 50000).
  pose proof (Z.div_mod (f - band_start) 50000 ltac:(lia)) as HQ.
  pose proof (Z.mod_pos_bound (f - band_start) 50000 ltac:(lia)) as HQr.
  fold Q in HQ.
  assert (HT1 : 1 <= T) by lia.
  assert (HQ0 : 0 <= Q) by lia.
  assert (HQT : Q <= T) by lia.
  split; [lia |]. split.
  - intros step Hin. apply in_seq in Hin.
    rewrite slice_center_eq by lia.
    rewrite Z.gtb_ltb.
    destruct (Z.ltb_spec band_end (band_start + Z.of_nat step * 50000 + 25000)); lia.
  - exists (Z.to_nat (Z.min Q (T - 1))). split.
    + apply in_seq. lia.
    + rewrite Z2Nat.id by lia. rewrite slice_center_eq by lia.
      rewrite Z.gtb_ltb.
      destruct (Z.ltb_spec band_end (band_start + Z.min Q (T - 1) * 50000 + 25000)); lia.
Qed.

Lemma unicable_slices_cover_witness :
  0 < Worker.unicable_total_steps 10700000 10800000 /\
  (forall step : nat,
      In step (seq 0 (Z.to_nat (Worker.unicable_total_steps 10700000 10800000))) ->
      10700000 - 25000 < Worker.slice_center 10700000 10800000 (Z.of_nat step)
      <= 10800000) /\
  exists step : nat,
    In step (seq 0 (Z.to_nat (Worker.unicable_total_steps 10700000 10800000))) /\
    Z.abs (10800000 - Worker.slice_center 10700000 10800000 (Z.of_nat step)) <= 25000.
Proof.
  apply (@unicable_slices_cover 10700000 10800000 10800000); lia.
Defined.

(** ** The worker: existing muxes and the peak list *)

Lemma mux_half_bandwidth_exact (dm : dvb_mux) :
  in_u32 (dmc_symbol_rate dm) ->
  exists rolloff_percent : Z,
    5 <= rolloff_percent <= 35 /\
    Worker.blindscan_mux_half_bandwidth dm
    = (dmc_symbol_rate dm / 1000) * (100 + rolloff_percent) / 200.
Proof.
  intros Hsr. unfold Worker.blindscan_mux_half_bandwidth, c_div.
  unfold in_u32 in Hsr.
  assert (Hq : 0 <= dmc_symbol_rate dm / 1000 <= 4294967).
  { split; [apply Z.div_pos; lia |].
    apply Z.lt_succ_r. apply Z.div_lt_upper_bound; lia. }
  assert (G : forall r, 5 <= r <= 35 ->
                        Z.quot (wrap_u32 (Z.quot (dmc_symbol_rate dm) 1000 * (100 + r))) 200
                        = dmc_symbol_rate dm / 1000 * (100 + r) / 200).
  { intros r Hr. rewrite (Z.quot_div_nonneg (dmc_symbol_rate dm) 1000) by lia.
    rewrite wrap_u32_small by (unfold in_u32; nia).
    apply Z.quot_div_nonneg; nia. }
  destruct (dmc_fe_rolloff dm);
    match goal with
    | |- context [100 + ?r] => exists r; split; [lia | apply G; lia]
    end.
Qed.

(** X17: the search for an existing mux around a peak.  The half
    bandwidth is [SR/1000 * (100 + rolloff) / 200] without overflow for
    every [uint32_t] symbol rate.  For muxes whose band lies inside the
    [uint32_t] range, a mux that is returned belongs to the network, has
    the polarisation of the peak and holds the peak inside its band; when
    none is returned, no mux of the network on that polarisation does. *)
Theorem overlapping_mux_sound (peak : blindscan_peak) (muxes : list dvb_mux) :
  Forall mux_in_range muxes ->
  match Worker.blindscan_peak_find_overlapping_mux peak muxes with
  | Some dm => In dm muxes /\ peak_within peak dm
  | None => forall dm : dvb_mux, In dm muxes -> ~ peak_within peak dm
  end.
Proof.
  induction muxes as [| dm rest IH]; intros Hr; cbn [Worker.blindscan_peak_find_overlapping_mux].
  - intros dm [].
  - inversion Hr as [| ? ? (Hsr & Hlo & Hhi) Hrest]; subst.
    specialize (IH Hrest).
    destruct (mux_half_bandwidth_exact dm Hsr) as (r & Hrr & Ehb).
    assert (Hhb : 0 <= Worker.blindscan_mux_half_bandwidth dm).
    { rewrite Ehb. unfold in_u32 in Hsr.
      apply Z.div_pos; [| lia]. apply Z.mul_nonneg_nonneg; [| lia].
      apply Z.div_pos; lia. }
    destruct (Z.eqb_spec (dmc_polarisation dm) (bp_polarisation peak)) as [Ep | Ep];
      cbn [negb].
    + rewrite (wrap_u32_small (z := dmc_fe_freq dm - Worker.blindscan_mux_half_bandwidth dm))
        by (unfold in_u32; lia).
      rewrite (wrap_u32_small (z := dmc_fe_freq dm + Worker.blindscan_mux_half_bandwidth dm))
        by (unfold in_u32; lia).
      rewrite Z.geb_leb.
      destruct (Z.leb_spec (dmc_fe_freq dm - Worker.blindscan_mux_half_bandwidth dm)
                           (bp_frequency peak)) as [Hl | Hl]; cbn [andb].
      * destruct (Z.leb_spec (bp_frequency peak)
                             (dmc_fe_freq dm + Worker.blindscan_mux_half_bandwidth dm))
          as [Hh | Hh].
        -- split; [left; reflexivity |]. split; [exact Ep | lia].
        -- destruct (Worker.blindscan_peak_find_overlapping_mux peak rest) as [dm' |].
           ++ destruct IH as [Hin Hw]. split; [right; exact Hin | exact Hw].
           ++ intros dm' [<- | Hin]; [| apply IH; exact Hin].
              intros [_ Habs]. lia.
      * destruct (Worker.blindscan_peak_find_overlapping_mux peak rest) as [dm' |].
        -- destruct IH as [Hin Hw]. split; [right; exact Hin | exact Hw].
        -- intros dm' [<- | Hin]; [| apply IH; exact Hin].
           intros [_ Habs]. lia.
    + destruct (Worker.blindscan_peak_find_overlapping_mux peak rest) as [dm' |].
      * destruct IH as [Hin Hw]. split; [right; exact Hin | exact Hw].
      * intros dm' [<- | Hin]; [| apply IH; exact Hin].
        intros [Hp _]. contradiction.
Qed.

Lemma known_mux_in_range : Forall mux_in_range [Network.known_mux].
Proof.
  constructor; [| constructor].
  unfold mux_in_range, in_u32. vm_compute. repeat split; discriminate.
Qed.

Lemma overlapping_mux_sound_witness :
  match Worker.blindscan_peak_find_overlapping_mux Scenario.peak_10M [Network.known_mux] with
  | Some dm => In dm [Network.known_mux] /\ peak_within Scenario.peak_10M dm
  | None => forall dm : dvb_mux, In dm [Network.known_mux] ->
                                 ~ peak_within Scenario.peak_10M dm
  end.
Proof.
  apply (@overlapping_mux_sound Scenario.peak_10M [Network.known_mux]).
  exact known_mux_in_range.
Defined.

Section Worker_invariant.

Import Worker.

Variable env : environment.
Variable Inv : blindscan_session -> Prop.
Variable pols0 : list bool.

Hypothesis Inv_state : forall st bs, Inv bs -> Inv (write_state st bs).
Hypothesis Inv_progress : forall v bs, Inv bs -> Inv (write_progress v bs).
Hypothesis Inv_store : forall pol_is_v b sd bs, Inv bs -> Inv (store_spectrum pol_is_v b sd bs).
Hypothesis Inv_insert :
  forall pol_is_v dp bs,
    In pol_is_v pols0 -> Inv bs -> Inv (insert_peak (new_peak env pol_is_v dp) bs).

Lemma add_peaks_invariant (pol_is_v : bool) (driver_peaks : list blindscan_spectral_peak) :
  In pol_is_v pols0 ->
  forall bs : blindscan_session, Inv bs -> Inv (add_peaks env pol_is_v driver_peaks bs).
Proof.
  intros Hp. unfold add_peaks.
  induction driver_peaks as [| dp rest IH]; intros bs H; cbn [fold_left].
  - exact H.
  - apply IH. apply Inv_insert; assumption.
Qed.

Lemma slice_loop_invariant (pol_is_v : bool)
      (b band_start band_end total_steps total_scans : Z) (steps : list nat) :
  forall (w : worker_state) (pts : list blindscan_spectrum_point)
         (driver_peaks : list blindscan_spectral_peak),
    Inv (w_bs w) ->
    Inv (w_bs (fst (fst (slice_loop env pol_is_v b band_start band_end total_steps
                                    total_scans steps w pts driver_peaks)))).
Proof.
  induction steps as [| step steps IH]; intros w pts driver_peaks H;
    cbn [slice_loop].
  - exact H.
  - unfold poll_stop. destruct (should_stop env (w_clock w)); [exact H |].
    cbv zeta.
    match goal with
    | |- context [on_session (write_progress ?v) (tick w)] =>
        set (w1 := on_session (write_progress v) (tick w))
    end.
    assert (H1 : Inv (w_bs w1)) by (apply Inv_progress; exact H).
    clearbody w1.
    destruct (send_unicable_command env (w_clock w1) _ pol_is_v b); cbn [negb].
    + destruct (acquire_unicable_slice env _ _ _) as [[slice_points slice_peaks] |];
        apply IH; exact H1.
    + apply IH. exact H1.
Qed.

Lemma acquire_slot_invariant (total_scans : Z) (pol_is_v : bool) (b : Z)
      (w : worker_state) :
  Inv (w_bs w) ->
  Inv (w_bs (fst (fst (acquire_slot env total_scans pol_is_v b w)))).
Proof.
  intros H. unfold acquire_slot.
  destruct (lse_en50494 env) as [le_frequency |].
  - match goal with
    | |- context [slice_loop ?e ?p ?b0 ?bs ?be ?ts ?tt ?st ?w0 ?pt ?dp] =>
        pose proof (@slice_loop_invariant p b0 bs be ts tt st w0 pt dp H) as Hl;
        destruct (slice_loop e p b0 bs be ts tt st w0 pt dp) as [[w' pts'] dp']
    end.
    exact Hl.
  - destruct (configure_lnb env _ _ _); cbn [negb]; [| exact H].
    destruct (acquire_spectrum_neumo env _ _ _) as [[sd peaks] |]; exact H.
Qed.

Lemma scan_slot_invariant (total_scans : Z) (pol_is_v : bool) (b : Z)
      (w : worker_state) :
  In pol_is_v pols0 ->
  Inv (w_bs w) ->
  Inv (w_bs (scan_slot env total_scans pol_is_v b w)).
Proof.
  intros Hp H. unfold scan_slot. cbv zeta.
  match goal with
  | |- context [acquire_slot env total_scans pol_is_v b ?w0] =>
      assert (H0 : Inv (w_bs w0))
        by (apply Inv_state; apply Inv_progress; exact H);
      pose proof (@acquire_slot_invariant total_scans pol_is_v b w0 H0) as Ha;
      destruct (acquire_slot env total_scans pol_is_v b w0) as [[w' sd] dp]
  end.
  cbn [fst] in Ha. destruct sd as [sd |]; [| exact Ha].
  apply add_peaks_invariant; [exact Hp |]. apply Inv_store. exact Ha.
Qed.

Lemma band_loop_invariant (total_scans : Z) (pol_is_v : bool) (bands : list Z) :
  In pol_is_v pols0 ->
  forall w : worker_state,
    Inv (w_bs w) ->
    Inv (w_bs (band_loop env total_scans pol_is_v bands w)).
Proof.
  intros Hp. induction bands as [| b bands IH]; intros w H; cbn [band_loop].
  - exact H.
  - unfold poll_stop. destruct (should_stop env (w_clock w)); [exact H |].
    apply IH. apply scan_slot_invariant; [exact Hp | exact H].
Qed.

Lemma pol_loop_invariant (total_scans : Z) (bands : list Z) (pols : list bool) :
  incl pols pols0 ->
  forall w : worker_state,
    Inv (w_bs w) ->
    Inv (w_bs (pol_loop env total_scans pols bands w)).
Proof.
  induction pols as [| pol_is_v pols IH]; intros Hp w H; cbn [pol_loop].
  - exact H.
  - unfold poll_stop. destruct (should_stop env (w_clock w)); [exact H |].
    apply IH; [intros x Hx; apply Hp; right; exact Hx |].
    apply band_loop_invariant; [apply Hp; left; reflexivity | exact H].
Qed.

Lemma blindscan_worker_invariant (bs : blindscan_session) :
  incl (pol_list bs) pols0 ->
  Inv bs -> Inv (blindscan_worker env bs).
Proof.
  intros Hp H. unfold blindscan_worker.
  destruct (lfe_fe_fd env <=? 0); [apply Inv_state; exact H |].
  destruct (negb (lfe_neumo_supported env)); [apply Inv_state; exact H |].
  cbv zeta.
  match goal with
  | |- context [pol_loop env ?t ?ps ?bs0 ?w0] =>
      pose proof (@pol_loop_invariant t bs0 ps Hp w0 H) as Hl;
      destruct (pol_loop env t ps bs0 w0) as [bs' clock' scan']
  end.
  cbn [w_bs] in Hl. unfold poll_stop. cbn [w_clock tick w_bs].
  destruct (should_stop env clock').
  - apply Inv_state. exact Hl.
  - apply Inv_progress. apply Inv_state. exact Hl.
Qed.

End Worker_invariant.

Lemma find_overlapping_mux_In (peak : blindscan_peak) (muxes : list dvb_mux) (dm : dvb_mux) :
  Worker.blindscan_peak_find_overlapping_mux peak muxes = Some dm ->
  In dm muxes /\ dmc_polarisation dm = bp_polarisation peak.
Proof.
  induction muxes as [| m rest IH]; cbn [Worker.blindscan_peak_find_overlapping_mux];
    [discriminate |].
  destruct (Z.eqb_spec (dmc_polarisation m) (bp_polarisation peak)) as [Ep | Ep];
    cbn [negb].
  - destruct (_ && _).
    + intros E. injection E as <-. split; [left; reflexivity | exact Ep].
    + intros E. destruct (IH E) as [Hin Hp]. split; [right; exact Hin | exact Hp].
  - intros E. destruct (IH E) as [Hin Hp]. split; [right; exact Hin | exact Hp].
Qed.

Lemma new_peak_as_inserted (env : Worker.environment) (pol_is_v : bool)
      (dp : blindscan_spectral_peak) :
  peak_as_inserted env (Worker.new_peak env pol_is_v dp) /\
  bp_polarisation (Worker.new_peak env pol_is_v dp)
  = (if pol_is_v then DVB_POLARISATION_VERTICAL else DVB_POLARISATION_HORIZONTAL) /\
  bp_frequency (Worker.new_peak env pol_is_v dp) = pk_frequency dp /\
  bp_symbol_rate (Worker.new_peak env pol_is_v dp) = pk_symbol_rate dp /\
  bp_level (Worker.new_peak env pol_is_v dp) = pk_level dp /\
  bp_snr (Worker.new_peak env pol_is_v dp) = pk_snr dp.
Proof.
  unfold Worker.new_peak. cbv zeta.
  match goal with
  | |- context [Worker.blindscan_peak_find_overlapping_mux ?pk ?ms] =>
      destruct (Worker.blindscan_peak_find_overlapping_mux pk ms) as [dm |] eqn:E
  end.
  - apply find_overlapping_mux_In in E. destruct E as [Hin Hp].
    cbn [bp_polarisation] in Hp.
    unfold peak_as_inserted.
    cbn [bp_stream_id bp_polarisation bp_status bp_verified_freq bp_verified_sr
         bp_frequency bp_symbol_rate bp_level bp_snr].
    split; [| repeat split].
    split; [reflexivity |]. split; [destruct pol_is_v; [right | left]; reflexivity |].
    right. split; [reflexivity |]. exists dm. repeat split; assumption.
  - unfold peak_as_inserted.
    cbn [bp_stream_id bp_polarisation bp_status bp_verified_freq bp_verified_sr
         bp_frequency bp_symbol_rate bp_level bp_snr].
    split; [| repeat split].
    split; [reflexivity |]. split; [destruct pol_is_v; [right | left]; reflexivity |].
    left. repeat split.
Qed.

Lemma pol_list_selected (bs : Worker.blindscan_session) (pol_is_v : bool) :
  In pol_is_v (Worker.pol_list bs) ->
  Worker.bs_polarisation bs = DVB_POLARISATION_HORIZONTAL \/
  Worker.bs_polarisation bs = DVB_POLARISATION_VERTICAL ->
  (if pol_is_v then DVB_POLARISATION_VERTICAL else DVB_POLARISATION_HORIZONTAL)
  = Worker.bs_polarisation bs.
Proof.
  unfold Worker.pol_list, DVB_POLARISATION_HORIZONTAL, DVB_POLARISATION_VERTICAL.
  intros Hin [E | E]; rewrite E in *; cbn in Hin;
    destruct Hin as [<- | []]; reflexivity.
Qed.

(** X18: the peak list the worker leaves.  For every frontend, driver
    and network, after the worker has run on a started session the peak
    counter equals the length of the peak list, and every peak has stream
    id -1, a polarisation that the session selected, and is either pending
    with no verified mux or skipped with the frequency and symbol rate of a
    mux of the network on its own polarisation. *)
Theorem worker_peak_list_well_formed (env : Worker.environment)
        (start_freq end_freq pol peak_detect : Z) :
  let bs0 := Worker.linuxdvb_blindscan_start start_freq end_freq pol peak_detect in
  peaks_well_formed env (Worker.bs_polarisation bs0) (Worker.blindscan_worker env bs0).
Proof.
  intros bs0.
  apply (@blindscan_worker_invariant env
           (peaks_well_formed env (Worker.bs_polarisation bs0))
           (Worker.pol_list bs0)).
  - intros st bs H. exact H.
  - intros v bs H. exact H.
  - intros pol_is_v b sd bs H. exact H.
  - intros pol_is_v dp bs Hin [Hc Hall].
    unfold peaks_well_formed. cbn [Worker.insert_peak Worker.bs_peak_count Worker.bs_peaks].
    split; [cbn [length]; lia |].
    constructor; [| exact Hall].
    destruct (new_peak_as_inserted env pol_is_v dp) as (Hi & Hp & _).
    split; [exact Hi |]. intros Hsel. rewrite Hp.
    apply pol_list_selected; assumption.
  - apply incl_refl.
  - unfold peaks_well_formed. subst bs0. cbn. split; [reflexivity | constructor].
Qed.

(** ** The peaks report *)

Lemma report_peak_flags (muxes : list dvb_mux) (p : blindscan_peak) :
  report_flags_ok (fst (Report.report_peak muxes p)).
Proof.
  unfold report_flags_ok, Report.report_peak, Report.is_pending.
  destruct (bp_status p) eqn:Es;
    try (cbn [fst Report.r_existing Report.r_has_failed_mux Report.r_status negb andb];
         rewrite Es;
         split; [discriminate | split; discriminate]).
  destruct (fold_left (Report.mux_match_step p) muxes (false, false))
    as [found_ok found_fail].
  destruct found_ok; destruct found_fail;
    cbn [fst Report.r_existing Report.r_has_failed_mux Report.r_status negb andb
         set_bp_status bp_status];
    try rewrite Es;
    (split; [intros H; try discriminate; split; reflexivity
            | split; intros H; try discriminate; reflexivity]).
Qed.

Lemma report_peak_snd (muxes : list dvb_mux) (p : blindscan_peak) :
  snd (Report.report_peak muxes p) = p \/
  (snd (Report.report_peak muxes p) = set_bp_status BLINDSCAN_PEAK_SKIPPED p /\
   Report.r_status (fst (Report.report_peak muxes p)) = Report.Str_existing).
Proof.
  unfold Report.report_peak.
  destruct (if Report.is_pending p
            then fold_left (Report.mux_match_step p) muxes (false, false)
            else (false, false)) as [found_ok found_fail].
  destruct found_ok; cbn [snd fst Report.r_status set_bp_status bp_status].
  - right. split; reflexivity.
  - left. reflexivity.
Qed.

Lemma report_peak_skipped (muxes : list dvb_mux) (p : blindscan_peak) :
  snd (Report.report_peak muxes (set_bp_status BLINDSCAN_PEAK_SKIPPED p))
  = set_bp_status BLINDSCAN_PEAK_SKIPPED p /\
  Report.r_status (fst (Report.report_peak muxes (set_bp_status BLINDSCAN_PEAK_SKIPPED p)))
  = Report.Str_existing.
Proof.
  unfold Report.report_peak, Report.is_pending.
  cbn [set_bp_status bp_status snd fst Report.r_status]. split; reflexivity.
Qed.

Lemma report_peak_again (muxes : list dvb_mux) (p : blindscan_peak) :
  snd (Report.report_peak muxes (snd (Report.report_peak muxes p)))
  = snd (Report.report_peak muxes p) /\
  Report.r_status (fst (Report.report_peak muxes (snd (Report.report_peak muxes p))))
  = Report.r_status (fst (Report.report_peak muxes p)).
Proof.
  destruct (report_peak_snd muxes p) as [E | [E Est]].
  - rewrite E. split; [exact E | reflexivity].
  - rewrite E, Est. apply report_peak_skipped.
Qed.

(** X19: the peaks operation.  The answer has one entry per peak of
    the session and the counter as its count; in every entry [existing]
    and [has_failed_mux] exclude each other, [existing] goes with the
    status existing and [has_failed_mux] exactly with the status retry.
    The operation changes the session (a pending peak that matches a mux
    scanned OK becomes skipped), but asking again changes nothing more and
    reports the same statuses. *)
Theorem peaks_report_stable (env : Worker.environment) (bs : Worker.blindscan_session) :
  let '(msgs, count, bs1) := Report.linuxdvb_blindscan_peaks env bs in
  let '(msgs2, count2, bs2) := Report.linuxdvb_blindscan_peaks env bs1 in
  length msgs = length (Worker.bs_peaks bs) /\
  count = Worker.bs_peak_count bs /\
  Forall report_flags_ok msgs /\
  bs2 = bs1 /\
  count2 = count /\
  map Report.r_status msgs2 = map Report.r_status msgs.
Proof.
  unfold Report.linuxdvb_blindscan_peaks.
  rewrite report_loop_map.
  cbn [Worker.bs_peaks Worker.set_peaks Worker.bs_peak_count].
  rewrite report_loop_map.
  split; [rewrite length_map; reflexivity |].
  split; [reflexivity |].
  split.
  { rewrite Forall_map. apply Forall_forall. intros p _. apply report_peak_flags. }
  split.
  { unfold Worker.set_peaks.
    cbn [Worker.bs_start_freq Worker.bs_end_freq Worker.bs_polarisation
         Worker.bs_peak_detect Worker.bs_state Worker.bs_progress
         Worker.bs_spectrum_h_low Worker.bs_spectrum_h_high
         Worker.bs_spectrum_v_low Worker.bs_spectrum_v_high
         Worker.bs_peak_count Worker.progress_log Worker.insert_log].
    f_equal. rewrite map_map. apply map_ext. intros p.
    apply (proj1 (report_peak_again (Worker.mn_muxes env) p)). }
  split; [reflexivity |].
  rewrite !map_map. apply map_ext. intros p.
  apply (proj2 (report_peak_again (Worker.mn_muxes env) p)).
Qed.

(** ** The spectrum operation and the session list *)

Lemma spectrum_points_fold (pts : list blindscan_spectrum_point) :
  forall acc : list (Z * Z),
    fold_left (fun l pt => Report.htsmsg_add_msg l (pt_frequency pt, pt_level pt)) pts acc
    = acc ++ map (fun pt => (pt_frequency pt, pt_level pt)) pts.
Proof.
  induction pts as [| pt pts IH]; intros acc; cbn [fold_left map].
  - rewrite app_nil_r. reflexivity.
  - rewrite IH. unfold Report.htsmsg_add_msg. rewrite <- app_assoc. reflexivity.
Qed.

(** X20: a stored spectrum and the spectrum operation.  After the
    worker has stored a non-empty spectrum for a polarisation and a band,
    the spectrum operation asked for that polarisation and band answers
    with exactly its points, in order, and their number; asked for any
    other slot it answers as before the store.  Any character other than
    H or h addresses the vertical slots, any band other than 0 the high
    band. *)
Theorem spectrum_after_store (pol_is_v : bool) (b : Z) (sd : blindscan_spectrum_data)
        (bs : Worker.blindscan_session) (pol b' : Z) :
  points sd <> [] ->
  Z.of_nat (length (points sd)) < 4294967296 ->
  let bs' := Worker.store_spectrum pol_is_v b sd bs in
  (Prescan.pol_is_h pol = negb pol_is_v -> (b' =? 0) = (b =? 0) ->
   Session.linuxdvb_blindscan_spectrum bs' pol b'
   = Some (Session.mk_spectrum_report
             (map (fun pt => (pt_frequency pt, pt_level pt)) (points sd))
             (Z.of_nat (length (points sd)))
             (negb pol_is_v) (wrap_u32 b'))) /\
  (Prescan.pol_is_h pol <> negb pol_is_v \/ (b' =? 0) <> (b =? 0) ->
   Session.linuxdvb_blindscan_spectrum bs' pol b'
   = Session.linuxdvb_blindscan_spectrum bs pol b').
Proof.
  intros Hne Hlen bs'. subst bs'.
  unfold Session.linuxdvb_blindscan_spectrum, Worker.store_spectrum.
  cbn [Worker.bs_spectrum_h_low Worker.bs_spectrum_h_high
       Worker.bs_spectrum_v_low Worker.bs_spectrum_v_high].
  split.
  - intros Hp Hb. rewrite Hp, Hb.
    assert (Hn : (length (points sd) =? 0)%nat = false).
    { apply Nat.eqb_neq. destruct (points sd); [congruence | cbn [length]; lia]. }
    assert (Hw : wrap_u32 (Z.of_nat (length (points sd))) = Z.of_nat (length (points sd)))
      by (apply wrap_u32_small; unfold in_u32; lia).
    destruct pol_is_v; destruct (b =? 0); cbn [negb andb];
      rewrite Hn, spectrum_points_fold, Hw; reflexivity.
  - intros Hor.
    destruct (Prescan.pol_is_h pol); destruct pol_is_v; destruct (b' =? 0);
      destruct (b =? 0); cbn [negb andb] in *; try reflexivity;
      exfalso; destruct Hor as [H | H]; apply H; reflexivity.
Qed.

Lemma spectrum_after_store_witness :
  let bs := Worker.linuxdvb_blindscan_start 10700000 11700000 72 0 in
  let bs' := Worker.store_spectrum false 0 Scenario.quiet_spectrum bs in
  (Prescan.pol_is_h 72 = negb false -> (0 =? 0) = (0 =? 0) ->
   Session.linuxdvb_blindscan_spectrum bs' 72 0
   = Some (Session.mk_spectrum_report
             (map (fun pt => (pt_frequency pt, pt_level pt))
                  (points Scenario.quiet_spectrum))
             (Z.of_nat (length (points Scenario.quiet_spectrum)))
             (negb false) (wrap_u32 0))) /\
  (Prescan.pol_is_h 72 <> negb false \/ (0 =? 0) <> (0 =? 0) ->
   Session.linuxdvb_blindscan_spectrum bs' 72 0
   = Session.linuxdvb_blindscan_spectrum bs 72 0).
Proof.
  apply (@spectrum_after_store false 0 Scenario.quiet_spectrum
           (Worker.linuxdvb_blindscan_start 10700000 11700000 72 0) 72 0).
  - vm_compute. discriminate.
  - vm_compute. reflexivity.
Defined.

Lemma find_not_in (sessions : list Session.session_entry) (uuid : String.string) :
  ~ In uuid (map Session.bs_uuid_hex sessions) ->
  Session.linuxdvb_blindscan_find sessions uuid = None.
Proof.
  induction sessions as [| bs rest IH]; intros Hn; cbn [Session.linuxdvb_blindscan_find].
  - reflexivity.
  - destruct (String.eqb_spec (Session.bs_uuid_hex bs) uuid) as [E | E].
    + exfalso. apply Hn. left. exact E.
    + apply IH. intros Hin. apply Hn. right. exact Hin.
Qed.

Lemma release_keys_incl (sessions : list Session.session_entry) (uuid k : String.string) :
  In k (map Session.bs_uuid_hex (Session.linuxdvb_blindscan_release sessions uuid)) ->
  In k (map Session.bs_uuid_hex sessions).
Proof.
  induction sessions as [| bs rest IH]; cbn [Session.linuxdvb_blindscan_release map].
  - intros [].
  - destruct (String.eqb (Session.bs_uuid_hex bs) uuid); cbn [map].
    + intros H. right. exact H.
    + intros [H | H]; [left; exact H | right; apply IH; exact H].
Qed.

(** X21: the session list.  A session inserted by the start operation
    is the one found under its key.  With distinct keys, a cancel request
    raises the stop flag of the session found and changes nothing else a
    search returns; after a release the key is not found any more, every
    other key is found as before, the keys stay distinct, and a second
    release of the same key does nothing. *)
Theorem session_list_operations (sessions : list Session.session_entry)
        (uuid : String.string) :
  unique_keys sessions ->
  (forall bs : Session.session_entry,
      Session.linuxdvb_blindscan_find (Session.insert_session bs sessions)
                                      (Session.bs_uuid_hex bs) = Some bs) /\
  Session.linuxdvb_blindscan_find (Session.linuxdvb_blindscan_cancel sessions uuid) uuid
  = option_map Session.request_stop (Session.linuxdvb_blindscan_find sessions uuid) /\
  Session.linuxdvb_blindscan_find (Session.linuxdvb_blindscan_release sessions uuid) uuid
  = None /\
  (forall other : String.string,
      other <> uuid ->
      Session.linuxdvb_blindscan_find (Session.linuxdvb_blindscan_cancel sessions uuid) other
      = Session.linuxdvb_blindscan_find sessions other /\
      Session.linuxdvb_blindscan_find (Session.linuxdvb_blindscan_release sessions uuid) other
      = Session.linuxdvb_blindscan_find sessions other) /\
  unique_keys (Session.linuxdvb_blindscan_release sessions uuid) /\
  Session.linuxdvb_blindscan_release (Session.linuxdvb_blindscan_release sessions uuid) uuid
  = Session.linuxdvb_blindscan_release sessions uuid.
Proof.
  unfold unique_keys. intros Hu.
  split.
  { intros bs. unfold Session.insert_session. cbn [Session.linuxdvb_blindscan_find].
    rewrite String.eqb_refl. reflexivity. }
  split.
  { clear Hu. induction sessions as [| bs rest IH];
      cbn [Session.linuxdvb_blindscan_cancel Session.linuxdvb_blindscan_find option_map].
    - reflexivity.
    - destruct (String.eqb (Session.bs_uuid_hex bs) uuid) eqn:E;
        cbn [Session.linuxdvb_blindscan_find Session.request_stop Session.bs_uuid_hex
             option_map].
      + unfold Session.request_stop in *. cbn [Session.bs_uuid_hex]. rewrite E. reflexivity.
      + rewrite E. exact IH. }
  assert (Hrel : forall l, NoDup (map Session.bs_uuid_hex l) ->
                           Session.linuxdvb_blindscan_find
                             (Session.linuxdvb_blindscan_release l uuid) uuid = None).
  { induction l as [| bs rest IH]; intros Hnd;
      cbn [Session.linuxdvb_blindscan_release Session.linuxdvb_blindscan_find].
    - reflexivity.
    - cbn [map] in Hnd. inversion Hnd as [| ? ? Hnin Hrest]; subst.
      destruct (String.eqb_spec (Session.bs_uuid_hex bs) uuid) as [E | E].
      + apply find_not_in. rewrite <- E. exact Hnin.
      + cbn [Session.linuxdvb_blindscan_find].
        destruct (String.eqb_spec (Session.bs_uuid_hex bs) uuid); [contradiction |].
        apply IH. exact Hrest. }
  split; [apply Hrel; exact Hu |].
  split.
  { intros other Hne. clear Hu Hrel. split.
    - induction sessions as [| bs rest IH];
        cbn [Session.linuxdvb_blindscan_cancel Session.linuxdvb_blindscan_find].
      + reflexivity.
      + destruct (String.eqb_spec (Session.bs_uuid_hex bs) uuid) as [E | E];
          cbn [Session.linuxdvb_blindscan_find Session.request_stop Session.bs_uuid_hex].
        * destruct (String.eqb_spec (Session.bs_uuid_hex bs) other) as [E' | E'];
            [congruence | reflexivity].
        * rewrite IH. reflexivity.
    - induction sessions as [| bs rest IH];
        cbn [Session.linuxdvb_blindscan_release Session.linuxdvb_blindscan_find].
      + reflexivity.
      + destruct (String.eqb_spec (Session.bs_uuid_hex bs) uuid) as [E | E];
          cbn [Session.linuxdvb_blindscan_find].
        * destruct (String.eqb_spec (Session.bs_uuid_hex bs) other) as [E' | E'];
            [congruence | reflexivity].
        * rewrite IH. reflexivity. }
  assert (Hnd : forall l, NoDup (map Session.bs_uuid_hex l) ->
                          NoDup (map Session.bs_uuid_hex
                                     (Session.linuxdvb_blindscan_release l uuid))).
  { induction l as [| bs rest IH]; intros H; cbn [Session.linuxdvb_blindscan_release].
    - exact H.
    - cbn [map] in H. inversion H as [| ? ? Hnin Hrest]; subst.
      destruct (String.eqb (Session.bs_uuid_hex bs) uuid); [exact Hrest |].
      cbn [map]. constructor; [| apply IH; exact Hrest].
      intros Hin. apply Hnin. apply (release_keys_incl _ _ _ Hin). }
  split; [apply Hnd; exact Hu |].
  clear Hrel Hnd. induction sessions as [| bs rest IH];
    cbn [Session.linuxdvb_blindscan_release].
  - reflexivity.
  - cbn [map] in Hu. inversion Hu as [| ? ? Hnin Hrest]; subst.
    destruct (String.eqb_spec (Session.bs_uuid_hex bs) uuid) as [E | E].
    + clear IH. assert (Hn : ~ In uuid (map Session.bs_uuid_hex rest))
        by (rewrite <- E; exact Hnin).
      clear - Hn. induction rest as [| r rest IH];
        cbn [Session.linuxdvb_blindscan_release]; [reflexivity |].
      destruct (String.eqb_spec (Session.bs_uuid_hex r) uuid) as [E | E].
      * exfalso. apply Hn. left. exact E.
      * f_equal. apply IH. intros Hin. apply Hn. right. exact Hin.
    + cbn [Session.linuxdvb_blindscan_release].
      destruct (String.eqb_spec (Session.bs_uuid_hex bs) uuid); [contradiction |].
      f_equal. apply IH. exact Hrest.
Qed.

Lemma session_list_operations_witness :
  (forall bs : Session.session_entry,
      Session.linuxdvb_blindscan_find
        (Session.insert_session bs Session_example.two_sessions)
        (Session.bs_uuid_hex bs) = Some bs) /\
  Session.linuxdvb_blindscan_find
    (Session.linuxdvb_blindscan_cancel Session_example.two_sessions
                                       Session_example.first_key)
    Session_example.first_key
  = option_map Session.request_stop
               (Session.linuxdvb_blindscan_find Session_example.two_sessions
                                                Session_example.first_key) /\
  Session.linuxdvb_blindscan_find
    (Session.linuxdvb_blindscan_release Session_example.two_sessions
                                        Session_example.first_key)
    Session_example.first_key
  = None /\
  (forall other : String.string,
      other <> Session_example.first_key ->
      Session.linuxdvb_blindscan_find
        (Session.linuxdvb_blindscan_cancel Session_example.two_sessions
                                           Session_example.first_key) other
      = Session.linuxdvb_blindscan_find Session_example.two_sessions other /\
      Session.linuxdvb_blindscan_find
        (Session.linuxdvb_blindscan_release Session_example.two_sessions
                                            Session_example.first_key) other
      = Session.linuxdvb_blindscan_find Session_example.two_sessions other) /\
  unique_keys (Session.linuxdvb_blindscan_release Session_example.two_sessions
                                                  Session_example.first_key) /\
  Session.linuxdvb_blindscan_release
    (Session.linuxdvb_blindscan_release Session_example.two_sessions
                                        Session_example.first_key)
    Session_example.first_key
  = Session.linuxdvb_blindscan_release Session_example.two_sessions
                                       Session_example.first_key.
Proof.
  apply (@session_list_operations Session_example.two_sessions Session_example.first_key).
  unfold unique_keys, Session_example.two_sessions.
  cbn [map Session.bs_uuid_hex].
  constructor.
  - intros [H | []]. vm_compute in H. discriminate.
  - constructor; [intros [] | constructor].
Defined.

(** ** Prescan: the ISI list *)

Lemma land_bit_zero (a n : Z) :
  0 <= n -> (Z.land a (Z.shiftl 1 n) =? 0) = negb (Z.testbit a n).
Proof.
  intros Hn. destruct (Z.testbit a n) eqn:Hb; cbn [negb].
  - apply Z.eqb_neq. intros E.
    assert (Z.testbit (Z.land a (Z.shiftl 1 n)) n = true).
    { rewrite Z.land_spec, Hb, Z.shiftl_spec by lia.
      rewrite Z.sub_diag. reflexivity. }
    rewrite E, Z.bits_0 in H. discriminate.
  - apply Z.eqb_eq. apply Z.bits_inj'. intros m Hm.
    rewrite Z.land_spec, Z.bits_0, Z.shiftl_spec by lia.
    destruct (Z.eq_dec m n) as [-> | Hne].
    + rewrite Hb. reflexivity.
    + replace (Z.testbit 1 (m - n)) with false; [apply andb_false_r |].
      destruct (Z.lt_ge_cases m n) as [Hlt | Hge].
      * symmetry. apply Z.testbit_neg_r. lia.
      * symmetry. apply (Z.bits_above_log2 1 (m - n)); cbn; lia.
Qed.

Lemma isi_byte_filter (bitset : list Z) (byte_idx : nat) (bits : list nat) :
  Forall (fun bit => (bit < 8)%nat) bits ->
  forall acc : list Z * Z,
    fold_left
      (fun acc bit =>
         if negb (Z.land (nth byte_idx bitset 0) (Z.shiftl 1 (Z.of_nat bit)) =? 0)
         then (fst acc ++ [Z.of_nat byte_idx * 8 + Z.of_nat bit], snd acc + 1)
         else acc)
      bits acc
    = (fst acc ++ filter (isi_bit bitset)
                         (map (fun bit => Z.of_nat byte_idx * 8 + Z.of_nat bit) bits),
       snd acc
       + Z.of_nat (length (filter (isi_bit bitset)
                                  (map (fun bit => Z.of_nat byte_idx * 8 + Z.of_nat bit)
                                       bits)))).
Proof.
  induction bits as [| bit bits IH]; intros Hb acc; cbn [fold_left map filter].
  - rewrite app_nil_r. cbn [length]. rewrite Z.add_0_r. destruct acc; reflexivity.
  - inversion Hb as [| ? ? Hbit Hrest]; subst.
    rewrite (IH Hrest). rewrite land_bit_zero by lia. rewrite negb_involutive.
    assert (E : isi_bit bitset (Z.of_nat byte_idx * 8 + Z.of_nat bit)
                = Z.testbit (nth byte_idx bitset 0) (Z.of_nat bit)).
    { unfold isi_bit.
      replace ((Z.of_nat byte_idx * 8 + Z.of_nat bit) / 8) with (Z.of_nat byte_idx)
        by (apply (Z.div_unique_pos _ 8 _ (Z.of_nat bit)); lia).
      replace ((Z.of_nat byte_idx * 8 + Z.of_nat bit) mod 8) with (Z.of_nat bit)
        by (apply (Z.mod_unique_pos _ 8 (Z.of_nat byte_idx)); lia).
      rewrite Nat2Z.id. reflexivity. }
    rewrite E. destruct (Z.testbit (nth byte_idx bitset 0) (Z.of_nat bit));
      cbn [fst snd length].
    + rewrite <- app_assoc. f_equal. lia.
    + reflexivity.
Qed.

Lemma isi_scan_filter (bitset : list Z) (n : nat) :
  forall acc : list Z * Z,
    fold_left (fun acc byte_idx =>
                 PrescanRun.isi_byte byte_idx (nth byte_idx bitset 0) acc)
              (seq 0 n) acc
    = (fst acc ++ filter (isi_bit bitset) (map Z.of_nat (seq 0 (8 * n))),
       snd acc
       + Z.of_nat (length (filter (isi_bit bitset) (map Z.of_nat (seq 0 (8 * n)))))).
Proof.
  induction n as [| n IH]; intros acc.
  - cbn. rewrite app_nil_r, Z.add_0_r. destruct acc; reflexivity.
  - rewrite seq_S, fold_left_app. cbn [fold_left Nat.add]. rewrite IH.
    unfold PrescanRun.isi_byte.
    rewrite (@isi_byte_filter bitset n (seq 0 8)
               ltac:(apply Forall_forall; intros x Hx; apply in_seq in Hx; lia)).
    cbn [fst snd].
    replace (8 * S n)%nat with (8 * n + 8)%nat by lia.
    rewrite seq_app, map_app, filter_app, length_app. cbn [Nat.add].
    assert (E : map (fun bit => Z.of_nat n * 8 + Z.of_nat bit) (seq 0 8)
                = map Z.of_nat (seq (8 * n) 8)).
    { cbn [seq map]. repeat (f_equal; try lia). }
    rewrite E. rewrite <- app_assoc. f_equal. lia.
Qed.

Lemma isi_scan_eq (bitset : list Z) (len : nat) :
  PrescanRun.isi_scan bitset len
  = (filter (isi_bit bitset) (map Z.of_nat (seq 0 (8 * Nat.min len 32))),
     Z.of_nat (length (filter (isi_bit bitset)
                              (map Z.of_nat (seq 0 (8 * Nat.min len 32)))))).
Proof.
  unfold PrescanRun.isi_scan. cbv zeta. rewrite isi_scan_filter. cbn [fst snd app].
  replace (if (32 <? len)%nat then 32%nat else len) with (Nat.min len 32)
    by (destruct (Nat.ltb_spec 32 len); lia).
  rewrite Z.add_0_l. reflexivity.
Qed.

Lemma of_nat_seq_sorted (n start : nat) :
  StronglySorted Z.lt (map Z.of_nat (seq start n)).
Proof.
  revert start. induction n as [| n IH]; intros start; cbn [seq map].
  - constructor.
  - constructor; [apply IH |].
    rewrite Forall_map. apply Forall_forall. intros x Hx. apply in_seq in Hx. lia.
Qed.

Lemma filter_sorted (f : Z -> bool) (l : list Z) :
  StronglySorted Z.lt l -> StronglySorted Z.lt (filter f l).
Proof.
  induction l as [| a l IH]; intros H; cbn [filter].
  - constructor.
  - inversion H as [| ? ? Hs Ha]; subst.
    destruct (f a); [| apply IH; exact Hs].
    constructor; [apply IH; exact Hs |].
    apply Forall_forall. intros x Hx. apply filter_In in Hx.
    rewrite Forall_forall in Ha. apply Ha. apply Hx.
Qed.

(** X22: the ISI list of a prescan.  The list holds exactly the
    numbers of the bits that are set in the first [min(len, 32)] bytes of
    the bit set, each once and in ascending order, all below 256; the
    count is the length of the list; the list is reported only when some
    bit is set, and the multistream flag says that at least two are. *)
Theorem isi_list_enumerates_bits (bitset : list Z) (len : nat) :
  let isi_list := fst (PrescanRun.isi_scan bitset len) in
  let isi_count := snd (PrescanRun.isi_scan bitset len) in
  isi_count = Z.of_nat (length isi_list) /\
  StronglySorted Z.lt isi_list /\
  (forall isi : Z,
      In isi isi_list <->
      0 <= isi < 8 * Z.of_nat (Nat.min len 32) /\ isi_bit bitset isi = true) /\
  Forall (fun isi => 0 <= isi < 256) isi_list /\
  PrescanRun.isi_report bitset len
  = (if (0 <? length isi_list)%nat
     then Some (isi_list, (1 <? length isi_list)%nat)
     else None).
Proof.
  unfold PrescanRun.isi_report. rewrite isi_scan_eq. cbn [fst snd].
  set (l := filter (isi_bit bitset) (map Z.of_nat (seq 0 (8 * Nat.min len 32)))).
  assert (Hin : forall isi : Z,
             In isi l <->
             0 <= isi < 8 * Z.of_nat (Nat.min len 32) /\ isi_bit bitset isi = true).
  { intros isi. unfold l. rewrite filter_In, in_map_iff. split.
    - intros [(k & <- & Hk) Hb]. apply in_seq in Hk. split; [lia | exact Hb].
    - intros [Hr Hb]. split; [| exact Hb].
      exists (Z.to_nat isi). split; [lia |]. apply in_seq. lia. }
  split; [reflexivity |].
  split; [apply filter_sorted; apply of_nat_seq_sorted |].
  split; [exact Hin |].
  split.
  { apply Forall_forall. intros isi Hi. apply Hin in Hi. lia. }
  rewrite !Z.gtb_ltb.
  destruct (Z.ltb_spec 0 (Z.of_nat (length l))) as [H0 | H0];
    destruct (Nat.ltb_spec 0 (length l)) as [H0' | H0']; try lia; [| reflexivity].
  destruct (Z.ltb_spec 1 (Z.of_nat (length l))) as [H1 | H1];
    destruct (Nat.ltb_spec 1 (length l)) as [H1' | H1']; try lia; reflexivity.
Qed.

(** ** Prescan: the request and the peak update *)

Lemma est_symbol_rate_positive (peaks : list blindscan_peak) (frequency pol : Z) :
  0 < Prescan.est_symbol_rate peaks frequency pol /\
  (Prescan.est_symbol_rate peaks frequency pol = 22000000 \/
   exists peak, Prescan.find_matching_peak peaks frequency pol = Some peak /\
                Prescan.est_symbol_rate peaks frequency pol = bp_symbol_rate peak).
Proof.
  unfold Prescan.est_symbol_rate.
  destruct (Prescan.find_matching_peak peaks frequency pol) as [peak |].
  - rewrite Z.gtb_ltb. destruct (Z.ltb_spec 0 (bp_symbol_rate peak)).
    + split; [lia |]. right. exists peak. split; reflexivity.
    + split; [lia |]. left. reflexivity.
  - split; [lia |]. left. reflexivity.
Qed.

(** X23: the blind-tune request of a prescan.  For every peak list,
    frontend, frequency and polarisation the request is the same eight
    properties in the same order, with the search range ahead of the
    frequency; the symbol rate is always present and positive (the matched
    peak's estimate, or 22 000 000), and the search range is never below
    4 000 000 and never above the larger of 8 000 000 and half the symbol
    rate. *)
Theorem prescan_request_shape (peaks : list blindscan_peak) (lse_en50494 : option Z)
        (frequency pol : Z) :
  let props := Prescan.prescan_tune_props peaks lse_en50494 frequency pol in
  let est := Prescan.est_symbol_rate peaks frequency pol in
  map fst props
  = [ Prescan.DTV_ALGORITHM; Prescan.DTV_DELIVERY_SYSTEM; Prescan.DTV_SEARCH_RANGE;
      Prescan.DTV_SYMBOL_RATE; Prescan.DTV_FREQUENCY; Prescan.DTV_STREAM_ID;
      Prescan.DTV_PLS_SEARCH_LIST; Prescan.DTV_TUNE ] /\
  0 < est /\
  Prescan.lookup_prop Prescan.DTV_SYMBOL_RATE props = Some (Prescan.Data est) /\
  Prescan.lookup_prop Prescan.DTV_SEARCH_RANGE props
  = Some (Prescan.Data (Prescan.search_range est)) /\
  4000000 <= Prescan.search_range est <= Z.max 8000000 (est / 2).
Proof.
  intros props est. subst props.
  destruct (est_symbol_rate_positive peaks frequency pol) as [Hpos _].
  fold est in Hpos.
  unfold Prescan.prescan_tune_props, Prescan.tune_props. fold est.
  assert (Hgt : (est >? 0) = true) by (rewrite Z.gtb_ltb; apply Z.ltb_lt; exact Hpos).
  rewrite Hgt. cbn [app map fst Prescan.lookup_prop].
  split; [reflexivity |]. split; [exact Hpos |].
  split; [reflexivity |]. split; [reflexivity |].
  unfold Prescan.search_range, c_div. rewrite Z.gtb_ltb.
  destruct (Z.ltb_spec 8000000 est) as [Hbig | Hsmall].
  - rewrite Z.quot_div_nonneg by lia.
    assert (4000000 <= est / 2) by (apply Z.div_le_lower_bound; lia).
    lia.
  - lia.
Qed.



(** ** Mux creation: strings, enumerations and the two operations *)















Ltac create_leaf Es :=
  cbn [MuxCreate.cs_peaks MuxCreate.cs_log MuxCreate.cs_created];
  eexists; split; [reflexivity |];
  split;
  [ right; split;
    [ unfold passed_over; rewrite Es; intros [H | H]; discriminate | auto ]
  | first [ left; repeat split; reflexivity | right; repeat split; reflexivity ] ].

Ltac create_kept Es :=
  cbn [MuxCreate.cs_peaks MuxCreate.cs_log MuxCreate.cs_created];
  eexists; split; [reflexivity |];
  split;
  [ left; split; [unfold passed_over; auto | reflexivity]
  | right; unfold is_scanning; rewrite Es; repeat split; reflexivity ].

Lemma create_step_spec (N : Type) (ops : MuxCreate.network_ops N)
      (k : Muxes.host_constants) (st : MuxCreate.create_state N) (peak : blindscan_peak) :
  exists p' : blindscan_peak,
    MuxCreate.cs_peaks (MuxCreate.create_step ops k st peak)
    = MuxCreate.cs_peaks st ++ [p'] /\
    peak_after_create peak p' /\
    ((is_scanning p' = true /\
      MuxCreate.cs_log (MuxCreate.create_step ops k st peak)
      = MuxCreate.cs_log st ++ [(MuxCreate.peak_conf k peak, false)] /\
      MuxCreate.cs_created (MuxCreate.create_step ops k st peak)
      = MuxCreate.cs_created st + 1) \/
     (is_scanning p' = false /\
      MuxCreate.cs_log (MuxCreate.create_step ops k st peak) = MuxCreate.cs_log st /\
      MuxCreate.cs_created (MuxCreate.create_step ops k st peak)
      = MuxCreate.cs_created st)).
Proof.
  unfold MuxCreate.create_step, peak_after_create. cbv zeta.
  destruct (bp_status peak) eqn:Es.
  - destruct (MuxCreate.dvb_network_find_mux ops _ _); [create_leaf Es |].
    destruct (MuxCreate.dvb_mux_create0 ops _ _); create_leaf Es.
  - destruct (MuxCreate.dvb_network_find_mux ops _ _); [create_leaf Es |].
    destruct (MuxCreate.dvb_mux_create0 ops _ _); create_leaf Es.
  - destruct (MuxCreate.dvb_network_find_mux ops _ _); [create_leaf Es |].
    destruct (MuxCreate.dvb_mux_create0 ops _ _); create_leaf Es.
  - create_kept Es.
  - create_kept Es.
Qed.

Lemma create_fold_spec (N : Type) (ops : MuxCreate.network_ops N)
      (k : Muxes.host_constants) (peaks : list blindscan_peak) :
  forall st : MuxCreate.create_state N,
  exists (out : list blindscan_peak) (log' : list (MuxCreate.dvb_mux_conf * bool)),
    MuxCreate.cs_peaks (fold_left (MuxCreate.create_step ops k) peaks st)
    = MuxCreate.cs_peaks st ++ out /\
    MuxCreate.cs_log (fold_left (MuxCreate.create_step ops k) peaks st)
    = MuxCreate.cs_log st ++ log' /\
    MuxCreate.cs_created (fold_left (MuxCreate.create_step ops k) peaks st)
    = MuxCreate.cs_created st + Z.of_nat (length log') /\
    Forall2 peak_after_create peaks out /\
    length log' = length (filter is_scanning out) /\
    Forall (fun e => exists p, In p peaks /\ ~ passed_over p /\
                               e = (MuxCreate.peak_conf k p, false)) log'.
Proof.
  induction peaks as [| peak rest IH]; intros st; cbn [fold_left].
  - exists [], []. rewrite !app_nil_r, Z.add_0_r. repeat split; constructor.
  - destruct (create_step_spec ops k st peak) as (p' & Hp & Ha & Hcase).
    destruct (IH (MuxCreate.create_step ops k st peak))
      as (out & log' & Ho & Hl & Hc & Hf & Hn & Hlog).
    assert (Hlog' : Forall (fun e => exists p, In p (peak :: rest) /\ ~ passed_over p /\
                                               e = (MuxCreate.peak_conf k p, false)) log').
    { apply Forall_forall. intros e He. rewrite Forall_forall in Hlog.
      destruct (Hlog e He) as (q & Hq & Hnq & Eq). exists q.
      split; [right; exact Hq | split; assumption]. }
    destruct Hcase as [(Hs & Hlg & Hcr) | (Hs & Hlg & Hcr)].
    + exists (p' :: out), ((MuxCreate.peak_conf k peak, false) :: log').
      rewrite Ho, Hl, Hc, Hp, Hlg, Hcr, <- !app_assoc. cbn [app length filter].
      rewrite Hs. cbn [length].
      split; [reflexivity |]. split; [reflexivity |]. split; [lia |].
      split; [constructor; assumption |]. split; [lia |].
      constructor; [| exact Hlog'].
      exists peak. split; [left; reflexivity |]. split; [| reflexivity].
      intros Hpo. destruct Ha as [[_ ->] | [Hn' _]]; [| exact (Hn' Hpo)].
      unfold is_scanning in Hs. destruct Hpo as [E | E]; rewrite E in Hs; discriminate.
    + exists (p' :: out), log'.
      rewrite Ho, Hl, Hc, Hp, Hlg, Hcr, <- !app_assoc. cbn [app length filter].
      rewrite Hs.
      split; [reflexivity |]. split; [reflexivity |]. split; [reflexivity |].
      split; [constructor; assumption |]. split; [exact Hn | exact Hlog'].
Qed.

Lemma peak_after_create_status (p p' : blindscan_peak) :
  peak_after_create p p' ->
  bp_status p' = BLINDSCAN_PEAK_SKIPPED \/ bp_status p' = BLINDSCAN_PEAK_FAILED \/
  bp_status p' = BLINDSCAN_PEAK_SCANNING.
Proof.
  intros [[[E | E] ->] | [_ [-> | [-> | ->]]]]; cbn [set_bp_status bp_status]; auto.
Qed.

Lemma peak_after_create_fields (p p' : blindscan_peak) :
  peak_after_create p p' ->
  set_bp_status BLINDSCAN_PEAK_PENDING p' = set_bp_status BLINDSCAN_PEAK_PENDING p.
Proof.
  intros [[_ ->] | [_ [-> | [-> | ->]]]]; reflexivity.
Qed.

(** X26: the creation of muxes from all peaks.  Whatever the network
    answers, the loop keeps the number and the order of the peaks and
    changes nothing but statuses; a skipped or failed peak is passed over
    unchanged; afterwards every peak is skipped, failed or scanning (none
    is left pending or locked); and the number returned is the number of
    muxes created, which is the number of peaks left scanning, each
    created from the configuration of a peak that was not passed over. *)
Theorem create_muxes_outcome (N : Type) (ops : MuxCreate.network_ops N)
        (k : Muxes.host_constants) (ln : N) (peaks : list blindscan_peak) :
  let st := MuxCreate.linuxdvb_blindscan_create_muxes ops k ln peaks in
  Forall2 peak_after_create peaks (MuxCreate.cs_peaks st) /\
  map (set_bp_status BLINDSCAN_PEAK_PENDING) (MuxCreate.cs_peaks st)
  = map (set_bp_status BLINDSCAN_PEAK_PENDING) peaks /\
  Forall (fun p => bp_status p = BLINDSCAN_PEAK_SKIPPED \/
                   bp_status p = BLINDSCAN_PEAK_FAILED \/
                   bp_status p = BLINDSCAN_PEAK_SCANNING) (MuxCreate.cs_peaks st) /\
  MuxCreate.cs_created st = Z.of_nat (length (MuxCreate.cs_log st)) /\
  MuxCreate.cs_created st
  = Z.of_nat (length (filter is_scanning (MuxCreate.cs_peaks st))) /\
  Forall (fun e => exists p, In p peaks /\ ~ passed_over p /\
                             e = (MuxCreate.peak_conf k p, false))
         (MuxCreate.cs_log st).
Proof.
  intros st. subst st. unfold MuxCreate.linuxdvb_blindscan_create_muxes.
  destruct (create_fold_spec ops k peaks (MuxCreate.mk_create_state ln 0 [] []))
    as (out & log' & Ho & Hl & Hc & Hf & Hn & Hlog).
  cbn [MuxCreate.cs_peaks MuxCreate.cs_log MuxCreate.cs_created app] in Ho, Hl, Hc.
  rewrite Ho, Hl, Hc.
  split; [exact Hf |].
  split.
  { clear - Hf. induction Hf as [| p p' l l' Hp Hrest IH]; [reflexivity |].
    cbn [map]. rewrite IH, (peak_after_create_fields Hp). reflexivity. }
  split.
  { clear - Hf. induction Hf as [| p p' l l' Hp Hrest IH]; constructor;
      [apply (peak_after_create_status Hp) | exact IH]. }
  split; [lia |]. split; [lia | exact Hlog].
Qed.

Lemma item_conf_ok (k : Muxes.host_constants) (it : MuxCreate.selected_item) :
  MuxCreate.or_default (MuxCreate.it_frequency it) 0 <> 0 ->
  selected_conf_ok k (MuxCreate.item_conf k it).
Proof.
  intros Hf. unfold selected_conf_ok, MuxCreate.item_conf. cbv zeta.
  cbn [MuxCreate.dmc_freq MuxCreate.dmc_sr MuxCreate.dmc_pol MuxCreate.dmc_fe_pls_code
       MuxCreate.dmc_fe_stream_id].
  split; [exact Hf |].
  split.
  { rewrite Z.gtb_ltb.
    destruct (Z.ltb_spec 0 (MuxCreate.or_default (MuxCreate.it_symbol_rate it) 0)); lia. }
  split.
  { destruct (MuxCreate.it_polarisation it) as [pol_str |]; [| left; reflexivity].
    destruct (MuxCreate.first_char_is pol_str _); [right | left]; reflexivity. }
  split.
  { rewrite Z.geb_leb.
    destruct (Z.leb_spec 0 (MuxCreate.or_default (MuxCreate.it_pls_code it) 0));
      destruct (Z.ltb_spec (MuxCreate.or_default (MuxCreate.it_pls_code it) 0) 262144);
      cbn [andb]; lia. }
  rewrite Z.geb_leb.
  destruct (Z.leb_spec 0 (MuxCreate.or_default (MuxCreate.it_stream_id it) (-1)));
    [left; assumption | right; reflexivity].
Qed.

Lemma selected_step_spec (N : Type) (ops : MuxCreate.network_ops N)
      (k : Muxes.host_constants) (st : MuxCreate.create_state N)
      (f : option MuxCreate.selected_item) :
  MuxCreate.cs_peaks (MuxCreate.selected_step ops k st f) = MuxCreate.cs_peaks st /\
  ((MuxCreate.cs_log (MuxCreate.selected_step ops k st f) = MuxCreate.cs_log st /\
    MuxCreate.cs_created (MuxCreate.selected_step ops k st f) = MuxCreate.cs_created st) \/
   (exists it : MuxCreate.selected_item,
       f = Some it /\ item_usable f = true /\
       MuxCreate.cs_log (MuxCreate.selected_step ops k st f)
       = MuxCreate.cs_log st
         ++ [(MuxCreate.item_conf k it,
              MuxCreate.or_default (MuxCreate.it_is_gse it) false)] /\
       MuxCreate.cs_created (MuxCreate.selected_step ops k st f)
       = MuxCreate.cs_created st + 1)).
Proof.
  unfold MuxCreate.selected_step.
  destruct f as [it |]; [| split; [reflexivity | left; split; reflexivity]].
  destruct (MuxCreate.or_default (MuxCreate.it_frequency it) 0 =? 0) eqn:E0;
    [split; [reflexivity | left; split; reflexivity] |].
  cbv zeta.
  destruct (MuxCreate.dvb_network_find_mux ops _ _);
    [split; [reflexivity | left; split; reflexivity] |].
  destruct (MuxCreate.dvb_mux_create0 ops _ _) as [ln' |];
    [| split; [reflexivity | left; split; reflexivity]].
  cbn [MuxCreate.cs_peaks MuxCreate.cs_log MuxCreate.cs_created].
  split; [reflexivity |]. right. exists it.
  split; [reflexivity |]. split; [| split; reflexivity].
  unfold item_usable. rewrite E0. reflexivity.
Qed.

Lemma selected_fold_spec (N : Type) (ops : MuxCreate.network_ops N)
      (k : Muxes.host_constants) (items : list (option MuxCreate.selected_item)) :
  forall st : MuxCreate.create_state N,
  exists log' : list (MuxCreate.dvb_mux_conf * bool),
    MuxCreate.cs_peaks (fold_left (MuxCreate.selected_step ops k) items st)
    = MuxCreate.cs_peaks st /\
    MuxCreate.cs_log (fold_left (MuxCreate.selected_step ops k) items st)
    = MuxCreate.cs_log st ++ log' /\
    MuxCreate.cs_created (fold_left (MuxCreate.selected_step ops k) items st)
    = MuxCreate.cs_created st + Z.of_nat (length log') /\
    (length log' <= length (filter item_usable items))%nat /\
    Forall (fun e => exists it, In (Some it) items /\
                                e = (MuxCreate.item_conf k it,
                                     MuxCreate.or_default (MuxCreate.it_is_gse it) false) /\
                                selected_conf_ok k (fst e)) log'.
Proof.
  induction items as [| f rest IH]; intros st; cbn [fold_left].
  - exists []. rewrite app_nil_r, Z.add_0_r. cbn [length filter].
    repeat split; [lia | constructor].
  - destruct (selected_step_spec ops k st f) as [Hp0 Hcase].
    destruct (IH (MuxCreate.selected_step ops k st f)) as (log' & Hp & Hl & Hc & Hn & Hlog).
    assert (Hlog' : Forall (fun e => exists it, In (Some it) (f :: rest) /\
                                e = (MuxCreate.item_conf k it,
                                     MuxCreate.or_default (MuxCreate.it_is_gse it) false) /\
                                selected_conf_ok k (fst e)) log').
    { apply Forall_forall. intros e He. rewrite Forall_forall in Hlog.
      destruct (Hlog e He) as (it & Hi & Ee & Hok). exists it.
      split; [right; exact Hi | split; assumption]. }
    destruct Hcase as [[Hl0 Hc0] | (it & Ef & Hu & Hl0 & Hc0)].
    + exists log'. rewrite Hp, Hl, Hc, Hp0, Hl0, Hc0.
      split; [reflexivity |]. split; [reflexivity |]. split; [reflexivity |].
      split; [| exact Hlog'].
      cbn [filter]. destruct (item_usable f); cbn [length]; lia.
    + exists ((MuxCreate.item_conf k it,
               MuxCreate.or_default (MuxCreate.it_is_gse it) false) :: log').
      rewrite Hp, Hl, Hc, Hp0, Hl0, Hc0, <- app_assoc. cbn [app length filter].
      rewrite Hu. cbn [length].
      split; [reflexivity |]. split; [reflexivity |]. split; [lia |].
      split; [lia |].
      constructor; [| exact Hlog'].
      exists it. split; [left; exact Ef |]. split; [reflexivity |].
      cbn [fst]. apply item_conf_ok.
      rewrite Ef in Hu. unfold item_usable in Hu.
      destruct (Z.eqb_spec (MuxCreate.or_default (MuxCreate.it_frequency it) 0) 0);
        [discriminate | assumption].
Qed.

(** X27: the creation of selected muxes.  Whatever the entries and the
    network, the operation leaves the session's peaks as they are; the
    number returned is the number of muxes created and never exceeds the
    number of entries that are maps with a frequency other than 0; and
    every mux created has the configuration of one of the entries, with
    that frequency, a positive symbol rate (27 500 000 when the entry has
    none), polarisation H or V, a PLS code in 0..262143 and a stream id
    that is non-negative or the no-filter value.  A PLS code and a stream
    id as a prescan decodes them pass into the configuration unchanged. *)
Theorem create_muxes_selected_outcome (N : Type) (ops : MuxCreate.network_ops N)
        (k : Muxes.host_constants) (ln : N) (peaks : list blindscan_peak)
        (selected_peaks : list (option MuxCreate.selected_item)) :
  let st := MuxCreate.linuxdvb_blindscan_create_muxes_selected
              ops k ln peaks selected_peaks in
  MuxCreate.cs_peaks st = peaks /\
  MuxCreate.cs_created st = Z.of_nat (length (MuxCreate.cs_log st)) /\
  (length (MuxCreate.cs_log st) <= length (filter item_usable selected_peaks))%nat /\
  Forall (fun e => exists it, In (Some it) selected_peaks /\
                              e = (MuxCreate.item_conf k it,
                                   MuxCreate.or_default (MuxCreate.it_is_gse it) false) /\
                              selected_conf_ok k (fst e))
         (MuxCreate.cs_log st) /\
  (forall (it : MuxCreate.selected_item) (raw_stream_id matype : Z),
      0 <= matype ->
      MuxCreate.it_pls_code it
      = Some (Prescan.mi_pls_code
                (snd (Prescan.prescan_decode true raw_stream_id matype))) ->
      MuxCreate.it_stream_id it
      = Some (fst (Prescan.prescan_decode true raw_stream_id matype)) ->
      MuxCreate.dmc_fe_pls_code (MuxCreate.item_conf k it)
      = Prescan.mi_pls_code (snd (Prescan.prescan_decode true raw_stream_id matype)) /\
      (0 <= fst (Prescan.prescan_decode true raw_stream_id matype) ->
       MuxCreate.dmc_fe_stream_id (MuxCreate.item_conf k it)
       = fst (Prescan.prescan_decode true raw_stream_id matype)) /\
      (fst (Prescan.prescan_decode true raw_stream_id matype) < 0 ->
       MuxCreate.dmc_fe_stream_id (MuxCreate.item_conf k it)
       = Muxes.DVB_NO_STREAM_ID_FILTER k)).
Proof.
  intros st. subst st. unfold MuxCreate.linuxdvb_blindscan_create_muxes_selected.
  destruct (selected_fold_spec ops k selected_peaks
                               (MuxCreate.mk_create_state ln 0 peaks []))
    as (log' & Hp & Hl & Hc & Hn & Hlog).
  cbn [MuxCreate.cs_peaks MuxCreate.cs_log MuxCreate.cs_created app] in Hp, Hl, Hc.
  rewrite Hp, Hl, Hc.
  split; [reflexivity |]. split; [lia |]. split; [exact Hn |]. split; [exact Hlog |].
  intros it raw matype Hm Hcode Hsid.
  unfold MuxCreate.item_conf. cbv zeta.
  cbn [MuxCreate.dmc_fe_pls_code MuxCreate.dmc_fe_stream_id].
  rewrite Hcode, Hsid. cbn [MuxCreate.or_default].
  unfold Prescan.prescan_decode, Prescan.decode_matype. cbv zeta.
  cbn [fst snd Prescan.mi_pls_code].
  assert (Hb : 0 <= Z.land (Z.shiftr matype 8) 262143 < 262144).
  { change 262143 with (Z.ones 18). rewrite Z.land_ones by lia.
    apply Z.mod_pos_bound. lia. }
  split.
  - rewrite Z.geb_leb.
    destruct (Z.leb_spec 0 (Z.land (Z.shiftr matype 8) 262143));
      destruct (Z.ltb_spec (Z.land (Z.shiftr matype 8) 262143) 262144);
      cbn [andb]; lia.
  - rewrite Z.geb_leb.
    destruct (Z.leb_spec 0 (Prescan.decode_stream_id raw)); split; intros; try lia;
      reflexivity.
Qed.

(** ** The LNB configuration *)

Lemma tune_chain_spec (drv : Lnb.driver) (vol pol b : Z) (devices : list Lnb.diseqc_device) :
  forall trace : list Lnb.lnb_command,
    match Lnb.tune_chain drv vol pol b devices trace with
    | (Some _, trace') =>
        filter not_wait trace'
        = filter not_wait trace ++ map (fun dev => Lnb.Ld_tune dev vol pol b) devices
    | (None, trace') =>
        last_refused drv trace' /\
        exists done rest,
          devices = done ++ rest /\
          filter not_wait trace'
          = filter not_wait trace ++ map (fun dev => Lnb.Ld_tune dev vol pol b) done
    end.
Proof.
  induction devices as [| dev rest IH]; intros trace; cbn [Lnb.tune_chain].
  - cbn [map]. rewrite app_nil_r. reflexivity.
  - unfold Lnb.issue.
    destruct (Z.ltb_spec (drv (length trace) (Lnb.Ld_tune dev vol pol b)) 0) as [Hneg | Hok].
    + split.
      * exists trace, (Lnb.Ld_tune dev vol pol b). split; [reflexivity | exact Hneg].
      * exists [dev], rest. split; [reflexivity |].
        rewrite filter_app. reflexivity.
    + match goal with
      | |- context [Lnb.tune_chain drv vol pol b rest ?t] =>
          specialize (IH t);
          assert (Hf : filter not_wait t
                       = filter not_wait trace ++ [Lnb.Ld_tune dev vol pol b]);
          [| destruct (Lnb.tune_chain drv vol pol b rest t) as [[done |] trace']]
      end.
      * destruct (_ >? 0); rewrite !filter_app; cbn [filter not_wait];
          rewrite ?app_nil_r; reflexivity.
      * rewrite IH, Hf, <- app_assoc. reflexivity.
      * destruct IH as [Hlast (done & rest' & Hd & Hfl)]. split; [exact Hlast |].
        exists (dev :: done), rest'. split; [rewrite Hd; reflexivity |].
        rewrite Hfl, Hf, <- app_assoc. reflexivity.
Qed.

(** X28: the LNB configuration before a direct acquisition.  The
    function answers 0 or -1.  Whatever the devices answer, the requests
    made (waits apart) are the beginning of one fixed sequence: tone off,
    the DiSEqC voltage, the chain devices that are present (switch before
    rotor exactly when the configuration says so), then 13 V for vertical
    and 18 V for horizontal, then the tone, on exactly for band 1.  On 0
    the whole sequence was made; on -1 the last request made is the one
    that was refused, and nothing was asked after it.  A refusal of the
    first tone-off request alone does not stop the sequence. *)
Theorem configure_lnb_sequence (drv : Lnb.driver) (ls : Lnb.satconf) (b : Z)
        (pol_is_v : bool) :
  let r := fst (Lnb.blindscan_configure_lnb drv ls b pol_is_v) in
  let trace := snd (Lnb.blindscan_configure_lnb drv ls b pol_is_v) in
  (r = 0 \/ r = -1) /\
  (exists rest, lnb_plan ls b pol_is_v = filter not_wait trace ++ rest) /\
  hd_error trace = Some (Lnb.FE_SET_TONE false) /\
  (r = 0 -> filter not_wait trace = lnb_plan ls b pol_is_v) /\
  (r = -1 -> last_refused drv trace /\ (2 <= length trace)%nat).
Proof.
  unfold Lnb.blindscan_configure_lnb, lnb_plan, Lnb.issue. cbv zeta. cbn [length app].
  set (pol := if pol_is_v then 1 else 0).
  destruct (Z.ltb_spec (drv 1%nat (Lnb.Diseqc_set_volt pol)) 0) as [Hneg | Hok].
  - cbn [fst snd filter not_wait hd_error length].
    split; [right; reflexivity |].
    split; [eexists; cbn [app]; reflexivity |].
    split; [reflexivity |]. split; [discriminate |].
    intros _. split; [| lia].
    exists [Lnb.FE_SET_TONE false], (Lnb.Diseqc_set_volt pol).
    split; [reflexivity | exact Hneg].
  - pose proof (tune_chain_spec drv pol pol b (Lnb.lds ls)
                  [Lnb.FE_SET_TONE false; Lnb.Diseqc_set_volt pol; Lnb.Clear_diseqc_cache])
      as Hc.
    cbn [app] in Hc |- *.
    assert (Hhd : forall o t,
               Lnb.tune_chain drv pol pol b (Lnb.lds ls)
                 [Lnb.FE_SET_TONE false; Lnb.Diseqc_set_volt pol; Lnb.Clear_diseqc_cache]
               = (o, t) ->
               exists t', t = Lnb.FE_SET_TONE false :: Lnb.Diseqc_set_volt pol :: t').
    { generalize (Lnb.lds ls).
      assert (G : forall ds tr o t,
                 Lnb.tune_chain drv pol pol b ds
                                (Lnb.FE_SET_TONE false :: Lnb.Diseqc_set_volt pol :: tr)
                 = (o, t) ->
                 exists t', t = Lnb.FE_SET_TONE false :: Lnb.Diseqc_set_volt pol :: t').
      { induction ds as [| d ds IHd]; intros tr o t; cbn [Lnb.tune_chain].
        - intros E. injection E as _ <-. eexists. reflexivity.
        - unfold Lnb.issue. destruct (_ <? 0).
          + intros E. injection E as _ <-. cbn [app]. eexists. reflexivity.
          + destruct (_ >? 0); cbn [app]; apply IHd. }
      intros ds o t. apply G. }
    destruct (Lnb.tune_chain drv pol pol b (Lnb.lds ls) _) as [[done |] trace'] eqn:Et.
    + destruct (Hhd _ _ eq_refl) as [t' Ht'].
      cbn [filter not_wait] in Hc.
      unfold Lnb.issue.
      destruct (Z.ltb_spec (drv (length trace') (Lnb.FE_SET_VOLTAGE pol_is_v)) 0)
        as [Hv | Hv].
      * cbn [fst snd]. rewrite filter_app, Hc. cbn [filter not_wait].
        split; [right; reflexivity |].
        split; [eexists; rewrite <- !app_assoc; cbn [app]; reflexivity |].
        split; [rewrite Ht'; reflexivity |]. split; [discriminate |].
        intros _. split; [| rewrite length_app, Ht'; cbn [length]; lia].
        exists trace', (Lnb.FE_SET_VOLTAGE pol_is_v). split; [reflexivity | exact Hv].
      * rewrite length_app. cbn [length].
        destruct (Z.ltb_spec
                    (drv (length trace' + 1)%nat (Lnb.FE_SET_TONE (b =? 1))) 0) as [Ht | Ht].
        -- cbn [fst snd]. rewrite !filter_app, Hc. cbn [filter not_wait].
           split; [right; reflexivity |].
           split; [exists []; rewrite <- !app_assoc, app_nil_r; cbn [app]; reflexivity |].
           split; [rewrite Ht'; reflexivity |]. split; [discriminate |].
           intros _. split; [| rewrite !length_app, Ht'; cbn [length]; lia].
           exists (trace' ++ [Lnb.FE_SET_VOLTAGE pol_is_v]), (Lnb.FE_SET_TONE (b =? 1)).
           split; [reflexivity |]. rewrite length_app. cbn [length]. exact Ht.
        -- cbn [fst snd]. rewrite !filter_app, Hc. cbn [filter not_wait].
           split; [left; reflexivity |].
           split; [exists []; rewrite <- !app_assoc, app_nil_r; cbn [app]; reflexivity |].
           split; [rewrite Ht'; reflexivity |].
           split; [intros _; rewrite <- !app_assoc; reflexivity | discriminate].
    + destruct (Hhd _ _ eq_refl) as [t' Ht'].
      destruct Hc as [Hlast (done & rest & Hd & Hf)].
      cbn [filter not_wait] in Hf. cbn [fst snd].
      split; [right; reflexivity |].
      split.
      { rewrite Hf, Hd, map_app. eexists. rewrite <- !app_assoc. cbn [app].
        reflexivity. }
      split; [rewrite Ht'; reflexivity |]. split; [discriminate |].
      intros _. split; [exact Hlast | rewrite Ht'; cbn [length]; lia].
Qed.

(** ** The worker: how a run ends *)



(** ** The start handler and the scan plan *)

(** X30: from the start request to the scan plan.  The handler starts
    a session exactly when both identifiers and both frequencies are
    present and the frontend and the network are found; it does not
    compare the two frequencies.  The session then plans one slot for each
    selected polarisation and band, polarisation first: horizontal alone
    when the polarisation argument begins with H or h, vertical alone for
    V or v, both (horizontal first) for anything else or no argument; the
    low band when the start is under 11 700 000 kHz and the high band when
    the end is over it.  It starts in state acquiring with progress 0, no
    peak, and the detection mode of the request (0 when absent). *)
Theorem api_start_plan (frontend_found network_found : bool) (args : Api.start_args) :
  match Api.api_blindscan_start frontend_found network_found args with
  | inr bs =>
      exists start_freq end_freq : Z,
        Api.a_start_freq args = Some start_freq /\
        Api.a_end_freq args = Some end_freq /\
        Api.a_frontend_uuid args <> None /\ Api.a_network_uuid args <> None /\
        frontend_found = true /\ network_found = true /\
        Worker.bs_start_freq bs = start_freq /\ Worker.bs_end_freq bs = end_freq /\
        Worker.scan_slots bs
        = flat_map (fun p => map (pair p) (request_bands start_freq end_freq))
                   (request_pols (Api.a_polarisation args)) /\
        (length (Worker.scan_slots bs) <= 4)%nat /\
        Worker.bs_state bs = BLINDSCAN_STATE_ACQUIRING /\
        Worker.bs_progress bs = 0 /\ Worker.bs_peaks bs = [] /\
        Worker.bs_peak_detect bs
        = match Api.a_peak_detect args with Some v => v | None => 0 end
  | inl _ =>
      Api.a_frontend_uuid args = None \/ Api.a_network_uuid args = None \/
      Api.a_start_freq args = None \/ Api.a_end_freq args = None \/
      frontend_found = false \/ network_found = false
  end.
Proof.
  unfold Api.api_blindscan_start.
  destruct (Api.a_frontend_uuid args) as [fu |]; [| left; reflexivity].
  destruct (Api.a_network_uuid args) as [nu |]; [| right; left; reflexivity].
  destruct (Api.a_start_freq args) as [start_freq |]; [| right; right; left; reflexivity].
  destruct (Api.a_end_freq args) as [end_freq |];
    [| right; right; right; left; reflexivity].
  destruct frontend_found; cbn [negb]; [| right; right; right; right; left; reflexivity].
  destruct network_found; cbn [negb]; [| right; right; right; right; right; reflexivity].
  cbv zeta. exists start_freq, end_freq.
  do 2 (split; [reflexivity |]). do 2 (split; [discriminate |]).
  do 4 (split; [reflexivity |]).
  assert (Hs : Worker.scan_slots
                 (Worker.linuxdvb_blindscan_start
                    start_freq end_freq (Api.start_pol (Api.a_polarisation args))
                    match Api.a_peak_detect args with Some v => v | None => 0 end)
               = flat_map (fun p => map (pair p) (request_bands start_freq end_freq))
                          (request_pols (Api.a_polarisation args))).
  { unfold Worker.scan_slots, Worker.band_list, Worker.pol_list,
      Worker.linuxdvb_blindscan_start, request_bands, request_pols, Api.start_pol,
      Prescan.pol_is_h, Prescan.pol_is_v, BLINDSCAN_LNB_SLOF,
      DVB_POLARISATION_HORIZONTAL, DVB_POLARISATION_VERTICAL.
    cbn [Worker.bs_polarisation Worker.bs_start_freq Worker.bs_end_freq].
    destruct (Api.a_polarisation args) as [[| c rest] |]; try reflexivity.
    destruct ((Api.char_code c =? 72) || (Api.char_code c =? 104)); [reflexivity |].
    destruct ((Api.char_code c =? 86) || (Api.char_code c =? 118)); reflexivity. }
  split; [exact Hs |].
  split.
  { rewrite Hs. unfold request_bands, request_pols.
    destruct (Api.a_polarisation args) as [[| c rest] |];
      try destruct ((Api.char_code c =? 72) || (Api.char_code c =? 104));
      try destruct ((Api.char_code c =? 86) || (Api.char_code c =? 118));
      destruct (start_freq <? 11700000); destruct (end_freq >? 11700000);
      cbn; lia. }
  repeat split.
Qed.
